(** * Heads-up equity server: the simulation core of [server_eval7_multi.py]

    A shallow embedding of the Monte Carlo engine (blocker-aware range
    sampling, deck completion, the trial loop and the final aggregation)
    together with the properties stated about it.

    Conventions.
    - Python [int] is [Z]; Python [float] is IEEE binary64, taken from
      [SpecFloat] at precision 53 and maximal exponent 1024.
    - Python [str] is a list of code points.
    - A raised exception is the [Err] case of [result].
    - [random.Random] and the [eval7] package are outside the file under
      study; they are interfaces ([RandomGen], [Eval7]) over which the
      engine is parameterised. *)

From Stdlib Require Import String Ascii.
From Stdlib Require Import List ZArith Lia Bool Permutation.
From Stdlib Require Import QArith Qabs Lqa Qpower.
From Stdlib Require Import Floats.SpecFloat.
Import ListNotations.

Local Open Scope Z_scope.

(* ================================================================== *)
(** * Python strings *)

Module PyStr.

(** A character is a Unicode code point. *)
Definition char := N.
Definition str := list char.

Definition of_string (s : string) : str :=
  map N_of_ascii (list_ascii_of_string s).

(** [str.isspace] for one character: the code points CPython
    classifies as whitespace. *)
Definition isspace (c : char) : bool :=
  ((9 <=? c) && (c <=? 13) || (28 <=? c) && (c <=? 32)
   || (c =? 133) || (c =? 160) || (c =? 5760)
   || (8192 <=? c) && (c <=? 8202)
   || (c =? 8232) || (c =? 8233) || (c =? 8239) || (c =? 8287)
   || (c =? 12288))%N.

Fixpoint lstrip (s : str) : str :=
  match s with
  | [] => []
  | c :: s' => if isspace c then lstrip s' else s
  end.

Definition rstrip (s : str) : str := rev (lstrip (rev s)).

(** [s.strip()] *)
Definition strip (s : str) : str := rstrip (lstrip s).

(** [len(s)] *)
Definition len (s : str) : Z := Z.of_nat (length s).

(** [ch in s] for a one-character [ch] *)
Definition contains (s : str) (ch : char) : bool := existsb (N.eqb ch) s.

(** [s[:k]] and [s[k:]] for a natural [k] *)
Definition prefix (k : nat) (s : str) : str := firstn k s.
Definition suffix (k : nat) (s : str) : str := skipn k s.

End PyStr.

Definition str := PyStr.str.

(* ================================================================== *)
(** * Cards and the deck *)

(** Modelled from the spec: [eval7.Card] and [eval7.Deck] are not part of
    the file under study.  A card is one of 52 (rank, suit) pairs, equal
    when rank and suit are equal; the deck lists the 52 cards once each,
    rank-major. *)
Inductive suit := Clubs | Diamonds | Hearts | Spades.

Inductive rank :=
  | R2 | R3 | R4 | R5 | R6 | R7 | R8 | R9 | RT | RJ | RQ | RK | RA.

Record card := Card { card_rank : rank; card_suit : suit }.

Definition suit_eq_dec (a b : suit) : {a = b} + {a <> b}.
Proof. decide equality. Defined.

Definition rank_eq_dec (a b : rank) : {a = b} + {a <> b}.
Proof. decide equality. Defined.

Definition card_eq_dec (a b : card) : {a = b} + {a <> b}.
Proof. decide equality; [apply suit_eq_dec | apply rank_eq_dec]. Defined.

Definition card_eqb (a b : card) : bool :=
  if card_eq_dec a b then true else false.

Definition all_suits : list suit := [Clubs; Diamonds; Hearts; Spades].

Definition all_ranks : list rank :=
  [R2; R3; R4; R5; R6; R7; R8; R9; RT; RJ; RQ; RK; RA].

(** [eval7.Deck()] *)
Definition Deck : list card :=
  flat_map (fun r => map (fun s => Card r s) all_suits) all_ranks.

(** [c in cards] *)
Definition mem (c : card) (cards : list card) : bool :=
  existsb (card_eqb c) cards.

(** [len(set(cards))]: the number of distinct cards *)
Definition set_len (cards : list card) : Z :=
  Z.of_nat (length (nodup card_eq_dec cards)).

(** [len(cards)] *)
Definition len {A} (l : list A) : Z := Z.of_nat (length l).

(** The cards of the deck that are not in [dead]. *)
Definition remaining (dead : list card) : list card :=
  filter (fun c => negb (mem c dead)) Deck.

(** A two-card hand, the Python list [[c1, c2]]. *)
Definition Card2 := (card * card)%type.
Definition Board := list card.

Definition cards_of (h : Card2) : list card := [fst h; snd h].

(** [l[:n]] for an arbitrary integer [n]: a negative [n] counts from the
    end, and a bound past either end is clamped. *)
Definition slice_to {A} (n : Z) (l : list A) : list A :=
  if n <? 0 then firstn (Z.to_nat (len l + n)) l
  else firstn (Z.to_nat n) l.

(* ================================================================== *)
(** * Binary64 floats *)

Module F64.

Definition prec : Z := 53.
Definition emax : Z := 1024.

Definition float := spec_float.

Definition zero : float := S754_zero false.             (* 0.0 *)
Definition one : float := S754_finite false 4503599627370496 (-52).
Definition half : float := S754_finite false 4503599627370496 (-53).

Definition add : float -> float -> float := SFadd prec emax.
Definition mul : float -> float -> float := SFmul prec emax.
Definition div : float -> float -> float := SFdiv prec emax.
Definition leb : float -> float -> bool := SFleb.
Definition ltb : float -> float -> bool := SFltb.

(** The nearest float to an integer, ties to even. *)
Definition of_Z (n : Z) : float := binary_normalize prec emax n 0 false.

Definition is_zero (x : float) : bool :=
  match x with S754_zero _ => true | _ => false end.

Definition is_finite (x : float) : bool :=
  match x with S754_zero _ | S754_finite _ _ _ => true | _ => false end.

(** [sum(ws)]: left to right from 0, as CPython computes it up to
    version 3.11.  (From 3.12 on CPython compensates the rounding of a
    float sum, which can move the total by a few units in the last
    place; no statement below looks inside [sum], so each holds for
    either.) *)
Definition sum (ws : list float) : float := fold_left add ws zero.

(** The rational value of a finite float (0 for the others). *)
Definition to_Q (x : float) : Q :=
  match x with
  | S754_finite s m e =>
      let v := (inject_Z (Zpos m) * Qpower 2 e)%Q in
      if s then Qopp v else v
  | _ => 0%Q
  end.

End F64.

Definition float := F64.float.

(* ================================================================== *)
(** * Exceptions *)

(** One constructor per [raise] site of the engine (and per failure of a
    collaborator), named after what is raised there. *)
Inductive error :=
  | TwoCardHandLength        (* ValueError: Two-card hand must be exactly 4 chars *)
  | InvalidCard              (* eval7.Card rejected the two-character code *)
  | InvalidRange             (* eval7.HandRange rejected the text *)
  | FixedHandCollides        (* ValueError: Fixed hand collides with dead cards *)
  | UnsupportedRangeElement  (* ValueError: Unsupported hand range element format *)
  | NoLiveCombos             (* ValueError: No live combos left in range *)
  | BoardLength              (* ValueError: Board must have 0, 3, 4, or 5 cards *)
  | ZeroCompletedTrials      (* RuntimeError: Simulation produced zero completed trials *)
  | IntTooLarge.             (* OverflowError: int too large to convert to float *)

Inductive result (A : Type) :=
  | Ok (a : A)
  | Err (e : error).
Arguments Ok {A} a.
Arguments Err {A} e.

Definition bind {A B} (m : result A) (k : A -> result B) : result B :=
  match m with
  | Ok a => k a
  | Err e => Err e
  end.

Notation "x <- m ;; k" := (bind m (fun x => k))
  (at level 61, m at next level, right associativity).
Notation "' p <- m ;; k" := (bind m (fun x => match x with p => k end))
  (at level 61, p pattern, m at next level, right associativity).

(* ================================================================== *)
(** * Collaborators *)

(** [random.Random]: the generator state is threaded explicitly.  Only the
    three entry points the engine uses appear. *)
Class RandomGen := {
  rng_state : Type;
  (** [random.Random(seed)] for an integer seed *)
  rng_seed : Z -> rng_state;
  (** [rng.random()]: a float and the next state *)
  rng_random : rng_state -> float * rng_state;
  (** [rng.shuffle(x)]: the reordered list and the next state *)
  rng_shuffle : list card -> rng_state -> list card * rng_state
}.

(** What the engine relies on: a shuffle reorders and nothing else. *)
Class RandomGenLaws (R : RandomGen) : Prop := {
  rng_shuffle_perm :
    forall l s, Permutation l (fst (rng_shuffle l s))
}.

(** [random.Random(seed)]: with [seed=None] the state comes from the
    operating system, here the argument [entropy]. *)
Definition Random {R : RandomGen} (seed : option Z) (entropy : rng_state)
  : rng_state :=
  match seed with
  | Some s => rng_seed s
  | None => entropy
  end.

(** An element produced by iterating an [eval7.HandRange]. *)
Inductive hr_item :=
  | Triple (c1 c2 : card) (w : float)     (* (Card, Card, weight) *)
  | PairW (c1 c2 : card) (w : float)      (* ((Card, Card), weight), a 2-tuple *)
  | SeqW (c1 c2 : card) (w : float)       (* another sequence that unpacks so *)
  | Unsupported.                          (* anything else *)

(** The [eval7] package. *)
Class Eval7 := {
  (** [eval7.Card(code)]; [None] when it raises *)
  eval7_Card : str -> option card;
  (** [list(eval7.HandRange(text))]; [None] when the constructor raises *)
  eval7_HandRange : str -> option (list hr_item);
  (** [eval7.evaluate(cards)] *)
  eval7_evaluate : list card -> Z
}.

(* ================================================================== *)
(** * Utilities *)

Section Engine.

Context {R : RandomGen} {E : Eval7}.

Definition parse_two_card_hand (s : str) : result Card2 :=
  let s := PyStr.strip s in
  if negb (PyStr.len s =? 4) then Err TwoCardHandLength
  else
    match eval7_Card (PyStr.prefix 2 s), eval7_Card (PyStr.suffix 2 s) with
    | Some c1, Some c2 => Ok (c1, c2)
    | _, _ => Err InvalidCard
    end.

Definition best5_eval (seven_cards : list card) : Z :=
  eval7_evaluate seven_cards.

Definition deal_remaining (dead : list card) (n : Z) (rng : rng_state)
  : list card * rng_state :=
  let deck := filter (fun c => negb (mem c dead)) Deck in
  let '(deck, rng) := rng_shuffle deck rng in
  (slice_to n deck, rng).

(* ---------------------------------------------------------------- *)
(** ** Range sampling *)

(** A sampler wraps either a fixed hand or a parsed hand range; [text]
    is the input it was built from. *)
Inductive Sampler :=
  | FixedHand (text : str) (fixed : Card2)
  | HandRange (text : str) (hr : list hr_item).

Definition is_range (s : Sampler) : bool :=
  match s with
  | FixedHand _ _ => false
  | HandRange _ _ => true
  end.

(** [Sampler(text, is_range)], that is [__post_init__]. *)
Definition mk_Sampler (text : str) (is_range : bool) : result Sampler :=
  if is_range then
    match eval7_HandRange text with
    | Some hr => Ok (HandRange text hr)
    | None => Err InvalidRange
    end
  else
    fixed <- parse_two_card_hand text ;;
    Ok (FixedHand text fixed).

(** The shape test on one range element: the combo and its weight, or
    the [ValueError] of the last-resort unpacking. *)
Definition unpack_item (item : hr_item) : result (Card2 * float) :=
  match item with
  | Triple c1 c2 w => Ok ((c1, c2), w)
  | PairW c1 c2 w => Ok ((c1, c2), w)
  | SeqW c1 c2 w => Ok ((c1, c2), w)
  | Unsupported => Err UnsupportedRangeElement
  end.

(** The [for item in iterable] loop of [sample]: [live] is the list
    built so far. *)
Fixpoint build_live (dead_set : list card) (iterable : list hr_item)
         (live : list (Card2 * float)) : result (list (Card2 * float)) :=
  match iterable with
  | [] => Ok live
  | item :: rest =>
      '(combo, w) <- unpack_item item ;;
      if mem (fst combo) dead_set || mem (snd combo) dead_set then
        build_live dead_set rest live
      else if card_eqb (fst combo) (snd combo) then
        build_live dead_set rest live
      else
        build_live dead_set rest (live ++ [(combo, w)])
  end.

(** The [for combo, w in live] loop of the weighted draw: [Some] at the
    first [return], [None] when the loop runs to its end. *)
Fixpoint walk (r acc : float) (live : list (Card2 * float)) : option Card2 :=
  match live with
  | [] => None
  | (combo, w) :: rest =>
      let acc := F64.add acc w in
      if F64.leb r acc then Some combo else walk r acc rest
  end.

(** The weighted draw over the non-empty list [first :: rest], given
    the value [u] of [rng.random()]; the fallback is [live[-1]]. *)
Definition weighted_draw (u : float) (first : Card2 * float)
           (rest : list (Card2 * float)) : Card2 :=
  let live := first :: rest in
  let total_w := F64.sum (map snd live) in
  let r := F64.mul u total_w in
  match walk r F64.zero live with
  | Some combo => combo
  | None => fst (last rest first)
  end.

Definition sample (self : Sampler) (rng : rng_state) (dead : list card)
  : result (Card2 * rng_state) :=
  let dead_set := dead in
  match self with
  | FixedHand _ fixed =>
      if existsb (fun c => mem c dead_set) (cards_of fixed)
      then Err FixedHandCollides
      else Ok (fixed, rng)
  | HandRange _ hr =>
      live <- build_live dead_set hr [] ;;
      match live with
      | [] => Err NoLiveCombos
      | first :: rest =>
          let '(u, rng) := rng_random rng in
          Ok (weighted_draw u first rest, rng)
      end
  end.

(** True when the text is a range description, false when it is a fixed
    two-card hand. *)
Definition detect_is_range (s : str) : bool :=
  let s := PyStr.strip s in
  if PyStr.len s =? 4 then
    existsb (PyStr.contains s) (PyStr.of_string ",;+() ")
  else true.

(* ---------------------------------------------------------------- *)
(** ** Core equity loop (heads-up) *)

(** A hero or villain source: text, or a sampler built by the caller. *)
Inductive source :=
  | SrcText (s : str)
  | SrcSampler (s : Sampler).

Definition sampler_of (src : source) : result Sampler :=
  match src with
  | SrcSampler s => Ok s
  | SrcText s => mk_Sampler s (detect_is_range s)
  end.

Record counters := Counters { h_w : Z; v_w : Z; ties : Z }.

Definition total (c : counters) : Z := h_w c + v_w c + ties c.

Record EquityResult := {
  hero_equity : float;
  villain_equity : float;
  hero_wins : Z;
  villain_wins : Z;
  res_ties : Z;
  res_iters : Z
}.

(** [len({*hero, *vill, *board}) != len(hero) + len(vill) + len(board)] *)
Definition collided (hero vill : Card2) (board : Board) : bool :=
  negb (set_len (cards_of hero ++ cards_of vill ++ board)
        =? len (cards_of hero) + len (cards_of vill) + len board).

(** The part of a trial after the collision check: complete the board,
    evaluate both hands, count the outcome. *)
Definition showdown (hero vill : Card2) (board : Board)
           (c : counters) (rng : rng_state) : counters * rng_state :=
  let dead := cards_of hero ++ cards_of vill ++ board in
  let remain := 5 - len board in
  let '(draw, rng) := deal_remaining dead remain rng in
  let full_board := board ++ draw in
  let hs := best5_eval (cards_of hero ++ full_board) in
  let vs := best5_eval (cards_of vill ++ full_board) in
  if hs >? vs then (Counters (h_w c + 1) (v_w c) (ties c), rng)
  else if vs >? hs then (Counters (h_w c) (v_w c + 1) (ties c), rng)
  else (Counters (h_w c) (v_w c) (ties c + 1), rng).

(** One pass through the body of the [for _ in range(iters)] loop. *)
Definition trial (hero_sampler vill_sampler : Sampler) (board : Board)
           (st : counters * rng_state) : result (counters * rng_state) :=
  let '(c, rng) := st in
  '(hero, rng) <- sample hero_sampler rng board ;;
  '(vill, rng) <- sample vill_sampler rng (board ++ cards_of hero) ;;
  if collided hero vill board then
    '(vill, rng) <- sample vill_sampler rng (board ++ cards_of hero) ;;
    if collided hero vill board then
      Ok (c, rng)
    else Ok (showdown hero vill board c rng)
  else Ok (showdown hero vill board c rng).

(** [n] passes of the loop; an exception ends it. *)
Fixpoint run_trials (hero_sampler vill_sampler : Sampler) (board : Board)
         (n : nat) (st : counters * rng_state) : result (counters * rng_state) :=
  match n with
  | O => Ok st
  | S n' =>
      st <- trial hero_sampler vill_sampler board st ;;
      run_trials hero_sampler vill_sampler board n' st
  end.

(** [float(n)] for an integer operand of a float operation. *)
Definition float_of_int (n : Z) : result float :=
  let x := F64.of_Z n in
  if F64.is_finite x then Ok x else Err IntTooLarge.

(** [(wins + 0.5 * ties) / total] *)
Definition equity (wins ties total : Z) : result float :=
  t <- float_of_int ties ;;
  let half_ties := F64.mul F64.half t in
  w <- float_of_int wins ;;
  let num := F64.add w half_ties in
  d <- float_of_int total ;;
  Ok (F64.div num d).

(** The statements after the loop. *)
Definition finalize (c : counters) : result EquityResult :=
  let total := h_w c + v_w c + ties c in
  if total =? 0 then Err ZeroCompletedTrials
  else
    hero_eq <- equity (h_w c) (ties c) total ;;
    vill_eq <- equity (v_w c) (ties c) total ;;
    Ok {| hero_equity := hero_eq;
          villain_equity := vill_eq;
          hero_wins := h_w c;
          villain_wins := v_w c;
          res_ties := ties c;
          res_iters := total |}.

Definition board_len_ok (board : Board) : bool :=
  let n := len board in
  (n =? 0) || (n =? 3) || (n =? 4) || (n =? 5).

(** [board or []] *)
Definition board_or_empty (board : option Board) : Board :=
  match board with
  | Some b => b
  | None => []
  end.

Definition equity_hu (hero_src vill_src : source) (board : option Board)
           (iters : Z) (seed : option Z) (entropy : rng_state)
  : result EquityResult :=
  let rng := Random seed entropy in
  hero_sampler <- sampler_of hero_src ;;
  vill_sampler <- sampler_of vill_src ;;
  let board := board_or_empty board in
  if negb (board_len_ok board) then Err BoardLength
  else
    '(c, _) <- run_trials hero_sampler vill_sampler board (Z.to_nat iters)
                          (Counters 0 0 0, rng) ;;
    finalize c.

End Engine.

(* ================================================================== *)
(** * Board text, card text and the two endpoints *)

(** What [parse_board] raises: its two [ValueError]s, and the exception
    of [eval7.Card] on a code it does not know. *)
Inductive board_error :=
  | BoardStringOdd       (* ValueError: Board string must have even length *)
  | BoardCardCount       (* ValueError: Board must be 0, 3, 4, or 5 cards *)
  | BoardInvalidCard.    (* eval7.Card rejected a two-character code *)

(** [[s[i:i+2] for i in range(0, len(s), 2)]] *)
Fixpoint chunks2 (s : str) : list str :=
  match s with
  | [] => []
  | [a] => [[a]]
  | a :: b :: rest => [a; b] :: chunks2 rest
  end.

(** [str(card)], the other half of the [eval7] card codec. *)
Class Eval7Str := {
  eval7_str : card -> str
}.

(** The codec [eval7] implements: a card prints as two characters, none
    of them whitespace, and the code parses back to the card. *)
Class Eval7Codec (E : Eval7) (P : Eval7Str) : Prop := {
  code_length : forall c, length (eval7_str c) = 2%nat;
  code_solid : forall c ch, In ch (eval7_str c) -> PyStr.isspace ch = false;
  code_parses : forall c, eval7_Card (eval7_str c) = Some c
}.

(** [{0: "preflop", 3: "flop", 4: "turn", 5: "river"}[n]]; [None] is the
    [KeyError]. *)
Definition street_name (n : Z) : option string :=
  if n =? 0 then Some "preflop"%string
  else if n =? 3 then Some "flop"%string
  else if n =? 4 then Some "turn"%string
  else if n =? 5 then Some "river"%string
  else None.

Section Transport.

Context {R : RandomGen} {E : Eval7} {P : Eval7Str}.

(** The list comprehension of [parse_board]: the first code [eval7.Card]
    rejects ends it. *)
Fixpoint parse_codes (codes : list str) : option (list card) :=
  match codes with
  | [] => Some []
  | code :: rest =>
      match eval7_Card code with
      | None => None
      | Some c =>
          match parse_codes rest with
          | None => None
          | Some cards => Some (c :: cards)
          end
      end
  end.

Definition parse_board (s : str) : board_error + Board :=
  let s := PyStr.strip s in
  match s with
  | [] => inr []
  | _ :: _ =>
      if negb (PyStr.len s mod 2 =? 0) then inl BoardStringOdd
      else
        match parse_codes (chunks2 s) with
        | None => inl BoardInvalidCard
        | Some cards =>
            if negb (board_len_ok cards) then inl BoardCardCount
            else inr cards
        end
  end.

(** ["".join(str(c) for c in cards)] *)
Definition cards_to_str (cards : list card) : str :=
  concat (map eval7_str cards).

(** The exception an endpoint turns into a 400 response. *)
Inductive api_error :=
  | BoardRejected (e : board_error)
  | EngineRaised (e : error)
  | StreetKeyError.

(** The echo of the request and the result, as the 200 response of an
    endpoint carries them. *)
Record api_ok := {
  ok_street : string;
  ok_hero : str;
  ok_villain : str;
  ok_board : option str;
  ok_iters : Z;
  ok_seed : option Z;
  ok_result : EquityResult
}.

(** The body of [api_equity_street] once the JSON fields are read:
    [hero] and [villain] are texts, [iters] an integer, [seed] an
    integer or absent.  Reading the request ([get_json], the two
    required keys, [int(...)] on the run length) comes before and is not
    part of it: a request that fails there is answered 400 without
    reaching this body. *)
Definition api_equity_street (hero villain board_str : str) (iters : Z)
           (seed : option Z) (entropy : rng_state) : api_error + api_ok :=
  match parse_board board_str with
  | inl e => inl (BoardRejected e)
  | inr board =>
      match equity_hu (SrcText hero) (SrcText villain) (Some board)
                      iters seed entropy with
      | Err e => inl (EngineRaised e)
      | Ok res =>
          match street_name (len board) with
          | None => inl StreetKeyError
          | Some street =>
              inr {| ok_street := street; ok_hero := hero;
                     ok_villain := villain; ok_board := Some board_str;
                     ok_iters := iters; ok_seed := seed; ok_result := res |}
          end
      end
  end.

(** The body of [api_equity_preflop] once the two hands are read: the
    run length and the seed are fixed. *)
Definition api_equity_preflop (hero villain : str) (entropy : rng_state)
  : api_error + api_ok :=
  let iters := 100000 in
  let seed := 40 in
  match equity_hu (SrcText hero) (SrcText villain) (Some [])
                  iters (Some seed) entropy with
  | Err e => inl (EngineRaised e)
  | Ok res =>
      inr {| ok_street := "preflop"%string; ok_hero := hero;
             ok_villain := villain; ok_board := None;
             ok_iters := iters; ok_seed := Some seed; ok_result := res |}
  end.

End Transport.

(** A sampler that cannot hold the same card twice: any range, and a
    fixed hand of two different cards. *)
Definition proper (s : Sampler) : Prop :=
  match s with
  | FixedHand _ fixed => fst fixed <> snd fixed
  | HandRange _ _ => True
  end.

(** The two seven-card hands a showdown hands to the evaluator. *)
Definition hands_evaluated {R : RandomGen} (hero vill : Card2) (board : Board)
           (rng : rng_state) : list card * list card :=
  let dead := cards_of hero ++ cards_of vill ++ board in
  let draw := fst (deal_remaining dead (5 - len board) rng) in
  (cards_of hero ++ board ++ draw, cards_of vill ++ board ++ draw).

(** The counters with the two players exchanged. *)
Definition mirror (c : counters) : counters :=
  Counters (v_w c) (h_w c) (ties c).

(* ================================================================== *)
(** * Reference notions used in the statements *)

Definition is_unsupported (item : hr_item) : bool :=
  match item with Unsupported => true | _ => false end.

(** The combo and weight carried by an element of supported shape. *)
Definition entry_of (item : hr_item) : list (Card2 * float) :=
  match item with
  | Triple c1 c2 w | PairW c1 c2 w | SeqW c1 c2 w => [((c1, c2), w)]
  | Unsupported => []
  end.

(** An entry survives the filter of [sample]: neither card is dead and
    the two cards differ. *)
Definition entry_live (dead : list card) (x : Card2 * float) : bool :=
  negb (mem (fst (fst x)) dead || mem (snd (fst x)) dead)
  && negb (card_eqb (fst (fst x)) (snd (fst x))).

(** The accumulator of the weighted draw after a prefix of the live list. *)
Definition cumulative (acc : float) (seen : list (Card2 * float)) : float :=
  fold_left F64.add (map snd seen) acc.

(** No card is shared between the two lists. *)
Definition disjoint (a b : list card) : Prop :=
  forall c, In c a -> ~ In c b.

Definition pairwise_disjoint (hero vill : Card2) (board : Board) : Prop :=
  disjoint (cards_of hero) (cards_of vill)
  /\ disjoint (cards_of hero) board
  /\ disjoint (cards_of vill) board.

(** The delimiters that mark a four-character text as a range:
    [,] [;] [+] [(] [)] and the space. *)
Definition range_delimiters : list PyStr.char := [44; 59; 43; 40; 41; 32]%N.

(** The text is a fixed two-card hand: four characters once stripped, none
    of them a delimiter. *)
Definition fixed_hand_text (s : str) : Prop :=
  length (PyStr.strip s) = 4%nat
  /\ forall ch, In ch range_delimiters -> ~ In ch (PyStr.strip s).

(** The rational value of the mantissa [m] at exponent [e]. *)
Definition Qv (m e : Z) : Q := (inject_Z m * Qpower 2 e)%Q.

(** The relative error of one rounding to nearest: 2^-52 bounds it. *)
Definition eps : Q := 1 # 4503599627370496.

(** The draw as the specification words it: the first combo whose
    cumulative weight strictly exceeds [r]. *)
Fixpoint spec_walk (r acc : float) (live : list (Card2 * float)) : option Card2 :=
  match live with
  | [] => None
  | (combo, w) :: rest =>
      let acc := F64.add acc w in
      if F64.ltb r acc then Some combo else spec_walk r acc rest
  end.

(** Side conditions on powers of two. *)
Ltac pow2 :=
  match goal with
  | |- 0 < 2 ^ _ => apply Z.pow_pos_nonneg; lia
  | |- 0 <= 2 ^ _ => apply Z.pow_nonneg; lia
  | |- 2 ^ _ <> 0 => apply Z.pow_nonzero; lia
  | |- _ => lia
  end.

(* ================================================================== *)
(** * A concrete generator and a concrete [eval7]

    Small executable instances of the two interfaces, on which the engine
    can be run. *)

Module Demo.

Definition lcg_next (s : Z) : Z :=
  (6364136223846793005 * s + 1442695040888963407) mod 2 ^ 64.

(** The top 53 bits of the state, scaled into [0, 1). *)
Definition lcg_random (s : Z) : float * Z :=
  (binary_normalize F64.prec F64.emax (s / 2 ^ 11) (-53) false, lcg_next s).

Fixpoint insert_at {A} (j : nat) (x : A) (l : list A) : list A :=
  match j, l with
  | S j', y :: l' => y :: insert_at j' x l'
  | _, _ => x :: l
  end.

(** Each element goes to a position drawn below the current length
    plus one. *)
Fixpoint lcg_shuffle_from (acc l : list card) (s : Z) : list card * Z :=
  match l with
  | [] => (acc, s)
  | x :: l' =>
      let j := Z.to_nat ((s / 2 ^ 33) mod (Z.of_nat (length acc) + 1)) in
      lcg_shuffle_from (insert_at j x acc) l' (lcg_next s)
  end.

#[export] Instance lcg : RandomGen := {
  rng_state := Z;
  rng_seed := fun seed => seed mod 2 ^ 64;
  rng_random := lcg_random;
  rng_shuffle := lcg_shuffle_from []
}.

Definition rank_of_char (c : N) : option rank :=
  match c with
  | 50 => Some R2 | 51 => Some R3 | 52 => Some R4 | 53 => Some R5
  | 54 => Some R6 | 55 => Some R7 | 56 => Some R8 | 57 => Some R9
  | 84 => Some RT | 74 => Some RJ | 81 => Some RQ | 75 => Some RK
  | 65 => Some RA
  | _ => None
  end%N.

Definition suit_of_char (c : N) : option suit :=
  match c with
  | 99 => Some Clubs | 100 => Some Diamonds
  | 104 => Some Hearts | 115 => Some Spades
  | _ => None
  end%N.

Definition card_of_code (code : str) : option card :=
  match code with
  | [r; s] =>
      match rank_of_char r, suit_of_char s with
      | Some r, Some s => Some (Card r s)
      | _, _ => None
      end
  | _ => None
  end.

Definition rank_value (r : rank) : Z :=
  match r with
  | R2 => 2 | R3 => 3 | R4 => 4 | R5 => 5 | R6 => 6 | R7 => 7 | R8 => 8
  | R9 => 9 | RT => 10 | RJ => 11 | RQ => 12 | RK => 13 | RA => 14
  end.

Definition suit_eqb (a b : suit) : bool :=
  if suit_eq_dec a b then true else false.

(** A stand-in strength: the ranks of the cards that share the suit of
    the first card, added up. *)
Definition suited_sum (cards : list card) : Z :=
  match cards with
  | [] => 0
  | c0 :: _ =>
      fold_right
        (fun c acc =>
           if suit_eqb (card_suit c) (card_suit c0)
           then rank_value (card_rank c) + acc else acc)
        0 cards
  end.

(** A range text is read as one four-character combo of weight 1. *)
Definition one_combo_range (text : str) : option (list hr_item) :=
  match PyStr.strip text with
  | [r1; s1; r2; s2; 43%N] =>
      match card_of_code [r1; s1], card_of_code [r2; s2] with
      | Some c1, Some c2 => Some [PairW c1 c2 F64.one]
      | _, _ => None
      end
  | _ => None
  end.

#[export] Instance toy : Eval7 := {
  eval7_Card := card_of_code;
  eval7_HandRange := one_combo_range;
  eval7_evaluate := suited_sum
}.

Definition char_of_rank (r : rank) : N :=
  match r with
  | R2 => 50 | R3 => 51 | R4 => 52 | R5 => 53 | R6 => 54 | R7 => 55
  | R8 => 56 | R9 => 57 | RT => 84 | RJ => 74 | RQ => 81 | RK => 75
  | RA => 65
  end%N.

Definition char_of_suit (s : suit) : N :=
  match s with
  | Clubs => 99 | Diamonds => 100 | Hearts => 104 | Spades => 115
  end%N.

#[export] Instance toy_str : Eval7Str := {
  eval7_str := fun c => [char_of_rank (card_rank c); char_of_suit (card_suit c)]
}.

Definition As := Card RA Spades.
Definition Ac := Card RA Clubs.
Definition Ah := Card RA Hearts.
Definition Ks := Card RK Spades.
Definition Kc := Card RK Clubs.
Definition Kh := Card RK Hearts.
Definition Qh := Card RQ Hearts.
Definition Qd := Card RQ Diamonds.

Definition txt (s : string) : source := SrcText (PyStr.of_string s).

Definition minus_one : float := S754_finite true 4503599627370496 (-52).
Definition infinity : float := S754_infinity false.
Definition nan : float := S754_nan.

(** A range with a zero-weight combo in front. *)
Definition zero_first : Sampler :=
  HandRange (PyStr.of_string "0(AsKs),AhKh")
            [PairW As Ks F64.zero; PairW Ah Kh F64.one].

(** Two combos of weight 1. *)
Definition two_even : Sampler :=
  HandRange (PyStr.of_string "AsKs,AhKh")
            [PairW As Ks F64.one; PairW Ah Kh F64.one].

(** An entry with twice the same card, then a proper one. *)
Definition twice_same_card : Sampler :=
  HandRange (PyStr.of_string "AsAs,AhKh")
            [Triple As As F64.one; Triple Ah Kh F64.one].

(** One combo of weight -1. *)
Definition negative_weight : Sampler :=
  HandRange (PyStr.of_string "-1(AsKs)") [Triple As Ks minus_one].

(** A combo of weight -1, then a combo of weight 0. *)
Definition negative_then_zero : Sampler :=
  HandRange (PyStr.of_string "-1(AsKs),0(AhKh)")
            [PairW As Ks minus_one; PairW Ah Kh F64.zero].

End Demo.

Import Demo.

(* ================================================================== *)
(** * Lists of cards *)

Lemma mem_In c l : mem c l = true <-> In c l.
Proof.
  unfold mem, card_eqb. rewrite existsb_exists. split.
  - intros [x [Hx Heq]]. destruct (card_eq_dec c x); [subst; assumption | discriminate].
  - intros H. exists c. split; [assumption|].
    destruct (card_eq_dec c c); congruence.
Qed.

Lemma mem_false_In c l : mem c l = false <-> ~ In c l.
Proof.
  rewrite <- mem_In. destruct (mem c l); split; congruence.
Qed.

Lemma Deck_NoDup : NoDup Deck.
Proof.
  replace Deck with (nodup card_eq_dec Deck) by reflexivity.
  apply NoDup_nodup.
Qed.

Lemma Deck_length : length Deck = 52%nat.
Proof. reflexivity. Qed.

Lemma Deck_complete c : In c Deck.
Proof. destruct c as [[] []]; vm_compute; tauto. Qed.

Lemma NoDup_firstn {A} (k : nat) (l : list A) : NoDup l -> NoDup (firstn k l).
Proof.
  intros H. rewrite <- (firstn_skipn k l) in H.
  apply NoDup_app_remove_r in H. exact H.
Qed.

Lemma In_firstn {A} (k : nat) (l : list A) x : In x (firstn k l) -> In x l.
Proof.
  intros H. rewrite <- (firstn_skipn k l). apply in_or_app. left. exact H.
Qed.

Lemma slice_to_incl {A} n (l : list A) x : In x (slice_to n l) -> In x l.
Proof. unfold slice_to. destruct (n <? 0); apply In_firstn. Qed.

Lemma slice_to_NoDup {A} n (l : list A) : NoDup l -> NoDup (slice_to n l).
Proof. unfold slice_to. destruct (n <? 0); apply NoDup_firstn. Qed.

Lemma slice_to_len {A} n (l : list A) :
  len (slice_to n l) =
  if n <? 0 then Z.max 0 (len l + n) else Z.min n (len l).
Proof.
  unfold slice_to, len.
  destruct (Z.ltb_spec n 0); rewrite length_firstn; lia.
Qed.

(* ================================================================== *)
(** * The demonstration generator is lawful *)

Lemma insert_at_perm {A} (j : nat) (x : A) (l : list A) :
  Permutation (x :: l) (insert_at j x l).
Proof.
  revert j. induction l as [|y l IH]; intros [|j]; simpl; try reflexivity.
  rewrite perm_swap. apply perm_skip. apply IH.
Qed.

Lemma lcg_shuffle_from_perm l : forall acc s,
  Permutation (acc ++ l) (fst (lcg_shuffle_from acc l s)).
Proof.
  induction l as [|x l IH]; intros acc s; simpl.
  - rewrite app_nil_r. reflexivity.
  - rewrite <- IH. rewrite <- Permutation_middle.
    apply (Permutation_app_tail l (insert_at_perm _ x acc)).
Qed.

#[export] Instance lcg_laws : RandomGenLaws lcg.
Proof.
  constructor. intros l s. apply (lcg_shuffle_from_perm l [] s).
Qed.

(* ================================================================== *)
(** * Deck completion *)

Section DeckCompletion.

Context {R : RandomGen} {L : RandomGenLaws R}.

Lemma remaining_spec dead c : In c (remaining dead) <-> ~ In c dead.
Proof.
  unfold remaining. rewrite filter_In, negb_true_iff, mem_false_In.
  split; [tauto | intros H; split; [apply Deck_complete | exact H]].
Qed.

Lemma remaining_NoDup dead : NoDup (remaining dead).
Proof. apply NoDup_filter, Deck_NoDup. Qed.

Lemma deal_remaining_fst dead n rng :
  fst (deal_remaining dead n rng)
  = slice_to n (fst (rng_shuffle (remaining dead) rng)).
Proof.
  unfold deal_remaining. fold (remaining dead).
  destruct (rng_shuffle (remaining dead) rng); reflexivity.
Qed.

Lemma shuffled_length dead rng :
  len (fst (rng_shuffle (remaining dead) rng)) = len (remaining dead).
Proof.
  unfold len. f_equal. symmetry. apply Permutation_length, rng_shuffle_perm.
Qed.

Lemma deal_remaining_NoDup dead n rng :
  NoDup (fst (deal_remaining dead n rng)).
Proof.
  rewrite deal_remaining_fst. apply slice_to_NoDup.
  eapply Permutation_NoDup; [apply rng_shuffle_perm | apply remaining_NoDup].
Qed.

Lemma deal_remaining_live dead n rng c :
  In c (fst (deal_remaining dead n rng)) -> ~ In c dead.
Proof.
  rewrite deal_remaining_fst. intros H. apply slice_to_incl in H.
  apply remaining_spec.
  eapply Permutation_in; [symmetry; apply rng_shuffle_perm | exact H].
Qed.

(** C6, as the code has it.  [deal_remaining] never fails.  For a
    requested count [n >= 0] it returns [min n k] cards, where [k] is
    the number of cards of the deck not in [dead]: exactly [n] cards
    when at least [n] remain, and all [k] remaining cards (fewer than
    [n]) otherwise.  The cards returned are pairwise distinct and none
    of them is in [dead]. *)
Theorem deal_remaining_correct (dead : list card) (n : Z) (rng : rng_state) :
  0 <= n ->
  let draw := fst (deal_remaining dead n rng) in
  len draw = Z.min n (len (remaining dead))
  /\ (n <= len (remaining dead) -> len draw = n)
  /\ (len (remaining dead) < n -> draw = fst (rng_shuffle (remaining dead) rng))
  /\ NoDup draw
  /\ (forall c, In c draw -> ~ In c dead).
Proof.
  intros Hn draw.
  assert (Hlen : len draw = Z.min n (len (remaining dead))).
  { unfold draw. rewrite deal_remaining_fst, slice_to_len, shuffled_length.
    destruct (Z.ltb_spec n 0); [lia | reflexivity]. }
  split; [exact Hlen|]. split; [lia|]. split.
  - intros Hlt. unfold draw. rewrite deal_remaining_fst.
    unfold slice_to. destruct (Z.ltb_spec n 0); [lia|].
    apply firstn_all2. pose proof (shuffled_length dead rng) as Hs.
    unfold len in *. lia.
  - split; [apply deal_remaining_NoDup | apply deal_remaining_live].
Qed.

End DeckCompletion.

(** With every card dead and five cards requested, no card is returned
    and nothing is raised. *)
Lemma deal_remaining_short :
  deal_remaining (R := lcg) Deck 5 0 = ([], 0).
Proof. reflexivity. Qed.

Lemma deal_remaining_correct_witness :
  len (fst (deal_remaining (R := lcg) [As; Ks; Qh; Qd] 5 7)) = 5
  /\ NoDup (fst (deal_remaining (R := lcg) [As; Ks; Qh; Qd] 5 7)).
Proof.
  pose proof (@deal_remaining_correct lcg lcg_laws [As; Ks; Qh; Qd] 5 7
                ltac:(lia)) as H.
  cbv zeta in H. destruct H as [_ [H1 [_ [H2 _]]]].
  split; [apply H1; vm_compute; discriminate | exact H2].
Defined.

(* ================================================================== *)
(** * The blocker-aware sampler *)

Section SamplerFacts.

Context {R : RandomGen} {E : Eval7}.

Lemma entry_live_spec dead c1 c2 w :
  entry_live dead ((c1, c2), w) = true
  <-> ~ In c1 dead /\ ~ In c2 dead /\ c1 <> c2.
Proof.
  unfold entry_live, card_eqb. simpl.
  rewrite andb_true_iff, !negb_true_iff, orb_false_iff, !mem_false_In.
  destruct (card_eq_dec c1 c2); intuition congruence.
Qed.

(** The loop that builds [live] in closed form. *)
Lemma build_live_eq dead hr : forall live0,
  build_live dead hr live0 =
  if existsb is_unsupported hr then Err UnsupportedRangeElement
  else Ok (live0 ++ filter (entry_live dead) (flat_map entry_of hr)).
Proof.
  induction hr as [|item hr IH]; intros live0; simpl.
  - rewrite app_nil_r. reflexivity.
  - destruct item as [c1 c2 w|c1 c2 w|c1 c2 w|]; simpl; try reflexivity;
      unfold entry_live at 1; simpl;
      destruct (mem c1 dead || mem c2 dead); simpl; rewrite ?IH; try reflexivity;
      destruct (card_eqb c1 c2); simpl; rewrite ?IH; try reflexivity;
      destruct (existsb is_unsupported hr); try reflexivity;
      rewrite <- app_assoc; reflexivity.
Qed.

Lemma walk_In r live : forall acc combo,
  walk r acc live = Some combo -> In combo (map fst live).
Proof.
  induction live as [|[c w] live IH]; intros acc combo; simpl; [discriminate|].
  destruct (F64.leb r (F64.add acc w)).
  - intros [= <-]. now left.
  - intros H. right. eapply IH, H.
Qed.

Lemma last_shift {A} (l : list A) : forall x d, last (x :: l) d = last l x.
Proof.
  induction l as [|y l IH]; intros x d; [reflexivity|].
  change (last (x :: y :: l) d) with (last (y :: l) d).
  rewrite !IH. reflexivity.
Qed.

Lemma last_In {A} (l : list A) : forall d, In (last l d) (d :: l).
Proof.
  induction l as [|x l IH]; intros d; [now left|].
  rewrite last_shift. right. apply IH.
Qed.

Lemma weighted_draw_In u first rest :
  In (weighted_draw u first rest) (map fst (first :: rest)).
Proof.
  unfold weighted_draw.
  destruct (walk _ F64.zero (first :: rest)) as [combo|] eqn:Hw.
  - eapply walk_In, Hw.
  - apply in_map, last_In.
Qed.

(** [sample] on a range, with the loop in closed form. *)
Lemma sample_range_eq text hr rng dead :
  sample (HandRange text hr) rng dead =
  if existsb is_unsupported hr then Err UnsupportedRangeElement
  else match filter (entry_live dead) (flat_map entry_of hr) with
       | [] => Err NoLiveCombos
       | first :: rest =>
           Ok (weighted_draw (fst (rng_random rng)) first rest,
               snd (rng_random rng))
       end.
Proof.
  unfold sample. rewrite build_live_eq.
  destruct (existsb is_unsupported hr); [reflexivity|]. simpl.
  destruct (filter _ _); [reflexivity|].
  destruct (rng_random rng); reflexivity.
Qed.

Lemma sample_range_live text hr rng dead combo rng' :
  sample (HandRange text hr) rng dead = Ok (combo, rng') ->
  exists w, In (combo, w) (filter (entry_live dead) (flat_map entry_of hr)).
Proof.
  rewrite sample_range_eq.
  destruct (existsb is_unsupported hr); [discriminate|].
  destruct (filter _ _) as [|first rest] eqn:Hl; [discriminate|].
  intros [= <- _].
  pose proof (weighted_draw_In (fst (rng_random rng)) first rest) as H.
  apply in_map_iff in H. destruct H as [[c w] [Hc Hin]].
  simpl in Hc. subst c. exists w. exact Hin.
Qed.

(** C2.  Whatever the sampler (fixed hand or range) and whatever the
    dead cards, a combo returned by [sample] contains no dead card; and
    a fixed hand that shares a card with the dead cards makes [sample]
    raise the fixed-hand collision error, for every state of the
    generator. *)
Theorem sample_avoids_dead (self : Sampler) (rng : rng_state) (dead : list card) :
  (forall combo rng',
      sample self rng dead = Ok (combo, rng') ->
      ~ In (fst combo) dead /\ ~ In (snd combo) dead)
  /\ (forall text fixed,
        self = FixedHand text fixed ->
        (exists c, In c (cards_of fixed) /\ In c dead) ->
        sample self rng dead = Err FixedHandCollides).
Proof.
  split.
  - intros combo rng' H. destruct self as [text fixed | text hr].
    + simpl in H.
      destruct (mem (fst fixed) dead || (mem (snd fixed) dead || false)) eqn:Hm;
        [discriminate|].
      injection H as <- _.
      rewrite !orb_false_iff, !mem_false_In in Hm. tauto.
    + apply sample_range_live in H. destruct H as [w H].
      apply filter_In in H. destruct H as [_ H]. destruct combo as [c1 c2].
      apply entry_live_spec in H. simpl. tauto.
  - intros text fixed -> [c [Hc Hd]]. simpl.
    replace (mem (fst fixed) dead || (mem (snd fixed) dead || false)) with true;
      [reflexivity|].
    symmetry. rewrite !orb_true_iff, !mem_In.
    destruct Hc as [<-|[<-|[]]]; tauto.
Qed.

(* ---------------------------------------------------------------- *)
(** ** The cumulative walk *)

Lemma cumulative_app acc l1 l2 :
  cumulative acc (l1 ++ l2) = cumulative (cumulative acc l1) l2.
Proof. unfold cumulative. rewrite map_app, fold_left_app. reflexivity. Qed.

Lemma cumulative_snoc acc pre c w :
  cumulative acc (pre ++ [(c, w)]) = F64.add (cumulative acc pre) w.
Proof. rewrite cumulative_app. reflexivity. Qed.

(** A walk that does not return inside [pre] goes on after it with the
    weights of [pre] accumulated. *)
Lemma walk_app_none r pre : forall acc post,
  walk r acc pre = None ->
  walk r acc (pre ++ post) = walk r (cumulative acc pre) post.
Proof.
  induction pre as [|[c w] pre IH]; intros acc post H; [reflexivity|].
  simpl in *. destruct (F64.leb r (F64.add acc w)); [discriminate|].
  apply IH, H.
Qed.

(** Where the walk returns: the entry, what is before it and after it. *)
Lemma walk_stop r live : forall acc combo,
  walk r acc live = Some combo ->
  exists pre w post,
    live = pre ++ (combo, w) :: post
    /\ walk r acc pre = None
    /\ F64.leb r (cumulative acc (pre ++ [(combo, w)])) = true.
Proof.
  induction live as [|[c w] live IH]; intros acc combo H; [discriminate|].
  simpl in H. destruct (F64.leb r (F64.add acc w)) eqn:Hle.
  - injection H as <-. exists [], w, live. repeat split. exact Hle.
  - apply IH in H. destruct H as (pre & w' & post & -> & Hn & Hc).
    exists ((c, w) :: pre), w', post. repeat split.
    + simpl. rewrite Hle. exact Hn.
    + exact Hc.
Qed.

Lemma walk_none_all r pre : forall acc k,
  walk r acc pre = None -> (k < length pre)%nat ->
  F64.leb r (cumulative acc (firstn (S k) pre)) = false.
Proof.
  induction pre as [|[c w] pre IH]; intros acc k H Hk; [simpl in Hk; lia|].
  simpl in H. destruct (F64.leb r (F64.add acc w)) eqn:Hle; [discriminate|].
  destruct k as [|k].
  - simpl. destruct pre; exact Hle.
  - change (firstn (S (S k)) ((c, w) :: pre)) with ((c, w) :: firstn (S k) pre).
    apply (IH (F64.add acc w) k H). simpl in Hk. lia.
Qed.

Lemma walk_all_none r pre : forall acc,
  (forall k, (k < length pre)%nat ->
             F64.leb r (cumulative acc (firstn (S k) pre)) = false) ->
  walk r acc pre = None.
Proof.
  induction pre as [|[c w] pre IH]; intros acc H; [reflexivity|].
  simpl. pose proof (H 0%nat ltac:(simpl; lia)) as H0.
  simpl in H0. replace (cumulative acc (_ :: firstn 0 pre)) with (F64.add acc w) in H0
    by (destruct pre; reflexivity).
  rewrite H0. apply IH. intros k Hk.
  apply (H (S k)). simpl. lia.
Qed.

(** C5, as the code has it.  On a range with live combos the draw
    takes [u = rng.random()] once and sets [r = u * total_w], the sum
    of the live weights; it walks the live list accumulating weights
    and returns the first combo whose cumulative weight [acc] satisfies
    [r <= acc] (reaches [r], not necessarily exceeds it); when no
    cumulative weight reaches [r] it returns the last live combo. *)
Theorem weighted_draw_first_reaching
        (text : str) (hr : list hr_item) (rng : rng_state) (dead : list card)
        (first : Card2 * float) (rest : list (Card2 * float)) :
  build_live dead hr [] = Ok (first :: rest) ->
  let live := first :: rest in
  let u := fst (rng_random rng) in
  let r := F64.mul u (F64.sum (map snd live)) in
  sample (HandRange text hr) rng dead
  = Ok (weighted_draw u first rest, snd (rng_random rng))
  /\ (forall pre combo w post,
        live = pre ++ (combo, w) :: post ->
        (forall k, (k < length pre)%nat ->
                   F64.leb r (cumulative F64.zero (firstn (S k) live)) = false) ->
        F64.leb r (cumulative F64.zero (pre ++ [(combo, w)])) = true ->
        weighted_draw u first rest = combo)
  /\ ((forall k, (k < length live)%nat ->
                 F64.leb r (cumulative F64.zero (firstn (S k) live)) = false) ->
      weighted_draw u first rest = fst (last rest first)).
Proof.
  intros Hb live u r. split; [|split].
  - unfold sample. rewrite Hb. simpl.
    unfold u. destruct (rng_random rng); reflexivity.
  - intros pre combo w post Hlive Hpre Hstop.
    assert (Hn : walk r F64.zero pre = None).
    { apply walk_all_none. intros k Hk. specialize (Hpre k Hk).
      rewrite Hlive in Hpre. rewrite firstn_app in Hpre.
      replace (S k - length pre)%nat with 0%nat in Hpre by lia.
      simpl firstn in Hpre at 2. rewrite app_nil_r in Hpre. exact Hpre. }
    unfold weighted_draw. fold live. fold r.
    rewrite Hlive, (walk_app_none r pre F64.zero _ Hn).
    rewrite cumulative_snoc in Hstop.
    cbn [walk]. rewrite Hstop. reflexivity.
  - intros Hall. unfold weighted_draw. fold live. fold r.
    rewrite (walk_all_none r live F64.zero Hall). reflexivity.
Qed.

(* ---------------------------------------------------------------- *)
(** ** Weights equal to zero *)

(** Adding a zero does not move the accumulator as far as comparisons
    can tell. *)
Lemma leb_add_zero r acc w :
  F64.is_zero w = true -> F64.leb r (F64.add acc w) = F64.leb r acc.
Proof.
  destruct w as [sw| | |]; try discriminate. intros _.
  destruct acc as [sa|sa| |sa ma ea]; try reflexivity.
  destruct sa, sw, r as [sr|sr| |sr mr er]; reflexivity.
Qed.

Lemma leb_zero_of_pos r :
  F64.ltb F64.zero r = true -> F64.leb r F64.zero = false.
Proof.
  destruct r as [sr|sr| |sr mr er]; try discriminate;
    destruct sr; try discriminate; reflexivity.
Qed.

Lemma walk_none_last r pre : forall acc,
  walk r acc pre = None -> F64.leb r acc = false ->
  F64.leb r (cumulative acc pre) = false.
Proof.
  induction pre as [|[c w] pre IH]; intros acc H Hacc; [exact Hacc|].
  simpl in H. destruct (F64.leb r (F64.add acc w)) eqn:Hle; [discriminate|].
  apply (IH _ H Hle).
Qed.

(** A walk with a strictly positive [r] stops at an entry whose weight
    is not zero. *)
Lemma walk_stops_at_nonzero r live combo :
  F64.ltb F64.zero r = true ->
  walk r F64.zero live = Some combo ->
  exists pre w post,
    live = pre ++ (combo, w) :: post
    /\ walk r F64.zero pre = None
    /\ F64.leb r (cumulative F64.zero (pre ++ [(combo, w)])) = true
    /\ F64.is_zero w = false.
Proof.
  intros Hr Hw. apply walk_stop in Hw.
  destruct Hw as (pre & w & post & Hlive & Hn & Hstop).
  exists pre, w, post. repeat split; try assumption.
  destruct (F64.is_zero w) eqn:Hz; [|reflexivity].
  rewrite cumulative_snoc, (leb_add_zero _ _ _ Hz) in Hstop.
  rewrite (walk_none_last r pre F64.zero Hn (leb_zero_of_pos r Hr)) in Hstop.
  discriminate.
Qed.

(** C4, as the code has it.  In the weighted draw of [sample], when the
    scaled draw [r = u * total_w] is strictly positive, the combo
    returned is one of two.  Either it is the combo of the first live
    entry whose cumulative weight reaches [r] ([r <= acc]), and the
    weight of that entry is not zero: the walk passes over every
    zero-weight entry.  Or no cumulative weight reaches [r], and it is
    the last live combo, which the fallback returns without looking at
    its weight. *)
Theorem zero_weight_only_by_fallback
        (text : str) (hr : list hr_item) (rng : rng_state) (dead : list card)
        (first : Card2 * float) (rest : list (Card2 * float)) :
  build_live dead hr [] = Ok (first :: rest) ->
  let live := first :: rest in
  let u := fst (rng_random rng) in
  let r := F64.mul u (F64.sum (map snd live)) in
  F64.ltb F64.zero r = true ->
  exists combo,
    sample (HandRange text hr) rng dead = Ok (combo, snd (rng_random rng))
    /\ ((exists pre w post,
            live = pre ++ (combo, w) :: post
            /\ (forall k, (k < length pre)%nat ->
                          F64.leb r (cumulative F64.zero (firstn (S k) live)) = false)
            /\ F64.leb r (cumulative F64.zero (pre ++ [(combo, w)])) = true
            /\ F64.is_zero w = false)
        \/ ((forall k, (k < length live)%nat ->
                       F64.leb r (cumulative F64.zero (firstn (S k) live)) = false)
            /\ combo = fst (last rest first))).
Proof.
  intros Hb live u r Hr. exists (weighted_draw u first rest). split.
  - unfold sample. rewrite Hb. simpl.
    unfold u. destruct (rng_random rng); reflexivity.
  - unfold weighted_draw. fold live. fold r.
    destruct (walk r F64.zero live) as [combo|] eqn:Hw.
    + left. destruct (walk_stops_at_nonzero r live combo Hr Hw)
        as (pre & w & post & Hlive & Hn & Hstop & Hz).
      exists pre, w, post. repeat split; try assumption.
      intros k Hk. rewrite Hlive, firstn_app.
      replace (S k - length pre)%nat with 0%nat by lia.
      cbn [firstn]. rewrite app_nil_r.
      apply (walk_none_all r pre F64.zero k Hn Hk).
    + right. split; [|reflexivity].
      intros k Hk. apply (walk_none_all r live F64.zero k Hw Hk).
Qed.

(* ---------------------------------------------------------------- *)
(** ** What the live list keeps *)

(** C9, as the code has it.  Building the live list raises only for an
    element of unsupported shape.  An entry whose two cards are equal
    is skipped without an error and is never in the live list, so it
    is never drawn.  Weights are not inspected: an entry with two
    distinct cards, neither of them dead, is in the live list whatever
    its weight (negative, infinite and NaN included). *)
Theorem live_list_contents (text : str) (hr : list hr_item) (dead : list card) :
  (existsb is_unsupported hr = false ->
   build_live dead hr [] = Ok (filter (entry_live dead) (flat_map entry_of hr)))
  /\ (existsb is_unsupported hr = true ->
      build_live dead hr [] = Err UnsupportedRangeElement)
  /\ (forall live c w, build_live dead hr [] = Ok live -> ~ In ((c, c), w) live)
  /\ (forall rng combo rng',
        sample (HandRange text hr) rng dead = Ok (combo, rng') ->
        fst combo <> snd combo)
  /\ (forall live c1 c2 w,
        build_live dead hr [] = Ok live ->
        In ((c1, c2), w) (flat_map entry_of hr) ->
        c1 <> c2 -> ~ In c1 dead -> ~ In c2 dead ->
        In ((c1, c2), w) live).
Proof.
  rewrite build_live_eq. rewrite app_nil_l.
  destruct (existsb is_unsupported hr) eqn:Hu.
  - repeat split; try discriminate; try reflexivity.
    intros rng combo rng' H. rewrite sample_range_eq, Hu in H. discriminate.
  - split; [reflexivity|]. split; [discriminate|]. split; [|split].
    + intros live c w [= <-] Hin.
      apply filter_In in Hin. destruct Hin as [_ Hin].
      apply entry_live_spec in Hin. tauto.
    + intros rng combo rng' H. apply sample_range_live in H.
      destruct H as [w H]. apply filter_In in H. destruct H as [_ H].
      destruct combo as [c1 c2]. apply entry_live_spec in H.
      simpl. tauto.
    + intros live c1 c2 w [= <-] Hin Hne H1 H2.
      apply filter_In. split; [exact Hin|].
      apply entry_live_spec. tauto.
Qed.

End SamplerFacts.

(* ================================================================== *)
(** * The sampler on concrete ranges *)

Lemma sample_avoids_dead_witness :
  sample (R := lcg) (FixedHand (PyStr.of_string "AsKs") (As, Ks)) 0 [Qh; Ks]
  = Err FixedHandCollides
  /\ ~ In (fst (Ah, Kh)) [As] /\ ~ In (snd (Ah, Kh)) [As].
Proof.
  split.
  - apply (proj2 (sample_avoids_dead (R := lcg)
                    (FixedHand (PyStr.of_string "AsKs") (As, Ks)) 0 [Qh; Ks])
                 (PyStr.of_string "AsKs") (As, Ks) eq_refl).
    exists Ks. simpl. tauto.
  - apply (proj1 (sample_avoids_dead (R := lcg) two_even 0 [As])
                 (Ah, Kh) (lcg_next 0)).
    reflexivity.
Defined.

(** A combo of weight 0 is returned in two ways.  With [rng.random()]
    returning 0.0 the walk stops at once, at the combo of weight 0 that
    heads the live list.  With weights -1 and 0 and [rng.random()]
    returning 0.5, [r] is -0.5, no cumulative weight reaches it, and the
    fallback returns the last live combo, whose weight is 0. *)
Lemma zero_weight_drawn :
  (fst (rng_random (RandomGen := lcg) 0) = F64.zero
   /\ build_live [] [PairW As Ks F64.zero; PairW Ah Kh F64.one] []
      = Ok [((As, Ks), F64.zero); ((Ah, Kh), F64.one)]
   /\ sample (R := lcg) zero_first 0 [] = Ok ((As, Ks), lcg_next 0))
  /\ (let live := [((As, Ks), minus_one); ((Ah, Kh), F64.zero)] in
      let u := fst (rng_random (RandomGen := lcg) (2 ^ 63)) in
      let r := F64.mul u (F64.sum (map snd live)) in
      u = F64.half
      /\ build_live [] [PairW As Ks minus_one; PairW Ah Kh F64.zero] [] = Ok live
      /\ walk r F64.zero live = None
      /\ sample (R := lcg) negative_then_zero (2 ^ 63) []
         = Ok ((Ah, Kh), lcg_next (2 ^ 63))).
Proof. vm_compute. repeat split. Qed.

Lemma zero_weight_only_by_fallback_witness :
  let live := [((As, Ks), F64.zero); ((Ah, Kh), F64.one)] in
  let r := F64.mul (fst (rng_random (RandomGen := lcg) (2 ^ 63)))
                   (F64.sum (map snd live)) in
  exists combo,
    sample (R := lcg) zero_first (2 ^ 63) []
    = Ok (combo, snd (rng_random (RandomGen := lcg) (2 ^ 63)))
    /\ ((exists pre w post,
            live = pre ++ (combo, w) :: post
            /\ (forall k, (k < length pre)%nat ->
                          F64.leb r (cumulative F64.zero (firstn (S k) live)) = false)
            /\ F64.leb r (cumulative F64.zero (pre ++ [(combo, w)])) = true
            /\ F64.is_zero w = false)
        \/ ((forall k, (k < length live)%nat ->
                       F64.leb r (cumulative F64.zero (firstn (S k) live)) = false)
            /\ combo = fst (last [((Ah, Kh), F64.one)] ((As, Ks), F64.zero)))).
Proof.
  apply (zero_weight_only_by_fallback (R := lcg)
           (PyStr.of_string "0(AsKs),AhKh")
           [PairW As Ks F64.zero; PairW Ah Kh F64.one] (2 ^ 63) []
           ((As, Ks), F64.zero) [((Ah, Kh), F64.one)]);
    reflexivity.
Defined.

(** With two combos of weight 1 and [rng.random()] returning 0.5, [r] is
    1.0: the first cumulative weight equals [r] and does not exceed it,
    yet the first combo is returned; the first combo whose cumulative
    weight exceeds [r] is the second. *)
Lemma draw_stops_at_equal_weight :
  let live := [((As, Ks), F64.one); ((Ah, Kh), F64.one)] in
  let u := fst (rng_random (RandomGen := lcg) (2 ^ 63)) in
  let r := F64.mul u (F64.sum (map snd live)) in
  u = F64.half
  /\ r = F64.one
  /\ cumulative F64.zero [((As, Ks), F64.one)] = F64.one
  /\ F64.ltb r (cumulative F64.zero [((As, Ks), F64.one)]) = false
  /\ sample (R := lcg) two_even (2 ^ 63) [] = Ok ((As, Ks), lcg_next (2 ^ 63))
  /\ spec_walk r F64.zero live = Some (Ah, Kh).
Proof. vm_compute. repeat split. Qed.

Lemma weighted_draw_first_reaching_witness :
  sample (R := lcg) two_even (2 ^ 63) []
  = Ok (weighted_draw (fst (rng_random (RandomGen := lcg) (2 ^ 63)))
                      ((As, Ks), F64.one) [((Ah, Kh), F64.one)],
        snd (rng_random (RandomGen := lcg) (2 ^ 63))).
Proof.
  apply (weighted_draw_first_reaching (R := lcg)
           (PyStr.of_string "AsKs,AhKh")
           [PairW As Ks F64.one; PairW Ah Kh F64.one] (2 ^ 63) []
           ((As, Ks), F64.one) [((Ah, Kh), F64.one)]).
  reflexivity.
Defined.

(** An entry with twice the same card raises nothing and is dropped;
    entries with a negative, NaN or infinite weight are kept, and a
    combo of weight -1 is drawn. *)
Lemma invalid_entries_not_rejected :
  sample (R := lcg) twice_same_card 0 [] = Ok ((Ah, Kh), lcg_next 0)
  /\ build_live []
       [Triple As Ks minus_one; Triple Ah Kh nan; Triple Ac Kc infinity] []
     = Ok [((As, Ks), minus_one); ((Ah, Kh), nan); ((Ac, Kc), infinity)]
  /\ sample (R := lcg) negative_weight 0 [] = Ok ((As, Ks), lcg_next 0).
Proof. vm_compute. repeat split. Qed.

Lemma live_list_contents_witness :
  build_live [Kh]
    [Triple As As F64.one; Triple Ah Kh F64.one; Triple As Ks minus_one] []
  = Ok [((As, Ks), minus_one)].
Proof.
  apply (proj1 (live_list_contents (R := lcg) (PyStr.of_string "AsAs,AhKh,-1(AsKs)")
                  [Triple As As F64.one; Triple Ah Kh F64.one;
                   Triple As Ks minus_one] [Kh])).
  reflexivity.
Defined.

(* ================================================================== *)
(** * Fixed hand or range *)

Section SourceKind.

Context {E : Eval7}.

Lemma contains_false s ch : PyStr.contains s ch = false <-> ~ In ch s.
Proof.
  unfold PyStr.contains. split.
  - intros H Hin.
    assert (Ht : existsb (N.eqb ch) s = true).
    { apply existsb_exists. exists ch. split; [exact Hin | apply N.eqb_refl]. }
    congruence.
  - intros Hn. destruct (existsb (N.eqb ch) s) eqn:Hx; [|reflexivity].
    apply existsb_exists in Hx. destruct Hx as [x [Hin Heq]].
    apply N.eqb_eq in Heq. subst x. contradiction.
Qed.

Lemma detect_is_range_false s :
  detect_is_range s = false <-> fixed_hand_text s.
Proof.
  unfold detect_is_range, fixed_hand_text, PyStr.len.
  change (PyStr.of_string ",;+() ") with range_delimiters.
  destruct (Z.eqb_spec (Z.of_nat (length (PyStr.strip s))) 4) as [H4|H4].
  - split.
    + intros Hx. split; [lia|]. intros ch Hch.
      apply contains_false.
      destruct (PyStr.contains (PyStr.strip s) ch) eqn:Hc; [|reflexivity].
      assert (Ht : existsb (PyStr.contains (PyStr.strip s)) range_delimiters = true)
        by (apply existsb_exists; exists ch; split; assumption).
      congruence.
    + intros [_ Hall].
      destruct (existsb _ range_delimiters) eqn:Hx; [|reflexivity].
      apply existsb_exists in Hx. destruct Hx as [ch [Hch Hc]].
      apply Hall in Hch. apply contains_false in Hch. congruence.
  - split; [discriminate|]. intros [Hl _]. lia.
Qed.

(** C10.  A source text is taken as a fixed two-card hand exactly when,
    once stripped of surrounding whitespace, it has four characters and
    none of them is [,] [;] [+] [(] [)] or a space: the sampler is then
    built by [parse_two_card_hand].  Every other text goes to the range
    parser. *)
Theorem fixed_hand_or_range (s : str) :
  (detect_is_range s = false <-> fixed_hand_text s)
  /\ (fixed_hand_text s ->
      sampler_of (SrcText s)
      = (fixed <- parse_two_card_hand s ;; Ok (FixedHand s fixed)))
  /\ (~ fixed_hand_text s ->
      sampler_of (SrcText s)
      = match eval7_HandRange s with
        | Some hr => Ok (HandRange s hr)
        | None => Err InvalidRange
        end).
Proof.
  split; [apply detect_is_range_false|]. split.
  - intros H. apply detect_is_range_false in H.
    unfold sampler_of, mk_Sampler. rewrite H. reflexivity.
  - intros H. unfold sampler_of, mk_Sampler.
    destruct (detect_is_range s) eqn:Hd; [reflexivity|].
    apply detect_is_range_false in Hd. contradiction.
Qed.

End SourceKind.

Lemma fixed_hand_or_range_witness :
  sampler_of (E := toy) (txt " AsKs ")
  = Ok (FixedHand (PyStr.of_string " AsKs ") (As, Ks))
  /\ sampler_of (E := toy) (txt "AsK+")
     = Err InvalidRange.
Proof.
  unfold txt. split.
  - rewrite (proj1 (proj2 (fixed_hand_or_range (E := toy)
                             (PyStr.of_string " AsKs ")))); [reflexivity|].
    split; [reflexivity|]. vm_compute. intros ch H H2.
    repeat (destruct H as [<-|H];
            [repeat (destruct H2 as [H2|H2]; [discriminate|]); exact H2|]).
    exact H.
  - rewrite (proj2 (proj2 (fixed_hand_or_range (E := toy)
                             (PyStr.of_string "AsK+")))); [reflexivity|].
    intros [_ H]. apply (H 43%N); vm_compute; tauto.
Defined.

(* ================================================================== *)
(** * The trial loop *)

Lemma nodup_length_le (l : list card) :
  (length (nodup card_eq_dec l) <= length l)%nat.
Proof.
  induction l as [|x l IH]; simpl; [lia|].
  destruct (in_dec card_eq_dec x l); simpl; lia.
Qed.

Lemma nodup_length_NoDup (l : list card) :
  length (nodup card_eq_dec l) = length l -> NoDup l.
Proof.
  induction l as [|x l IH]; simpl; [constructor|].
  pose proof (nodup_length_le l) as Hle.
  destruct (in_dec card_eq_dec x l); simpl; intros H; [lia|].
  constructor; [assumption | apply IH; lia].
Qed.

Lemma collided_false_NoDup hero vill board :
  collided hero vill board = false <->
  NoDup (cards_of hero ++ cards_of vill ++ board).
Proof.
  unfold collided, set_len. rewrite negb_false_iff, Z.eqb_eq.
  assert (Hl : len (cards_of hero) + len (cards_of vill) + len board
               = len (cards_of hero ++ cards_of vill ++ board)).
  { unfold len. rewrite !length_app. lia. }
  rewrite Hl. unfold len. split.
  - intros H. apply nodup_length_NoDup. lia.
  - intros H. rewrite (nodup_fixed_point card_eq_dec H). reflexivity.
Qed.

(** The three groups share no card when the test of the loop passes. *)
Lemma collided_false_disjoint hero vill board :
  collided hero vill board = false -> pairwise_disjoint hero vill board.
Proof.
  intros H. apply collided_false_NoDup in H.
  destruct hero as [h1 h2], vill as [v1 v2]. unfold cards_of in H. simpl in H.
  inversion H as [|? ? Hh1 H1]; subst. inversion H1 as [|? ? Hh2 H2]; subst.
  inversion H2 as [|? ? Hv1 H3]; subst. inversion H3 as [|? ? Hv2 H4]; subst.
  unfold pairwise_disjoint, disjoint, cards_of. simpl.
  repeat split; intros c [<-|[<-|[]]] Hin; simpl in *; intuition (subst; eauto).
Qed.

Section TrialLoop.

Context {R : RandomGen} {E : Eval7}.

(** Whether [sample] raises does not depend on the generator. *)
Lemma sample_ok_any_state self dead rng combo rng' :
  sample self rng dead = Ok (combo, rng') ->
  forall rng2, exists combo2 rng2', sample self rng2 dead = Ok (combo2, rng2').
Proof.
  destruct self as [text fixed | text hr].
  - unfold sample.
    destruct (existsb (fun c => mem c dead) (cards_of fixed)); [discriminate|].
    intros _ rng2. eauto.
  - rewrite sample_range_eq. intros H rng2. rewrite sample_range_eq.
    destruct (existsb is_unsupported hr); [discriminate|].
    destruct (filter _ _); [discriminate|]. eauto.
Qed.

(** C7.  When the test after the two draws finds a repeated card among
    hero, villain and board (as it does whenever the three are not
    pairwise disjoint), the villain hand is drawn again, once, from
    the state the generator is then in, and that draw does not raise.
    If the test finds a repeated card again the trial ends there with
    the counters as they were and without an exception; otherwise the
    trial goes on to the showdown with the new villain hand. *)
Theorem collision_retry_then_skip
        (hero_sampler vill_sampler : Sampler) (board : Board)
        (c : counters) (rng rng1 rng2 : rng_state) (hero vill : Card2) :
  sample hero_sampler rng board = Ok (hero, rng1) ->
  sample vill_sampler rng1 (board ++ cards_of hero) = Ok (vill, rng2) ->
  collided hero vill board = true ->
  (forall h v b, ~ pairwise_disjoint h v b -> collided h v b = true)
  /\ exists vill' rng3,
      sample vill_sampler rng2 (board ++ cards_of hero) = Ok (vill', rng3)
      /\ (collided hero vill' board = true ->
          trial hero_sampler vill_sampler board (c, rng) = Ok (c, rng3))
      /\ (collided hero vill' board = false ->
          trial hero_sampler vill_sampler board (c, rng)
          = Ok (showdown hero vill' board c rng3)).
Proof.
  intros Hh Hv Hc. split.
  - intros h v b Hn. destruct (collided h v b) eqn:Hcol; [reflexivity|].
    exfalso. apply Hn, collided_false_disjoint, Hcol.
  - destruct (sample_ok_any_state _ _ _ _ _ Hv rng2) as (vill' & rng3 & Hv').
    exists vill', rng3. split; [exact Hv'|].
    unfold trial. rewrite Hh. simpl. rewrite Hv. simpl. rewrite Hc, Hv'. simpl.
    split; intros ->; reflexivity.
Qed.

End TrialLoop.

(** A fixed hand typed with twice the same card collides in every trial:
    the villain hand is drawn again and the trial is skipped. *)
Lemma collision_retry_then_skip_witness :
  exists vill' rng3,
    sample (R := lcg) (FixedHand (PyStr.of_string "KsKc") (Ks, Kc)) 5
           ([] ++ cards_of (As, As)) = Ok (vill', rng3)
    /\ (collided (As, As) vill' [] = true ->
        trial (R := lcg) (E := toy)
              (FixedHand (PyStr.of_string "AsAs") (As, As))
              (FixedHand (PyStr.of_string "KsKc") (Ks, Kc)) []
              (Counters 3 2 1, 5)
        = Ok (Counters 3 2 1, rng3))
    /\ (collided (As, As) vill' [] = false ->
        trial (R := lcg) (E := toy)
              (FixedHand (PyStr.of_string "AsAs") (As, As))
              (FixedHand (PyStr.of_string "KsKc") (Ks, Kc)) []
              (Counters 3 2 1, 5)
        = Ok (showdown (R := lcg) (E := toy) (As, As) vill' [] (Counters 3 2 1) rng3)).
Proof.
  apply (proj2 (collision_retry_then_skip (R := lcg) (E := toy)
                  (FixedHand (PyStr.of_string "AsAs") (As, As))
                  (FixedHand (PyStr.of_string "KsKc") (Ks, Kc)) []
                  (Counters 3 2 1) 5 5 5 (As, As) (Ks, Kc)
                  eq_refl eq_refl eq_refl)).
Defined.

(** Without a seed the result follows the state the environment supplies. *)
Example unseeded_runs_differ :
  equity_hu (R := lcg) (E := toy) (txt "AsKs") (txt "AhKh") None 3 None 1
  <> equity_hu (R := lcg) (E := toy) (txt "AsKs") (txt "AhKh") None 3 None 4.
Proof. vm_compute. discriminate. Qed.

(* ================================================================== *)
(** * Binary64 rounding

    The error model of the float operations the aggregation uses: in the
    normal range each operation returns a float within a relative [eps]
    of the exact result.  Everything is derived from the definitions of
    [SpecFloat]. *)

(** ** The number of binary digits *)

Lemma digits2_size p : digits2_pos p = Pos.size p.
Proof. induction p; simpl; congruence. Qed.

Lemma digits2_bounds p :
  2 ^ (Zpos (digits2_pos p) - 1) <= Zpos p < 2 ^ Zpos (digits2_pos p).
Proof.
  rewrite digits2_size. split.
  - pose proof (Pos.size_le p) as H.
    apply Pos2Z.pos_le_pos in H. rewrite Pos2Z.inj_pow in H.
    change (Zpos p~0) with (2 * Zpos p) in H.
    replace (Zpos (Pos.size p)) with (Zpos (Pos.size p) - 1 + 1) in H by lia.
    rewrite Z.pow_add_r in H by lia. lia.
  - pose proof (Pos.size_gt p) as H.
    apply Pos2Z.pos_lt_pos in H. rewrite Pos2Z.inj_pow in H. exact H.
Qed.

Lemma Zdigits2_unique m d :
  2 ^ (d - 1) <= m < 2 ^ d -> 0 < d -> Zdigits2 m = d.
Proof.
  intros [Hlo Hhi] Hd.
  assert (0 < m) by (pose proof (Z.pow_pos_nonneg 2 (d - 1)); lia).
  destruct m as [|p|p]; try lia. simpl.
  pose proof (digits2_bounds p) as [Hl Hh].
  set (d' := Zpos (digits2_pos p)) in *.
  destruct (Z.lt_trichotomy d d') as [Hlt|[Heq|Hgt]]; [|exact (eq_sym Heq)|].
  - assert (2 ^ d <= 2 ^ (d' - 1)) by (apply Z.pow_le_mono_r; lia). lia.
  - assert (2 ^ d' <= 2 ^ (d - 1)) by (apply Z.pow_le_mono_r; lia). lia.
Qed.

Lemma Zdigits2_bounds m :
  0 < m -> 2 ^ (Zdigits2 m - 1) <= m < 2 ^ Zdigits2 m.
Proof. destruct m; try lia. intros _. apply digits2_bounds. Qed.

Lemma Zdigits2_pos m : 0 < m -> 0 < Zdigits2 m.
Proof. destruct m; simpl; lia. Qed.

(** ** Right shifts: the mantissa is divided by a power of two *)

Lemma shr_1_m mrs : 0 <= shr_m mrs -> shr_m (shr_1 mrs) = shr_m mrs / 2.
Proof.
  destruct mrs as [m r s]. simpl. intros Hm.
  destruct m as [|[p|p|]|p]; simpl; try lia; try reflexivity.
  - change (Zpos p~1) with (2 * Zpos p + 1).
    apply Z.div_unique with (r := 1); lia.
  - change (Zpos p~0) with (2 * Zpos p).
    apply Z.div_unique with (r := 0); lia.
Qed.

Lemma shr_1_nonneg mrs : 0 <= shr_m mrs -> 0 <= shr_m (shr_1 mrs).
Proof. intros H. rewrite shr_1_m by exact H. apply Z.div_pos; lia. Qed.

Lemma iter_shr_1_m p : forall mrs,
  0 <= shr_m mrs ->
  shr_m (iter_pos shr_1 p mrs) = shr_m mrs / 2 ^ Zpos p.
Proof.
  induction p as [p IH|p IH|]; intros mrs Hm; simpl iter_pos.
  - pose proof (shr_1_nonneg mrs Hm) as H1.
    assert (H2 : 0 <= shr_m (iter_pos shr_1 p (shr_1 mrs))).
    { rewrite IH by exact H1. apply Z.div_pos; [exact H1|]. apply Z.pow_pos_nonneg; lia. }
    rewrite IH by exact H2. rewrite IH by exact H1. rewrite shr_1_m by exact Hm.
    rewrite !Z.div_div by pow2.
    f_equal. rewrite Pos2Z.inj_xI. rewrite <- Z.pow_add_r by lia.
    rewrite <- (Z.pow_1_r 2) at 1. rewrite <- Z.pow_add_r by lia. f_equal. lia.
  - assert (H2 : 0 <= shr_m (iter_pos shr_1 p mrs)).
    { rewrite IH by exact Hm. apply Z.div_pos; [exact Hm|]. apply Z.pow_pos_nonneg; lia. }
    rewrite IH by exact H2. rewrite IH by exact Hm.
    rewrite Z.div_div by pow2.
    f_equal. rewrite Pos2Z.inj_xO. rewrite <- Z.pow_add_r by lia. f_equal. lia.
  - rewrite shr_1_m by exact Hm. reflexivity.
Qed.

Lemma shr_record_of_loc_m m l : shr_m (shr_record_of_loc m l) = m.
Proof. destruct l as [|[]]; reflexivity. Qed.

(** Shifting a mantissa of at least 53 digits down to 53, in the normal range. *)
Lemma shr_fexp_normal m e l :
  0 < m -> 53 <= Zdigits2 m -> -1074 <= Zdigits2 m + e - 53 ->
  let k := Zdigits2 m - 53 in
  snd (shr_fexp 53 1024 m e l) = e + k
  /\ shr_m (fst (shr_fexp 53 1024 m e l)) = m / 2 ^ k.
Proof.
  intros Hm Hd Hr k. unfold shr_fexp, fexp, emin.
  replace (Z.max (Zdigits2 m + e - 53) (3 - 1024 - 53) - e) with k by (unfold k; lia).
  unfold shr. destruct k as [|p|p] eqn:Hk; try lia.
  - simpl. rewrite shr_record_of_loc_m. rewrite Z.div_1_r. split; [lia|reflexivity].
  - simpl snd. simpl fst. split; [reflexivity|].
    rewrite iter_shr_1_m; rewrite shr_record_of_loc_m; [reflexivity | lia].
Qed.

Lemma round_nearest_even_range m l :
  m <= round_nearest_even m l <= m + 1.
Proof.
  destruct l as [|[]]; simpl; try lia. destruct (Z.even m); lia.
Qed.

(** ** Rounding a mantissa of 53 digits or more *)

Lemma div_pow2_window m d k :
  2 ^ (d - 1) <= m < 2 ^ d -> 0 <= k -> k < d ->
  2 ^ (d - 1 - k) <= m / 2 ^ k < 2 ^ (d - k).
Proof.
  intros [Hlo Hhi] Hk Hkd.
  assert (Hp : 0 < 2 ^ k) by pow2.
  split.
  - apply Z.div_le_lower_bound; [exact Hp|].
    rewrite <- Z.pow_add_r by lia. replace (k + (d - 1 - k)) with (d - 1) by lia. exact Hlo.
  - apply Z.div_lt_upper_bound; [exact Hp|].
    rewrite <- Z.pow_add_r by lia. replace (k + (d - k)) with d by lia. exact Hhi.
Qed.

(** [binary_round_aux] in the normal range: the mantissa [m] is cut down
    to its 53 leading digits [m1], rounded to [m1] or [m1 + 1], and
    renormalised when the rounding carries into a 54th digit. *)
Lemma bra_normal m e l :
  2 ^ 52 <= m ->
  -1074 <= Zdigits2 m + e - 53 ->
  Zdigits2 m + e <= 1023 ->
  let k := Zdigits2 m - 53 in
  let m1 := m / 2 ^ k in
  exists M E m0,
    binary_round_aux 53 1024 false m e l = S754_finite false M E
    /\ 2 ^ 52 <= Zpos M < 2 ^ 53
    /\ 0 <= k
    /\ 2 ^ 52 <= m1 < 2 ^ 53
    /\ m1 <= m0 <= m1 + 1
    /\ e + k <= E <= e + k + 1
    /\ Zpos M * 2 ^ (E - (e + k)) = m0.
Proof.
  intros Hm Hlo Hhi k m1.
  assert (Hm0 : 0 < m) by lia.
  pose proof (Zdigits2_bounds m Hm0) as Hd.
  assert (Hd53 : 53 <= Zdigits2 m).
  { destruct (Z.le_gt_cases 53 (Zdigits2 m)) as [H|H]; [exact H|].
    assert (2 ^ Zdigits2 m <= 2 ^ 52) by (apply Z.pow_le_mono_r; lia). lia. }
  assert (Hk : 0 <= k) by (unfold k; lia).
  assert (Hm1 : 2 ^ 52 <= m1 < 2 ^ 53).
  { pose proof (div_pow2_window m (Zdigits2 m) k Hd Hk ltac:(unfold k; lia)) as H.
    replace (Zdigits2 m - 1 - k) with 52 in H by (unfold k; lia).
    replace (Zdigits2 m - k) with 53 in H by (unfold k; lia). exact H. }
  assert (Hek : -1074 <= e + k /\ e + k + 1 <= 971) by (unfold k; lia).
  unfold binary_round_aux.
  pose proof (shr_fexp_normal m e l Hm0 Hd53 Hlo) as [He1 Hs1].
  fold k in He1, Hs1. fold m1 in Hs1.
  destruct (shr_fexp 53 1024 m e l) as [mrs' e'] eqn:H1. simpl in He1, Hs1.
  rewrite Hs1.
  set (m0 := round_nearest_even m1 (loc_of_shr_record mrs')).
  pose proof (round_nearest_even_range m1 (loc_of_shr_record mrs')) as Hr.
  fold m0 in Hr.
  assert (Hm0pos : 0 < m0) by lia.
  assert (Hcases : m0 < 2 ^ 53 \/ m0 = 2 ^ 53) by lia.
  assert (Hdm0 : (Zdigits2 m0 = 53 /\ m0 < 2 ^ 53) \/ (Zdigits2 m0 = 54 /\ m0 = 2 ^ 53)).
  { destruct Hcases as [Hc|Hc].
    - left. split; [|exact Hc]. apply Zdigits2_unique; simpl; lia.
    - right. split; [|exact Hc]. rewrite Hc. reflexivity. }
  assert (Hd2 : 53 <= Zdigits2 m0) by (destruct Hdm0 as [[? ?]|[? ?]]; lia).
  assert (Hlo2 : -1074 <= Zdigits2 m0 + e' - 53).
  { clearbody k m1 m0. clear Hdm0 Hcases Hr Hm1 Hd. lia. }
  pose proof (shr_fexp_normal m0 e' loc_Exact Hm0pos Hd2 Hlo2) as [He2 Hs2].
  destruct (shr_fexp 53 1024 m0 e' loc_Exact) as [mrs'' e''] eqn:H2.
  simpl in He2, Hs2. rewrite Hs2.
  clear Hd Hlo Hhi Hlo2 Hd2 H1 H2 Hcases. clearbody k m1 m0.
  destruct Hdm0 as [[Hd0 Hc]|[Hd0 Hc]]; rewrite Hd0 in *; clear Hd0.
  - replace (53 - 53) with 0 in * by lia. rewrite Z.div_1_r. clear Hs2.
    destruct m0 as [|M|M]; try lia.
    replace (e'' <=? 1024 - 53) with true by (symmetry; apply Z.leb_le; lia).
    exists M, e'', (Zpos M). subst e''. subst e'.
    repeat split; try lia.
    replace (e + k + 0 - (e + k)) with 0 by lia. rewrite Z.pow_0_r. lia.
  - replace (54 - 53) with 1 in * by lia. clear Hs2.
    rewrite Hc. change (2 ^ 53 / 2 ^ 1) with (Zpos 4503599627370496).
    replace (e'' <=? 1024 - 53) with true by (symmetry; apply Z.leb_le; lia).
    exists 4503599627370496%positive, e'', m0. subst e''. subst e'.
    repeat split; try lia.
    replace (e + k + 1 - (e + k)) with 1 by lia. rewrite Hc. reflexivity.
Qed.

(** ** Values as rationals *)

Lemma Qpow2_pos e : (0 < Qpower 2 e)%Q.
Proof. apply Qpower_0_lt. reflexivity. Qed.

Lemma Qv_shift m e k : 0 <= k -> (Qv (m * 2 ^ k) e == Qv m (e + k))%Q.
Proof.
  intros Hk. unfold Qv.
  rewrite inject_Z_mult, Zpower_Qpower by exact Hk.
  rewrite Qpower_plus by discriminate.
  change (inject_Z 2) with 2%Q. ring.
Qed.

Lemma Qv_le m m' e : m <= m' -> (Qv m e <= Qv m' e)%Q.
Proof.
  intros H. unfold Qv. apply Qmult_le_compat_r.
  - rewrite <- Zle_Qle. exact H.
  - apply Qlt_le_weak, Qpow2_pos.
Qed.

Lemma Qv_succ m e : (Qv (m + 1) e == Qv m e + Qpower 2 e)%Q.
Proof. unfold Qv. rewrite inject_Z_plus. change (inject_Z 1) with 1%Q. ring. Qed.

Lemma Qv_pos m e : 0 < m -> (0 < Qv m e)%Q.
Proof.
  intros H. unfold Qv. apply Qmult_lt_0_compat.
  - change 0%Q with (inject_Z 0). rewrite <- Zlt_Qlt. exact H.
  - apply Qpow2_pos.
Qed.

(** The rounding error model: in the normal range the rounded value is
    within a relative [eps] of any [x] the location bracket contains. *)
Lemma bra_approx m e l (x : Q) :
  2 ^ 52 <= m ->
  -1074 <= Zdigits2 m + e - 53 ->
  Zdigits2 m + e <= 1023 ->
  (Qv m e <= x <= Qv (m + 1) e)%Q ->
  exists M E,
    binary_round_aux 53 1024 false m e l = S754_finite false M E
    /\ 2 ^ 52 <= Zpos M < 2 ^ 53
    /\ Zdigits2 m + e - 53 <= E <= Zdigits2 m + e - 52
    /\ ((1 - eps) * x <= Qv (Zpos M) E <= (1 + eps) * x)%Q.
Proof.
  intros Hm Hlo Hhi [Hx1 Hx2].
  destruct (bra_normal m e l Hm Hlo Hhi) as (M & E & m0 & Hbra & HM & Hk & Hm1 & Hm0 & HE & Hval).
  set (k := Zdigits2 m - 53) in *. set (m1 := m / 2 ^ k) in *.
  exists M, E. split; [exact Hbra|]. split; [exact HM|].
  split; [unfold k in HE; lia|].
  assert (Hp : 0 < 2 ^ k) by pow2.
  assert (Hdm : m1 * 2 ^ k <= m < (m1 + 1) * 2 ^ k).
  { unfold m1. pose proof (Z.mul_div_le m (2 ^ k) Hp).
    pose proof (Z.mul_succ_div_gt m (2 ^ k) Hp). lia. }
  assert (Hv : (Qv (Zpos M) E == Qv m0 (e + k))%Q).
  { rewrite <- Hval. rewrite Qv_shift by lia. replace (e + k + (E - (e + k))) with E by lia.
    reflexivity. }
  assert (Hlo1 : (Qv m1 (e + k) <= x)%Q).
  { rewrite <- Qv_shift by lia. eapply Qle_trans; [|exact Hx1]. apply Qv_le. lia. }
  assert (Hhi1 : (x <= Qv (m1 + 1) (e + k))%Q).
  { rewrite <- Qv_shift by lia. eapply Qle_trans; [exact Hx2|]. apply Qv_le. lia. }
  assert (Hv1 : (Qv m1 (e + k) <= Qv m0 (e + k) <= Qv (m1 + 1) (e + k))%Q).
  { split; apply Qv_le; lia. }
  rewrite Hv. rewrite Qv_succ in Hhi1, Hv1.
  assert (Hu : (Qpower 2 (e + k) <= eps * Qv m1 (e + k))%Q).
  { unfold Qv. pose proof (Qpow2_pos (e + k)) as Hpos.
    assert (H52 : (inject_Z (2 ^ 52) <= inject_Z m1)%Q) by (rewrite <- Zle_Qle; lia).
    change (inject_Z (2 ^ 52)) with (4503599627370496 # 1)%Q in H52.
    unfold eps. set (u := Qpower 2 (e + k)) in *. set (a := inject_Z m1) in *.
    assert ((a - (4503599627370496 # 1)) * u >= 0)%Q.
    { apply Qmult_le_0_compat; lra. }
    lra. }
  set (u := Qpower 2 (e + k)) in *. set (a := Qv m1 (e + k)) in *.
  set (v := Qv m0 (e + k)) in *.
  unfold eps in *. split; lra.
Qed.

(** ** Alignment and normalisation *)

Lemma pos_iter_xO p d : Zpos (Pos.iter xO p d) = Zpos p * 2 ^ Zpos d.
Proof.
  induction d as [|d IH] using Pos.peano_ind.
  - simpl. lia.
  - rewrite Pos.iter_succ, Pos2Z.inj_xO, IH, Pos2Z.inj_succ, Z.pow_succ_r by lia. lia.
Qed.

Lemma shl_align_spec mx ex ex' :
  snd (shl_align mx ex ex') = Z.min ex ex'
  /\ Zpos (fst (shl_align mx ex ex')) = Zpos mx * 2 ^ (ex - Z.min ex ex').
Proof.
  unfold shl_align.
  destruct (Z.min_spec ex ex') as [[Hlt Hmin]|[Hle Hmin]]; rewrite Hmin.
  - destruct (ex' - ex) as [|d|d] eqn:Hd; try lia.
    cbn [fst snd]. rewrite Z.sub_diag, Z.pow_0_r. lia.
  - destruct (ex' - ex) as [|d|d] eqn:Hd; try lia; cbn [fst snd].
    + replace ex' with ex by lia. rewrite Z.sub_diag, Z.pow_0_r. lia.
    + split; [reflexivity|]. rewrite pos_iter_xO. f_equal. f_equal. lia.
Qed.

Lemma Zdigits2_lower m a : 0 <= a -> 2 ^ a <= m -> a + 1 <= Zdigits2 m.
Proof.
  intros Ha H. assert (Hm : 0 < m) by (assert (0 < 2 ^ a) by pow2; lia).
  pose proof (Zdigits2_bounds m Hm) as [_ Hhi].
  pose proof (Zdigits2_pos m Hm).
  destruct (Z.le_gt_cases (a + 1) (Zdigits2 m)) as [|Hc]; [assumption|].
  assert (2 ^ Zdigits2 m <= 2 ^ a) by (apply Z.pow_le_mono_r; lia). lia.
Qed.

Lemma Zdigits2_upper m b : 0 < m -> 0 <= b -> m < 2 ^ b -> Zdigits2 m <= b.
Proof.
  intros Hm Hb H.
  pose proof (Zdigits2_bounds m Hm) as [Hlo _].
  pose proof (Zdigits2_pos m Hm).
  destruct (Z.le_gt_cases (Zdigits2 m) b) as [|Hc]; [assumption|].
  assert (2 ^ b <= 2 ^ (Zdigits2 m - 1)) by (apply Z.pow_le_mono_r; lia). lia.
Qed.

Lemma Zdigits2_shift m k : 0 < m -> 0 <= k -> Zdigits2 (m * 2 ^ k) = Zdigits2 m + k.
Proof.
  intros Hm Hk. pose proof (Zdigits2_bounds m Hm) as [Hlo Hhi].
  pose proof (Zdigits2_pos m Hm) as Hd.
  assert (Hp : 0 < 2 ^ k) by pow2.
  apply Zdigits2_unique; [|lia]. split.
  - replace (Zdigits2 m + k - 1) with (Zdigits2 m - 1 + k) by lia.
    rewrite Z.pow_add_r by lia. apply Z.mul_le_mono_nonneg_r; lia.
  - rewrite Z.pow_add_r by lia. apply Z.mul_lt_mono_pos_r; lia.
Qed.

(** [binary_round]: align to 53 digits, then round. *)
Lemma binary_round_approx p e :
  let d := Zdigits2 (Zpos p) in
  -1074 <= d + e - 53 -> d + e <= 1023 ->
  exists M E,
    binary_round 53 1024 false p e = S754_finite false M E
    /\ 2 ^ 52 <= Zpos M < 2 ^ 53
    /\ d + e - 53 <= E <= d + e - 52
    /\ ((1 - eps) * Qv (Zpos p) e <= Qv (Zpos M) E <= (1 + eps) * Qv (Zpos p) e)%Q.
Proof.
  intros d Hlo Hhi. unfold binary_round.
  change (Zpos (digits2_pos p)) with d.
  assert (Hf : fexp 53 1024 (d + e) = d + e - 53) by (unfold fexp, emin; lia).
  rewrite Hf.
  pose proof (shl_align_spec p e (d + e - 53)) as [Hez Hmz].
  destruct (shl_align p e (d + e - 53)) as [mz ez]. cbn [fst snd] in Hez, Hmz.
  assert (Hdp : 0 < d) by (unfold d; simpl; lia).
  pose proof (Zdigits2_bounds (Zpos p) ltac:(lia)) as [Hplo Hphi]. fold d in Hplo, Hphi.
  assert (Hk : 0 <= e - Z.min e (d + e - 53)) by lia.
  assert (Hdz : Zdigits2 (Zpos mz) = d + (e - Z.min e (d + e - 53))).
  { rewrite Hmz. apply Zdigits2_shift; lia. }
  assert (Hmz52 : 2 ^ 52 <= Zpos mz).
  { pose proof (Zdigits2_bounds (Zpos mz) ltac:(lia)) as [Hl _].
    rewrite Hdz in Hl. eapply Z.le_trans; [|exact Hl].
    apply Z.pow_le_mono_r; lia. }
  assert (Hx : (Qv (Zpos mz) ez == Qv (Zpos p) e)%Q).
  { rewrite Hmz, Qv_shift by lia. rewrite Hez.
    replace (Z.min e (d + e - 53) + (e - Z.min e (d + e - 53))) with e by lia. reflexivity. }
  destruct (bra_approx (Zpos mz) ez loc_Exact (Qv (Zpos p) e) Hmz52)
    as (M & E & Hbra & HM & HE & Hv).
  - rewrite Hdz, Hez. lia.
  - rewrite Hdz, Hez. lia.
  - rewrite <- Hx. split; [apply Qle_refl | apply Qv_le; lia].
  - exists M, E. split; [exact Hbra|]. split; [exact HM|]. split; [|exact Hv].
    rewrite Hdz, Hez in HE. lia.
Qed.

(** ** The operations of the aggregation *)

Lemma Qv_mul a e b e2 : (Qv a e * Qv b e2 == Qv (a * b) (e + e2))%Q.
Proof.
  unfold Qv. rewrite inject_Z_mult, Qpower_plus by discriminate. ring.
Qed.

Lemma Qv_add a b e : (Qv a e + Qv b e == Qv (a + b) e)%Q.
Proof. unfold Qv. rewrite inject_Z_plus. ring. Qed.

Lemma Qv_0 a : (Qv a 0 == inject_Z a)%Q.
Proof. unfold Qv. simpl. ring. Qed.

Lemma Zdigits2_53 M : 2 ^ 52 <= Zpos M < 2 ^ 53 -> Zdigits2 (Zpos M) = 53.
Proof. intros H. apply Zdigits2_unique; simpl; lia. Qed.

(** [float(n)] for a positive integer below 2^1000. *)
Lemma of_Z_approx n :
  0 < n < 2 ^ 1000 ->
  exists M E,
    F64.of_Z n = S754_finite false M E
    /\ 2 ^ 52 <= Zpos M < 2 ^ 53
    /\ -52 <= E <= 948
    /\ ((1 - eps) * inject_Z n <= Qv (Zpos M) E <= (1 + eps) * inject_Z n)%Q.
Proof.
  intros [Hn0 Hn]. destruct n as [|p|p]; try lia.
  unfold F64.of_Z, binary_normalize, F64.prec, F64.emax.
  pose proof (Zdigits2_pos (Zpos p) Hn0) as Hd1.
  pose proof (Zdigits2_upper (Zpos p) 1000 Hn0 ltac:(lia) Hn) as Hd2.
  destruct (binary_round_approx p 0) as (M & E & Hbr & HM & HE & Hv); try lia.
  exists M, E. split; [exact Hbr|]. split; [exact HM|]. split; [lia|].
  rewrite Qv_0 in Hv. exact Hv.
Qed.

(** [0.5 * x] for a normal positive [x]. *)
Lemma mul_half_approx M E :
  2 ^ 52 <= Zpos M < 2 ^ 53 -> -1000 <= E <= 970 ->
  exists M' E',
    F64.mul F64.half (S754_finite false M E) = S754_finite false M' E'
    /\ 2 ^ 52 <= Zpos M' < 2 ^ 53
    /\ E - 1 <= E' <= E
    /\ ((1 - eps) * (Qv (Zpos M) E * (1 # 2)) <= Qv (Zpos M') E'
        <= (1 + eps) * (Qv (Zpos M) E * (1 # 2)))%Q.
Proof.
  intros HM HE. unfold F64.mul, F64.half, SFmul, F64.prec, F64.emax.
  cbn [xorb].
  assert (Hm : Zpos (4503599627370496 * M) = Zpos M * 2 ^ 52).
  { rewrite Pos2Z.inj_mul. change (2 ^ 52) with (Zpos 4503599627370496). lia. }
  rewrite Hm.
  assert (Hd : Zdigits2 (Zpos M * 2 ^ 52) = 105).
  { rewrite Zdigits2_shift by lia. rewrite Zdigits2_53 by exact HM. reflexivity. }
  destruct (bra_approx (Zpos M * 2 ^ 52) (-53 + E) loc_Exact
                       (Qv (Zpos M) E * (1 # 2))%Q)
    as (M' & E' & Hbra & HM' & HE' & Hv).
  - assert (0 < 2 ^ 52) by pow2. nia.
  - rewrite Hd. lia.
  - rewrite Hd. lia.
  - assert (Hx : (Qv (Zpos M * 2 ^ 52) (-53 + E) == Qv (Zpos M) E * (1 # 2))%Q).
    { rewrite Qv_shift by lia. replace (-53 + E + 52) with (E + -1) by lia.
      unfold Qv. rewrite Qpower_plus by discriminate.
      change (Qpower 2 (-1)) with (1 # 2)%Q. ring. }
    rewrite <- Hx. split; [apply Qle_refl | apply Qv_le; lia].
  - exists M', E'. rewrite Hd in HE'. repeat split; try tauto; try lia.
Qed.

(** [x + y] for normal positive [x] and [y]. *)
Lemma add_approx M1 E1 M2 E2 :
  2 ^ 52 <= Zpos M1 < 2 ^ 53 -> 2 ^ 52 <= Zpos M2 < 2 ^ 53 ->
  -1074 <= E1 <= 968 -> -1074 <= E2 <= 968 ->
  exists M E,
    F64.add (S754_finite false M1 E1) (S754_finite false M2 E2)
    = S754_finite false M E
    /\ 2 ^ 52 <= Zpos M < 2 ^ 53
    /\ Z.max E1 E2 <= E <= Z.max E1 E2 + 2
    /\ ((1 - eps) * (Qv (Zpos M1) E1 + Qv (Zpos M2) E2) <= Qv (Zpos M) E
        <= (1 + eps) * (Qv (Zpos M1) E1 + Qv (Zpos M2) E2))%Q.
Proof.
  intros HM1 HM2 HE1 HE2. unfold F64.add, SFadd, F64.prec, F64.emax.
  cbn [cond_Zopp].
  set (ez := Z.min E1 E2).
  pose proof (shl_align_spec M1 E1 ez) as [_ Ha].
  pose proof (shl_align_spec M2 E2 ez) as [_ Hb].
  replace (Z.min E1 ez) with ez in Ha by (unfold ez; lia).
  replace (Z.min E2 ez) with ez in Hb by (unfold ez; lia).
  set (a := fst (shl_align M1 E1 ez)) in *.
  set (b := fst (shl_align M2 E2 ez)) in *.
  change (Zpos a + Zpos b) with (Zpos (a + b)). unfold binary_normalize.
  assert (Hk1 : 0 <= E1 - ez) by (unfold ez; lia).
  assert (Hk2 : 0 <= E2 - ez) by (unfold ez; lia).
  assert (Hsum : Zpos (a + b) = Zpos a + Zpos b) by reflexivity.
  assert (Hp1 : 0 < 2 ^ (E1 - ez)) by pow2.
  assert (Hp2 : 0 < 2 ^ (E2 - ez)) by pow2.
  assert (Hmax : 2 ^ (E1 - ez) <= 2 ^ (Z.max E1 E2 - ez)
                 /\ 2 ^ (E2 - ez) <= 2 ^ (Z.max E1 E2 - ez)).
  { split; apply Z.pow_le_mono_r; lia. }
  assert (Hdlo : 53 + Z.max E1 E2 - ez <= Zdigits2 (Zpos (a + b))).
  { replace (53 + Z.max E1 E2 - ez) with (52 + Z.max E1 E2 - ez + 1) by lia.
    apply Zdigits2_lower; [lia|].
    replace (52 + Z.max E1 E2 - ez) with (52 + (Z.max E1 E2 - ez)) by lia.
    rewrite Z.pow_add_r by lia. rewrite Hsum, Ha, Hb.
    destruct (Z.max_spec E1 E2) as [[_ ->]|[_ ->]]; nia. }
  assert (Hdhi : Zdigits2 (Zpos (a + b)) <= 54 + Z.max E1 E2 - ez).
  { apply Zdigits2_upper; [lia|lia|].
    replace (54 + Z.max E1 E2 - ez) with (54 + (Z.max E1 E2 - ez)) by lia.
    rewrite Z.pow_add_r by lia. rewrite Hsum, Ha, Hb.
    change (2 ^ 54) with (2 * 2 ^ 53). nia. }
  destruct (binary_round_approx (a + b) ez) as (M & E & Hbr & HM & HE & Hv); try lia.
  exists M, E. split; [exact Hbr|]. split; [exact HM|]. split; [lia|].
  assert (Hx : (Qv (Zpos (a + b)) ez == Qv (Zpos M1) E1 + Qv (Zpos M2) E2)%Q).
  { rewrite Hsum, <- Qv_add, Ha, Hb. rewrite !Qv_shift by lia.
    replace (ez + (E1 - ez)) with E1 by lia.
    replace (ez + (E2 - ez)) with E2 by lia. reflexivity. }
  rewrite <- Hx. exact Hv.
Qed.

(** [x / y] for normal positive [x] and [y]: the quotient of the
    mantissas carries 53 or 54 digits. *)
Lemma SFdiv_core_normal M1 E1 M2 E2 :
  2 ^ 52 <= Zpos M1 < 2 ^ 53 -> 2 ^ 52 <= Zpos M2 < 2 ^ 53 ->
  -1021 <= E1 - E2 ->
  exists l,
    SFdiv_core_binary 53 1024 (Zpos M1) E1 (Zpos M2) E2
    = (Zpos M1 * 2 ^ 53 / Zpos M2, E1 - E2 - 53, l).
Proof.
  intros HM1 HM2 HE. unfold SFdiv_core_binary.
  rewrite !Zdigits2_53 by assumption.
  assert (He : Z.min (fexp 53 1024 (53 + E1 - (53 + E2))) (E1 - E2) = E1 - E2 - 53).
  { unfold fexp, emin. lia. }
  rewrite He. replace (E1 - E2 - (E1 - E2 - 53)) with 53 by lia.
  rewrite Z.shiftl_mul_pow2 by lia.
  unfold Z.div.
  destruct (Z.div_eucl (Zpos M1 * 2 ^ 53) (Zpos M2)) as [q r].
  eexists. reflexivity.
Qed.

Lemma div_approx M1 E1 M2 E2 :
  2 ^ 52 <= Zpos M1 < 2 ^ 53 -> 2 ^ 52 <= Zpos M2 < 2 ^ 53 ->
  -1020 <= E1 - E2 <= 1020 ->
  exists M E,
    F64.div (S754_finite false M1 E1) (S754_finite false M2 E2)
    = S754_finite false M E
    /\ 2 ^ 52 <= Zpos M < 2 ^ 53
    /\ E1 - E2 - 53 <= E <= E1 - E2 - 51
    /\ ((1 - eps) * (Qv (Zpos M1) E1 / Qv (Zpos M2) E2) <= Qv (Zpos M) E
        <= (1 + eps) * (Qv (Zpos M1) E1 / Qv (Zpos M2) E2))%Q.
Proof.
  intros HM1 HM2 HE. unfold F64.div, SFdiv, F64.prec, F64.emax. cbn [xorb].
  destruct (SFdiv_core_normal M1 E1 M2 E2 HM1 HM2 ltac:(lia)) as [l Hcore].
  rewrite Hcore.
  set (q := Zpos M1 * 2 ^ 53 / Zpos M2).
  assert (H53 : 2 ^ 53 = 2 * 2 ^ 52) by reflexivity.
  assert (H54 : 2 ^ 54 = 4 * 2 ^ 52) by reflexivity.
  assert (Hp : 0 < 2 ^ 52) by pow2.
  assert (Hq : 2 ^ 52 <= q < 2 ^ 54).
  { unfold q. split.
    - apply Z.div_le_lower_bound; [lia|]. nia.
    - apply Z.div_lt_upper_bound; [lia|]. nia. }
  assert (Hqm : q * Zpos M2 <= Zpos M1 * 2 ^ 53 < (q + 1) * Zpos M2).
  { unfold q. pose proof (Z.mul_div_le (Zpos M1 * 2 ^ 53) (Zpos M2) ltac:(lia)).
    pose proof (Z.mul_succ_div_gt (Zpos M1 * 2 ^ 53) (Zpos M2) ltac:(lia)). lia. }
  assert (Hdq : 53 <= Zdigits2 q <= 54).
  { split.
    - apply (Zdigits2_lower q 52); lia.
    - apply Zdigits2_upper; lia. }
  clearbody q.
  pose proof (Qv_pos (Zpos M2) E2 ltac:(lia)) as HBpos.
  assert (HA : (Qv (Zpos M1) E1 == Qv (Zpos M1 * 2 ^ 53) (E1 - E2 - 53 + E2))%Q).
  { rewrite Qv_shift by lia. replace (E1 - E2 - 53 + E2 + 53) with E1 by lia. reflexivity. }
  destruct (bra_approx q (E1 - E2 - 53) l (Qv (Zpos M1) E1 / Qv (Zpos M2) E2)%Q)
    as (M & E & Hbra & HM & HE' & Hv); try lia.
  - split.
    + apply Qle_shift_div_l; [exact HBpos|].
      rewrite Qv_mul, HA. apply Qv_le. lia.
    + apply Qle_shift_div_r; [exact HBpos|].
      rewrite Qv_mul, HA. apply Qv_le. lia.
  - exists M, E. split; [exact Hbra|]. split; [exact HM|]. split; [lia|exact Hv].
Qed.

(* ================================================================== *)
(** * The aggregation *)

Lemma float_of_int_zero : float_of_int 0 = Ok (S754_zero false).
Proof. reflexivity. Qed.

Lemma float_of_int_normal n :
  0 < n < 2 ^ 1000 ->
  exists M E,
    F64.of_Z n = S754_finite false M E
    /\ float_of_int n = Ok (S754_finite false M E)
    /\ 2 ^ 52 <= Zpos M < 2 ^ 53
    /\ -52 <= E <= 948
    /\ ((1 - eps) * inject_Z n <= Qv (Zpos M) E <= (1 + eps) * inject_Z n)%Q.
Proof.
  intros Hn. destruct (of_Z_approx n Hn) as (M & E & Hof & HM & HE & Hv).
  exists M, E. split; [exact Hof|]. split; [|tauto].
  unfold float_of_int. rewrite Hof. reflexivity.
Qed.

Lemma inject_Z_pos n : 0 < n -> (0 < inject_Z n)%Q.
Proof. intros H. change 0%Q with (inject_Z 0). rewrite <- Zlt_Qlt. exact H. Qed.

(** The numerator [wins + 0.5 * ties]: zero when both counters are zero,
    and otherwise a normal float within three roundings of the exact
    value. *)
Lemma numerator_approx w t :
  0 <= w < 2 ^ 1000 -> 0 <= t < 2 ^ 1000 ->
  exists tf wf,
    float_of_int t = Ok tf /\ float_of_int w = Ok wf
    /\ let num := F64.add wf (F64.mul F64.half tf) in
       let X := (inject_Z w + inject_Z t * (1 # 2))%Q in
       (num = S754_zero false /\ X == 0)%Q
       \/ exists M E,
           num = S754_finite false M E
           /\ 2 ^ 52 <= Zpos M < 2 ^ 53
           /\ -53 <= E <= 950
           /\ (0 < X)%Q
           /\ ((1 - eps) * (1 - eps) * (1 - eps) * X <= Qv (Zpos M) E
               <= (1 + eps) * (1 + eps) * (1 + eps) * X)%Q.
Proof.
  intros Hw Ht.
  destruct (Z.eq_dec t 0) as [->|Ht0]; destruct (Z.eq_dec w 0) as [->|Hw0].
  - exists (S754_zero false), (S754_zero false).
    repeat split. left. split; reflexivity.
  - destruct (float_of_int_normal w ltac:(lia)) as (M & E & _ & Hf & HM & HE & Hv).
    exists (S754_zero false), (S754_finite false M E).
    split; [reflexivity|]. split; [exact Hf|]. right.
    exists M, E. split; [reflexivity|]. split; [exact HM|]. split; [lia|].
    pose proof (inject_Z_pos w ltac:(lia)) as Hpos.
    change (inject_Z 0) with 0%Q. unfold eps in *.
    set (x := inject_Z w) in *. set (v := Qv (Zpos M) E) in *.
    split; [lra|]. split; lra.
  - destruct (float_of_int_normal t ltac:(lia)) as (M & E & _ & Hf & HM & HE & Hv).
    destruct (mul_half_approx M E HM ltac:(lia)) as (M' & E' & Hmul & HM' & HE' & Hv').
    exists (S754_finite false M E), (S754_zero false).
    split; [exact Hf|]. split; [reflexivity|]. right.
    exists M', E'. rewrite Hmul. split; [reflexivity|]. split; [exact HM'|].
    split; [lia|].
    pose proof (inject_Z_pos t ltac:(lia)) as Hpos.
    change (inject_Z 0) with 0%Q. unfold eps in *.
    set (x := inject_Z t) in *. set (v := Qv (Zpos M) E) in *.
    set (v' := Qv (Zpos M') E') in *.
    split; [lra|]. split; lra.
  - destruct (float_of_int_normal t ltac:(lia)) as (M & E & _ & Hf & HM & HE & Hv).
    destruct (mul_half_approx M E HM ltac:(lia)) as (M' & E' & Hmul & HM' & HE' & Hv').
    destruct (float_of_int_normal w ltac:(lia)) as (Mw & Ew & _ & Hfw & HMw & HEw & Hvw).
    destruct (add_approx Mw Ew M' E' HMw HM' ltac:(lia) ltac:(lia))
      as (Ms & Es & Hadd & HMs & HEs & Hvs).
    exists (S754_finite false M E), (S754_finite false Mw Ew).
    split; [exact Hf|]. split; [exact Hfw|]. right.
    exists Ms, Es. rewrite Hmul, Hadd. split; [reflexivity|]. split; [exact HMs|].
    split; [lia|].
    pose proof (inject_Z_pos t ltac:(lia)) as Hpos.
    pose proof (inject_Z_pos w ltac:(lia)) as Hposw.
    unfold eps in *.
    set (x := inject_Z t) in *. set (v := Qv (Zpos M) E) in *.
    set (v' := Qv (Zpos M') E') in *. set (y := inject_Z w) in *.
    set (vw := Qv (Zpos Mw) Ew) in *. set (vs := Qv (Zpos Ms) Es) in *.
    split; [lra|]. split; lra.
Qed.

(** One equity: a finite float within one rounding of a ratio [r] whose
    product with the rounded total is within three roundings of
    [wins + ties / 2]. *)
Lemma equity_approx w t T :
  0 <= w < 2 ^ 1000 -> 0 <= t < 2 ^ 1000 -> 0 < T < 2 ^ 1000 ->
  exists q r Md Ed,
    F64.of_Z T = S754_finite false Md Ed
    /\ equity w t T = Ok q
    /\ (q = S754_zero false
        \/ exists Mq Eq, q = S754_finite false Mq Eq
                         /\ 2 ^ 52 <= Zpos Mq < 2 ^ 53 /\ -1074 <= Eq <= 960)
    /\ (0 <= r)%Q
    /\ ((1 - eps) * r <= F64.to_Q q <= (1 + eps) * r)%Q
    /\ ((1 - eps) * (1 - eps) * (1 - eps) * (inject_Z w + inject_Z t * (1 # 2))
        <= r * Qv (Zpos Md) Ed
        <= (1 + eps) * (1 + eps) * (1 + eps) * (inject_Z w + inject_Z t * (1 # 2)))%Q.
Proof.
  intros Hw Ht HT.
  destruct (numerator_approx w t Hw Ht) as (tf & wf & Htf & Hwf & Hnum).
  destruct (float_of_int_normal T HT) as (Md & Ed & Hof & Hd & HMd & HEd & _).
  cbv zeta in Hnum. unfold equity. rewrite Htf. cbn [bind]. rewrite Hwf. cbn [bind].
  rewrite Hd. cbn [bind]. cbv zeta.
  destruct Hnum as [[Hn HX]|(M & E & Hn & HM & HE & HX & Hv)]; rewrite Hn.
  - exists (S754_zero false), 0%Q, Md, Ed.
    split; [exact Hof|]. split; [reflexivity|]. split; [left; reflexivity|].
    simpl F64.to_Q. rewrite HX. unfold eps. repeat split; lra.
  - destruct (div_approx M E Md Ed HM HMd ltac:(lia)) as (Mq & Eq & Hdiv & HMq & HEq & Hq).
    pose proof (Qv_pos (Zpos Md) Ed ltac:(lia)) as Hdpos.
    pose proof (Qv_pos (Zpos M) E ltac:(lia)) as Hnpos.
    exists (S754_finite false Mq Eq), (Qv (Zpos M) E / Qv (Zpos Md) Ed)%Q, Md, Ed.
    split; [exact Hof|]. split; [rewrite Hdiv; reflexivity|].
    split; [right; exists Mq, Eq; repeat split; lia|].
    split.
    { apply Qle_shift_div_l; [exact Hdpos | lra]. }
    split; [exact Hq|].
    assert (Hr : (Qv (Zpos M) E / Qv (Zpos Md) Ed * Qv (Zpos Md) Ed == Qv (Zpos M) E)%Q).
    { field. lra. }
    rewrite Hr. exact Hv.
Qed.

Lemma Qmult_pos_cancel (c T : Q) : (0 < T -> 0 <= c * T -> 0 <= c)%Q.
Proof.
  intros HT H. destruct (Qlt_le_dec c 0) as [Hc|Hc]; [|exact Hc].
  assert (0 < (- c) * T)%Q by (apply Qmult_lt_0_compat; lra). lra.
Qed.

(** Two equities over the same total add up to 1 within 10^-12. *)
Lemma sum_bound (q1 q2 r1 r2 d T X1 X2 : Q) :
  (0 < T -> X1 + X2 == T ->
   0 <= r1 -> 0 <= r2 ->
   (1 - eps) * T <= d <= (1 + eps) * T ->
   (1 - eps) * (1 - eps) * (1 - eps) * X1 <= r1 * d
     <= (1 + eps) * (1 + eps) * (1 + eps) * X1 ->
   (1 - eps) * (1 - eps) * (1 - eps) * X2 <= r2 * d
     <= (1 + eps) * (1 + eps) * (1 + eps) * X2 ->
   (1 - eps) * r1 <= q1 <= (1 + eps) * r1 ->
   (1 - eps) * r2 <= q2 <= (1 + eps) * r2 ->
   Qabs (q1 + q2 - 1) <= 1 # 1000000000000)%Q.
Proof.
  intros HT HX Hr1 Hr2 Hd H1 H2 Hq1 Hq2.
  set (r := (r1 + r2)%Q).
  assert (Hr : (0 <= r)%Q) by (unfold r; lra).
  assert (Hrd : ((1 - eps) * (1 - eps) * (1 - eps) * T <= r * d
                 <= (1 + eps) * (1 + eps) * (1 + eps) * T)%Q).
  { unfold r. rewrite <- HX. split; lra. }
  assert (Hlo : (0 <= r * (d - (1 - eps) * T))%Q) by (apply Qmult_le_0_compat; lra).
  assert (Hhi : (0 <= r * ((1 + eps) * T - d))%Q) by (apply Qmult_le_0_compat; lra).
  assert (Hup : (0 <= (1 + eps) * (1 + eps) * (1 + eps) - r * (1 - eps))%Q).
  { apply (Qmult_pos_cancel _ T HT). lra. }
  assert (Hdn : (0 <= r * (1 + eps) - (1 - eps) * (1 - eps) * (1 - eps))%Q).
  { apply (Qmult_pos_cancel _ T HT). lra. }
  apply Qabs_Qle_condition. unfold r, eps in *. split; lra.
Qed.

(** The float sum of two such equities is finite and within 10^-9 of 1. *)
Lemma float_sum_bound (q1 q2 : float) :
  (q1 = S754_zero false
   \/ exists M E, q1 = S754_finite false M E
                  /\ 2 ^ 52 <= Zpos M < 2 ^ 53 /\ -1074 <= E <= 960) ->
  (q2 = S754_zero false
   \/ exists M E, q2 = S754_finite false M E
                  /\ 2 ^ 52 <= Zpos M < 2 ^ 53 /\ -1074 <= E <= 960) ->
  (Qabs (F64.to_Q q1 + F64.to_Q q2 - 1) <= 1 # 1000000000000)%Q ->
  F64.is_finite (F64.add q1 q2) = true
  /\ (Qabs (F64.to_Q (F64.add q1 q2) - 1) <= 1 # 1000000000)%Q.
Proof.
  intros H1 H2 Hb. apply Qabs_Qle_condition in Hb.
  destruct H1 as [->|(M1 & E1 & -> & HM1 & HE1)];
    destruct H2 as [->|(M2 & E2 & -> & HM2 & HE2)].
  - split; [reflexivity|]. simpl in *. apply Qabs_Qle_condition. lra.
  - split; [reflexivity|]. cbn [F64.add SFadd] in *. simpl F64.to_Q in *.
    apply Qabs_Qle_condition. lra.
  - split; [reflexivity|]. cbn [F64.add SFadd] in *. simpl F64.to_Q in *.
    apply Qabs_Qle_condition. lra.
  - destruct (add_approx M1 E1 M2 E2 HM1 HM2 ltac:(lia) ltac:(lia))
      as (M & E & -> & _ & _ & Hv).
    split; [reflexivity|]. simpl F64.to_Q in *.
    fold (Qv (Zpos M1) E1) in Hb. fold (Qv (Zpos M2) E2) in Hb. fold (Qv (Zpos M) E).
    set (a := Qv (Zpos M1) E1) in *. set (b := Qv (Zpos M2) E2) in *.
    set (c := Qv (Zpos M) E) in *.
    apply Qabs_Qle_condition. unfold eps in *. split; lra.
Qed.

Section Aggregation.

Context {R : RandomGen} {E : Eval7}.

Lemma showdown_counters hero vill board c rng :
  let c' := fst (showdown hero vill board c rng) in
  h_w c <= h_w c' /\ v_w c <= v_w c' /\ ties c <= ties c'
  /\ total c' = total c + 1.
Proof.
  unfold showdown. destruct (deal_remaining _ _ rng) as [draw rng1].
  destruct (_ >? _); [|destruct (_ >? _)]; unfold total; simpl; lia.
Qed.

Lemma trial_counters hs vs board c rng c' rng' :
  trial hs vs board (c, rng) = Ok (c', rng') ->
  h_w c <= h_w c' /\ v_w c <= v_w c' /\ ties c <= ties c'
  /\ total c <= total c' <= total c + 1.
Proof.
  unfold trial.
  destruct (sample hs rng board) as [[hero rng1]|]; [|discriminate]. cbn [bind].
  destruct (sample vs rng1 _) as [[vill rng2]|]; [|discriminate]. cbn [bind].
  assert (Hs : forall v r,
             Ok (showdown hero v board c r) = Ok (c', rng') ->
             h_w c <= h_w c' /\ v_w c <= v_w c' /\ ties c <= ties c'
             /\ total c <= total c' <= total c + 1).
  { intros v r [= H]. pose proof (showdown_counters hero v board c r) as Hc.
    rewrite H in Hc. simpl in Hc. lia. }
  destruct (collided hero vill board); [|apply Hs].
  destruct (sample vs rng2 _) as [[vill' rng3]|]; [|discriminate]. cbn [bind].
  destruct (collided hero vill' board); [|apply Hs].
  intros [= <- _]. lia.
Qed.

Lemma run_trials_counters hs vs board n : forall c rng c' rng',
  run_trials hs vs board n (c, rng) = Ok (c', rng') ->
  h_w c <= h_w c' /\ v_w c <= v_w c' /\ ties c <= ties c'
  /\ total c' <= total c + Z.of_nat n.
Proof.
  induction n as [|n IH]; intros c rng c' rng' H.
  - injection H as <- _. lia.
  - cbn [run_trials] in H.
    destruct (trial hs vs board (c, rng)) as [[c1 rng1]|] eqn:Ht; [|discriminate].
    cbn [bind] in H. apply trial_counters in Ht. apply IH in H. lia.
Qed.

(** What a successful call went through. *)
Lemma equity_hu_inv hero_src vill_src board iters seed entropy res :
  equity_hu hero_src vill_src board iters seed entropy = Ok res ->
  exists hs vs c rng',
    sampler_of hero_src = Ok hs /\ sampler_of vill_src = Ok vs
    /\ board_len_ok (board_or_empty board) = true
    /\ run_trials hs vs (board_or_empty board) (Z.to_nat iters)
                  (Counters 0 0 0, Random seed entropy) = Ok (c, rng')
    /\ finalize c = Ok res.
Proof.
  unfold equity_hu.
  destruct (sampler_of hero_src) as [hs|]; [|discriminate]. cbn [bind].
  destruct (sampler_of vill_src) as [vs|]; [|discriminate]. cbn [bind]. cbv zeta.
  destruct (board_len_ok (board_or_empty board)); [|discriminate]. cbn [negb].
  destruct (run_trials _ _ _ _ _) as [[c rng']|] eqn:Hrun; [|discriminate].
  cbn [bind]. intros H. exists hs, vs, c, rng'. repeat split; assumption.
Qed.

(** The statements after the loop, for counters a run can produce. *)
Lemma finalize_success c :
  0 <= h_w c -> 0 <= v_w c -> 0 <= ties c -> 0 < total c < 2 ^ 1000 ->
  exists hero_eq vill_eq,
    equity (h_w c) (ties c) (total c) = Ok hero_eq
    /\ equity (v_w c) (ties c) (total c) = Ok vill_eq
    /\ finalize c = Ok {| hero_equity := hero_eq; villain_equity := vill_eq;
                          hero_wins := h_w c; villain_wins := v_w c;
                          res_ties := ties c; res_iters := total c |}
    /\ F64.is_finite hero_eq = true /\ F64.is_finite vill_eq = true
    /\ (Qabs (F64.to_Q hero_eq + F64.to_Q vill_eq - 1) <= 1 # 1000000000)%Q
    /\ F64.is_finite (F64.add hero_eq vill_eq) = true
    /\ (Qabs (F64.to_Q (F64.add hero_eq vill_eq) - 1) <= 1 # 1000000000)%Q.
Proof.
  intros Hh Hv Ht HT. unfold total in HT.
  destruct (equity_approx (h_w c) (ties c) (total c))
    as (q1 & r1 & Md & Ed & Hof1 & He1 & Hf1 & Hr1 & Hq1 & Hn1); try (unfold total; lia).
  destruct (equity_approx (v_w c) (ties c) (total c))
    as (q2 & r2 & Md' & Ed' & Hof2 & He2 & Hf2 & Hr2 & Hq2 & Hn2); try (unfold total; lia).
  rewrite Hof1 in Hof2. injection Hof2 as <- <-.
  destruct (float_of_int_normal (total c) ltac:(unfold total; lia))
    as (Md' & Ed' & Hof & _ & _ & _ & Hd).
  rewrite Hof1 in Hof. injection Hof as <- <-.
  exists q1, q2. split; [exact He1|]. split; [exact He2|]. split.
  - unfold finalize. fold (total c).
    destruct (Z.eqb_spec (total c) 0) as [H0|_]; [unfold total in H0; lia|].
    rewrite He1. cbn [bind]. rewrite He2. reflexivity.
  - assert (Hb : (Qabs (F64.to_Q q1 + F64.to_Q q2 - 1) <= 1 # 1000000000000)%Q).
    { apply (sum_bound _ _ r1 r2 (Qv (Zpos Md) Ed) (inject_Z (total c))
                       (inject_Z (h_w c) + inject_Z (ties c) * (1 # 2))
                       (inject_Z (v_w c) + inject_Z (ties c) * (1 # 2)));
        try assumption.
      - apply inject_Z_pos. unfold total. lia.
      - unfold total. rewrite !inject_Z_plus. ring. }
    destruct (float_sum_bound q1 q2 Hf1 Hf2 Hb) as [Hfs Hbs].
    split; [destruct Hf1 as [->|(? & ? & -> & _)]; reflexivity|].
    split; [destruct Hf2 as [->|(? & ? & -> & _)]; reflexivity|].
    split; [|split; assumption].
    eapply Qle_trans; [exact Hb|]. unfold Qle. simpl. lia.
Qed.

(** C1.  For a call of fewer than 2^1000 trials that returns a result,
    the two equities of the result are the floats computed from its
    counters as [(wins + 0.5 * ties) / iters], both are finite, and they
    add up to 1 within 10^-9, whether their values are added exactly or
    the two floats are added in binary64. *)
Theorem equities_sum_to_one
        (hero_src vill_src : source) (board : option Board)
        (iters : Z) (seed : option Z) (entropy : rng_state) (res : EquityResult) :
  iters < 2 ^ 1000 ->
  equity_hu hero_src vill_src board iters seed entropy = Ok res ->
  0 < res_iters res
  /\ equity (hero_wins res) (res_ties res) (res_iters res) = Ok (hero_equity res)
  /\ equity (villain_wins res) (res_ties res) (res_iters res) = Ok (villain_equity res)
  /\ F64.is_finite (hero_equity res) = true
  /\ F64.is_finite (villain_equity res) = true
  /\ (Qabs (F64.to_Q (hero_equity res) + F64.to_Q (villain_equity res) - 1)
      <= 1 # 1000000000)%Q
  /\ F64.is_finite (F64.add (hero_equity res) (villain_equity res)) = true
  /\ (Qabs (F64.to_Q (F64.add (hero_equity res) (villain_equity res)) - 1)
      <= 1 # 1000000000)%Q.
Proof.
  intros Hit H. apply equity_hu_inv in H.
  destruct H as (hs & vs & c & rng' & _ & _ & _ & Hrun & Hfin).
  apply run_trials_counters in Hrun. unfold total in Hrun. simpl in Hrun.
  assert (Hnz : total c <> 0).
  { unfold finalize in Hfin. fold (total c) in Hfin.
    destruct (Z.eqb_spec (total c) 0); [discriminate | assumption]. }
  assert (Hlt : 0 < total c < 2 ^ 1000) by (unfold total in *; lia).
  destruct (finalize_success c)
    as (he & ve & He & Hv & Hf & Hfh & Hfv & Hb & Hfs & Hbs); try lia.
  rewrite Hf in Hfin. injection Hfin as <-. simpl. tauto.
Qed.

(** C8.  After the loop of a call of fewer than 2^1000 trials: when no
    trial completed the call raises the zero-completed-trials error, and
    otherwise it returns a result whose [iters] is the number of
    completed trials, the sum of its three counters. *)
Theorem zero_trials_or_result
        (hero_src vill_src : source) (board : option Board)
        (iters : Z) (seed : option Z) (entropy : rng_state)
        (hs vs : Sampler) (c : counters) (rng' : rng_state) :
  iters < 2 ^ 1000 ->
  sampler_of hero_src = Ok hs ->
  sampler_of vill_src = Ok vs ->
  board_len_ok (board_or_empty board) = true ->
  run_trials hs vs (board_or_empty board) (Z.to_nat iters)
             (Counters 0 0 0, Random seed entropy) = Ok (c, rng') ->
  (h_w c + v_w c + ties c = 0 ->
   equity_hu hero_src vill_src board iters seed entropy = Err ZeroCompletedTrials)
  /\ (h_w c + v_w c + ties c <> 0 ->
      exists res,
        equity_hu hero_src vill_src board iters seed entropy = Ok res
        /\ hero_wins res = h_w c /\ villain_wins res = v_w c /\ res_ties res = ties c
        /\ res_iters res = h_w c + v_w c + ties c
        /\ res_iters res = hero_wins res + villain_wins res + res_ties res).
Proof.
  intros Hit Hhs Hvs Hb Hrun.
  assert (Heq : equity_hu hero_src vill_src board iters seed entropy = finalize c).
  { unfold equity_hu. rewrite Hhs, Hvs. cbn [bind]. cbv zeta. rewrite Hb. cbn [negb].
    rewrite Hrun. reflexivity. }
  rewrite Heq. apply run_trials_counters in Hrun. unfold total in Hrun. simpl in Hrun.
  split.
  - intros H0. unfold finalize. rewrite H0. reflexivity.
  - intros Hnz.
    destruct (finalize_success c) as (he & ve & _ & _ & Hf & _); try (unfold total; lia).
    eexists. split; [exact Hf|]. repeat split.
Qed.

End Aggregation.

(** Why the number of trials is bounded in the two statements above:
    with counters next to the largest float, about 1.8e308 trials and
    beyond the reach of any run, the sum [wins + 0.5 * ties] rounds to
    infinity although the total still converts to a float. *)
Example numerator_overflow_near_max_float :
  let c := Counters (2 ^ 1024 - 2 ^ 971 - 2 ^ 970 + 1) 0 (2 ^ 971 - 2 ^ 917) in
  exists res,
    finalize c = Ok res /\ hero_equity res = S754_infinity false.
Proof. eexists. split; vm_compute; reflexivity. Qed.

Lemma equities_sum_to_one_witness :
  exists res,
    equity_hu (R := lcg) (E := toy) (txt "AsKs") (txt "AhKh") None 3 None 4 = Ok res
    /\ (Qabs (F64.to_Q (hero_equity res) + F64.to_Q (villain_equity res) - 1)
        <= 1 # 1000000000)%Q.
Proof.
  eexists. split; [vm_compute; reflexivity|].
  apply (equities_sum_to_one (R := lcg) (E := toy)
           (txt "AsKs") (txt "AhKh") None 3 None 4 _ ltac:(lia)).
  vm_compute. reflexivity.
Defined.

Lemma zero_trials_or_result_witness :
  equity_hu (R := lcg) (E := toy) (txt "AsAs") (txt "KsKc") None 20 (Some 1) 0
  = Err ZeroCompletedTrials
  /\ exists res,
      equity_hu (R := lcg) (E := toy) (txt "AsKs") (txt "AhKh") None 3 None 4 = Ok res
      /\ res_iters res = 1 + 1 + 1.
Proof.
  split.
  - apply (proj1 (zero_trials_or_result (R := lcg) (E := toy)
                    (txt "AsAs") (txt "KsKc") None 20 (Some 1) 0
                    (FixedHand (PyStr.of_string "AsAs") (As, As))
                    (FixedHand (PyStr.of_string "KsKc") (Ks, Kc))
                    (Counters 0 0 0) 1
                    ltac:(lia) eq_refl eq_refl eq_refl ltac:(vm_compute; reflexivity)));
      reflexivity.
  - destruct (proj2 (zero_trials_or_result (R := lcg) (E := toy)
                    (txt "AsKs") (txt "AhKh") None 3 None 4
                    (FixedHand (PyStr.of_string "AsKs") (As, Ks))
                    (FixedHand (PyStr.of_string "AhKh") (Ah, Kh))
                    (Counters 1 1 1) 7124183409783147988
                    ltac:(lia) eq_refl eq_refl eq_refl ltac:(vm_compute; reflexivity))
                    ltac:(discriminate)) as (res & Hres & _ & _ & _ & Hit & _).
    exists res. split; assumption.
Defined.

(* ================================================================== *)
(** * Runs on the concrete instances *)

(** The same fixed hand on both sides: the villain draw is blocked by the
    hero cards and the call raises. *)
Example same_fixed_hand_raises :
  equity_hu (R := lcg) (E := toy) (txt "7h2d") (txt "7h2d") None 1000 (Some 1) 0
  = Err FixedHandCollides.
Proof. reflexivity. Qed.

(** A range whose only combo is on the board has no live combo. *)
Example blocked_range_raises :
  equity_hu (R := lcg) (E := toy) (txt "AsKs+") (txt "QhQd")
            (Some [As; Ks; Card R2 Clubs]) 1000 (Some 1) 0
  = Err NoLiveCombos.
Proof. reflexivity. Qed.

(** A board of two cards is refused. *)
Example short_board_raises :
  equity_hu (R := lcg) (E := toy) (txt "AsKs") (txt "QhQd")
            (Some [Ah; Kh]) 1000 (Some 1) 0
  = Err BoardLength.
Proof. reflexivity. Qed.

(** Two fixed hands on a flop: every trial completes. *)
Example flop_run_completes_every_trial :
  exists res,
    equity_hu (R := lcg) (E := toy) (txt "AsKs") (txt "QhQd")
              (Some [Card R2 Clubs; Card R7 Diamonds; Card R9 Hearts]) 40 (Some 7) 0
    = Ok res
    /\ res_iters res = 40
    /\ hero_wins res + villain_wins res + res_ties res = 40.
Proof. eexists. split; [vm_compute; reflexivity|]. split; reflexivity. Qed.

(* ================================================================== *)
(** * Board text and card text *)

Lemma chunks2_length_aux (n : nat) : forall s,
  (length s <= n)%nat -> Nat.even (length s) = true ->
  (2 * length (chunks2 s) = length s)%nat.
Proof.
  induction n as [|n IH]; intros s Hn He.
  - destruct s; [reflexivity | simpl in Hn; lia].
  - destruct s as [|a [|b rest]]; [reflexivity | discriminate |].
    cbn [chunks2 length] in *. rewrite <- (IH rest); [lia | lia | exact He].
Qed.

Lemma chunks2_length s :
  Nat.even (length s) = true -> (2 * length (chunks2 s) = length s)%nat.
Proof. apply (chunks2_length_aux (length s)). lia. Qed.

Lemma lstrip_solid s :
  (forall ch, In ch s -> PyStr.isspace ch = false) -> PyStr.lstrip s = s.
Proof.
  destruct s as [|c s]; [reflexivity|]. intros H. simpl.
  rewrite (H c); [reflexivity | now left].
Qed.

Lemma strip_solid s :
  (forall ch, In ch s -> PyStr.isspace ch = false) -> PyStr.strip s = s.
Proof.
  intros H. unfold PyStr.strip, PyStr.rstrip.
  rewrite (lstrip_solid s H), lstrip_solid, rev_involutive; [reflexivity|].
  intros ch Hin. apply H, in_rev, Hin.
Qed.

Section BoardText.

Context {R : RandomGen} {E : Eval7}.

Lemma parse_codes_length codes : forall cards,
  parse_codes codes = Some cards -> length cards = length codes.
Proof.
  induction codes as [|code codes IH]; intros cards; simpl.
  - intros [= <-]. reflexivity.
  - destruct (eval7_Card code); [|discriminate].
    destruct (parse_codes codes) as [cs|]; [|discriminate].
    intros [= <-]. simpl. f_equal. apply IH. reflexivity.
Qed.

Lemma board_len_ok_street board :
  board_len_ok board = true -> street_name (len board) <> None.
Proof.
  unfold board_len_ok, street_name.
  destruct (len board =? 0); [discriminate|].
  destruct (len board =? 3); [discriminate|].
  destruct (len board =? 4); [discriminate|].
  destruct (len board =? 5); discriminate.
Qed.

(** A board text that parses gives 0, 3, 4 or 5 cards, two characters
    of the stripped text for each card: a board [equity_hu] accepts and
    a street the street endpoint can name. *)
Theorem parse_board_accepted (s : str) (cards : Board) :
  parse_board s = inr cards ->
  board_len_ok cards = true
  /\ street_name (len cards) <> None
  /\ 2 * len cards = PyStr.len (PyStr.strip s)
  /\ parse_codes (chunks2 (PyStr.strip s)) = Some cards.
Proof.
  unfold parse_board. destruct (PyStr.strip s) as [|a rest] eqn:Hs.
  - intros [= <-]. repeat split; discriminate.
  - destruct (Z.eqb_spec (PyStr.len (a :: rest) mod 2) 0) as [Hev|]; [|discriminate].
    cbn [negb].
    destruct (parse_codes (chunks2 (a :: rest))) as [cs|] eqn:Hp; [|discriminate].
    destruct (board_len_ok cs) eqn:Hok; [|discriminate]. cbn [negb].
    intros [= <-]. split; [exact Hok|]. split; [apply board_len_ok_street, Hok|].
    split; [|reflexivity].
    apply parse_codes_length in Hp. unfold len, PyStr.len in *.
    assert (He : Nat.even (length (a :: rest)) = true).
    { rewrite <- Nat.negb_odd, negb_true_iff.
      destruct (Nat.odd (length (a :: rest))) eqn:Ho; [|reflexivity].
      apply Nat.odd_spec in Ho. destruct Ho as [k Hk]. rewrite Hk in Hev.
      rewrite Nat2Z.inj_add, Nat2Z.inj_mul in Hev. simpl Z.of_nat in Hev.
      rewrite Z.add_comm, Z.mul_comm, Z.mod_add in Hev by lia. discriminate. }
    pose proof (chunks2_length _ He). lia.
Qed.

(** A board text of odd length, once stripped, is refused for its
    length before any of its characters is read as a card. *)
Theorem parse_board_odd_length (s : str) :
  PyStr.len (PyStr.strip s) mod 2 = 1 ->
  parse_board s = inl BoardStringOdd.
Proof.
  unfold parse_board. intros H. destruct (PyStr.strip s) as [|a rest].
  - discriminate.
  - rewrite H. reflexivity.
Qed.

(** What the street endpoint answers.  The lookup of the street name
    never raises; a 200 response means that the board text parsed, that
    the engine returned the result carried, on that board, and that the
    street named is the one of the board's card count. *)
Theorem street_endpoint_outcome
        (hero villain board_str : str) (iters : Z) (seed : option Z)
        (entropy : rng_state) :
  api_equity_street hero villain board_str iters seed entropy
  <> inl StreetKeyError
  /\ forall ok,
      api_equity_street hero villain board_str iters seed entropy = inr ok ->
      exists board,
        parse_board board_str = inr board
        /\ equity_hu (SrcText hero) (SrcText villain) (Some board)
                     iters seed entropy = Ok (ok_result ok)
        /\ street_name (len board) = Some (ok_street ok)
        /\ ok_iters ok = iters /\ ok_seed ok = seed.
Proof.
  unfold api_equity_street.
  destruct (parse_board board_str) as [e|board] eqn:Hp.
  - split; [discriminate|]. discriminate.
  - destruct (equity_hu _ _ _ _ _ _) as [res|e] eqn:Hr.
    + apply parse_board_accepted in Hp. destruct Hp as (_ & Hst & _).
      destruct (street_name (len board)) as [st|] eqn:Hs; [|contradiction].
      split; [discriminate|]. intros ok [= <-]. exists board. cbn.
      repeat split; assumption.
    + split; discriminate.
Qed.

(** The preflop endpoint answers what the street endpoint answers for an
    empty board text, 100000 trials and seed 40, whatever state the
    environment would supply: same error, or same street and result. *)
Theorem preflop_is_street_at_empty_board
        (hero villain : str) (entropy entropy' : rng_state) :
  match api_equity_preflop hero villain entropy,
        api_equity_street hero villain [] 100000 (Some 40) entropy' with
  | inr a, inr b =>
      ok_street a = ok_street b /\ ok_result a = ok_result b
      /\ ok_iters a = ok_iters b /\ ok_seed a = ok_seed b
  | inl e, inl e' => e = e'
  | _, _ => False
  end.
Proof.
  unfold api_equity_preflop, api_equity_street. cbv zeta.
  change (parse_board []) with (@inr board_error Board []).
  cbn iota.
  set (a := equity_hu _ _ _ _ _ entropy).
  set (b := equity_hu _ _ _ _ _ entropy').
  assert (Hab : b = a) by reflexivity.
  rewrite Hab. destruct a as [res|e]; cbn; [|reflexivity].
  repeat split.
Qed.

End BoardText.

Section CardCodec.

Context {E : Eval7} {P : Eval7Str} {C : Eval7Codec E P}.

Lemma cards_to_str_solid cards ch :
  In ch (cards_to_str cards) -> PyStr.isspace ch = false.
Proof.
  unfold cards_to_str. intros H. apply in_concat in H.
  destruct H as [code [Hc Hin]]. apply in_map_iff in Hc.
  destruct Hc as [c [<- _]]. eapply code_solid, Hin.
Qed.

Lemma chunks2_cards_to_str cards :
  chunks2 (cards_to_str cards) = map eval7_str cards.
Proof.
  unfold cards_to_str. induction cards as [|c cards IH]; [reflexivity|].
  cbn [map concat]. pose proof (code_length c) as Hl.
  destruct (eval7_str c) as [|a [|b [|x rest]]]; try discriminate.
  cbn [app chunks2]. rewrite IH. reflexivity.
Qed.

Lemma parse_codes_printed cards :
  parse_codes (map eval7_str cards) = Some cards.
Proof.
  induction cards as [|c cards IH]; [reflexivity|].
  cbn [map parse_codes]. rewrite code_parses, IH. reflexivity.
Qed.

Lemma cards_to_str_length cards :
  length (cards_to_str cards) = (2 * length cards)%nat.
Proof.
  unfold cards_to_str. induction cards as [|c cards IH]; [reflexivity|].
  cbn [map concat]. rewrite length_app, code_length, IH. simpl. lia.
Qed.

(** Printing and parsing are inverse: the text of a two-card hand parses
    back to the hand, and the text of a board of 0, 3, 4 or 5 cards
    parses back to the board. *)
Theorem print_then_parse (c1 c2 : card) (board : Board) :
  parse_two_card_hand (cards_to_str [c1; c2]) = Ok (c1, c2)
  /\ (board_len_ok board = true ->
      parse_board (cards_to_str board) = inr board).
Proof.
  split.
  - unfold parse_two_card_hand.
    rewrite (strip_solid _ (cards_to_str_solid [c1; c2])).
    pose proof (cards_to_str_length [c1; c2]) as Hl.
    unfold PyStr.len. rewrite Hl. cbn [length Nat.mul Nat.add Z.of_nat].
    cbn [Z.eqb Pos.eqb negb Pos.of_succ_nat Pos.succ].
    unfold cards_to_str, PyStr.prefix, PyStr.suffix. cbn [map concat].
    pose proof (code_length c1) as H1. pose proof (code_length c2) as H2.
    pose proof (code_parses c1) as P1. pose proof (code_parses c2) as P2.
    destruct (eval7_str c1) as [|a1 [|b1 [|x1 r1]]]; try discriminate.
    destruct (eval7_str c2) as [|a2 [|b2 [|x2 r2]]]; try discriminate.
    cbn [app firstn skipn]. rewrite P1, P2. reflexivity.
  - intros Hok. unfold parse_board.
    rewrite (strip_solid _ (cards_to_str_solid board)).
    destruct (cards_to_str board) as [|a rest] eqn:Hs.
    + pose proof (cards_to_str_length board) as Hl. rewrite Hs in Hl.
      destruct board; [reflexivity | simpl in Hl; lia].
    + rewrite <- Hs. pose proof (cards_to_str_length board) as Hl.
      unfold PyStr.len. rewrite Hl.
      replace (Z.of_nat (2 * length board) mod 2) with 0
        by (rewrite Nat2Z.inj_mul, Z.mul_comm, Z.mod_mul; [reflexivity | lia]).
      cbn [Z.eqb negb].
      rewrite chunks2_cards_to_str, parse_codes_printed, Hok. reflexivity.
Qed.

End CardCodec.

#[export] Instance toy_codec : Eval7Codec toy toy_str.
Proof.
  constructor.
  - reflexivity.
  - intros [[] []] ch [<-|[<-|[]]]; reflexivity.
  - intros [[] []]; reflexivity.
Qed.

Lemma parse_board_accepted_witness :
  board_len_ok [Qh; Qd; As] = true
  /\ street_name (len [Qh; Qd; As]) <> None.
Proof.
  destruct (parse_board_accepted (E := toy) (PyStr.of_string " QhQdAs ")
              [Qh; Qd; As] eq_refl) as (H1 & H2 & _).
  split; assumption.
Defined.

Lemma parse_board_odd_length_witness :
  parse_board (E := toy) (PyStr.of_string "QhQdA") = inl BoardStringOdd.
Proof.
  apply (parse_board_odd_length (E := toy) (PyStr.of_string "QhQdA")).
  reflexivity.
Defined.

Lemma print_then_parse_witness :
  parse_board (E := toy) (cards_to_str (P := toy_str) [Qh; Qd; As])
  = inr [Qh; Qd; As].
Proof.
  apply (proj2 (print_then_parse (E := toy) (P := toy_str) As Ks [Qh; Qd; As])).
  reflexivity.
Defined.

Lemma street_endpoint_outcome_witness :
  exists board,
    parse_board (E := toy) (PyStr.of_string "2c7d9h") = inr board
    /\ street_name (len board) = Some "flop"%string.
Proof.
  destruct (api_equity_street (R := lcg) (E := toy)
              (PyStr.of_string "AsKs") (PyStr.of_string "QhQd")
              (PyStr.of_string "2c7d9h") 5 (Some 7) 0) as [e|ok] eqn:H;
    [vm_compute in H; discriminate|].
  destruct (proj2 (street_endpoint_outcome (R := lcg) (E := toy)
                     (PyStr.of_string "AsKs") (PyStr.of_string "QhQd")
                     (PyStr.of_string "2c7d9h") 5 (Some 7) 0) ok H)
    as (board & Hb & _ & Hs & _).
  exists board. split; [exact Hb|].
  rewrite Hs. vm_compute in H. injection H as <-. reflexivity.
Defined.

(* ================================================================== *)
(** * More on the sampler *)

Section SamplerMore.

Context {R : RandomGen} {E : Eval7}.

(** Whether [sample] raises, and what it raises, depends on the sampler
    and on the dead cards only, not on the state of the generator. *)
Theorem sample_raises_alike (self : Sampler) (dead : list card)
        (rng1 rng2 : rng_state) :
  match sample self rng1 dead, sample self rng2 dead with
  | Ok _, Ok _ => True
  | Err e1, Err e2 => e1 = e2
  | _, _ => False
  end.
Proof.
  destruct self as [text fixed | text hr].
  - unfold sample. destruct (existsb _ (cards_of fixed)); exact I || reflexivity.
  - rewrite !sample_range_eq.
    destruct (existsb is_unsupported hr); [reflexivity|].
    destruct (filter _ _); [reflexivity | exact I].
Qed.

Lemma entry_live_antitone dead dead' x :
  (forall c, In c dead -> In c dead') ->
  entry_live dead' x = true -> entry_live dead x = true.
Proof.
  destruct x as [[c1 c2] w]. rewrite !entry_live_spec. intros Hsub (H1 & H2 & H3).
  repeat split; auto.
Qed.

(** Dead cards only block: a sampler that can draw with a set of dead
    cards can draw with any smaller set. *)
Theorem fewer_dead_still_draws (self : Sampler) (dead dead' : list card)
        (rng rng' rng1 : rng_state) (combo' : Card2) :
  (forall c, In c dead -> In c dead') ->
  sample self rng' dead' = Ok (combo', rng1) ->
  exists combo rng2, sample self rng dead = Ok (combo, rng2).
Proof.
  intros Hsub. destruct self as [text fixed | text hr].
  - unfold sample.
    destruct (existsb (fun c => mem c dead') (cards_of fixed)) eqn:Hd';
      [discriminate|]. intros _.
    destruct (existsb (fun c => mem c dead) (cards_of fixed)) eqn:Hd; [|eauto].
    apply existsb_exists in Hd. destruct Hd as [c [Hc Hm]].
    assert (Ht : existsb (fun c => mem c dead') (cards_of fixed) = true).
    { apply existsb_exists. exists c. split; [exact Hc|].
      apply mem_In, Hsub, mem_In, Hm. }
    congruence.
  - rewrite !sample_range_eq.
    destruct (existsb is_unsupported hr); [discriminate|].
    destruct (filter (entry_live dead') _) as [|x rest] eqn:Hl'; [discriminate|].
    intros _.
    destruct (filter (entry_live dead) _) as [|y rest0] eqn:Hl; [|eauto].
    assert (Hx : In x (filter (entry_live dead) (flat_map entry_of hr))).
    { assert (Hin : In x (filter (entry_live dead') (flat_map entry_of hr)))
        by (rewrite Hl'; now left).
      apply filter_In in Hin. apply filter_In. split; [tauto|].
      eapply entry_live_antitone; [exact Hsub | tauto]. }
    rewrite Hl in Hx. destruct Hx.
Qed.

(** [sample] invents nothing: a fixed sampler returns its hand and leaves
    the generator as it was; a range sampler returns the combo of one of
    the elements of the range and draws once from the generator. *)
Theorem sample_returns_entry (self : Sampler) (rng rng' : rng_state)
        (dead : list card) (combo : Card2) :
  sample self rng dead = Ok (combo, rng') ->
  match self with
  | FixedHand _ fixed => combo = fixed /\ rng' = rng
  | HandRange _ hr =>
      (exists w, In (combo, w) (flat_map entry_of hr))
      /\ rng' = snd (rng_random rng)
  end.
Proof.
  destruct self as [text fixed | text hr].
  - unfold sample. destruct (existsb _ _); [discriminate|].
    intros [= <- <-]. split; reflexivity.
  - intros H. split.
    + apply sample_range_live in H. destruct H as [w H].
      exists w. apply filter_In in H. tauto.
    + rewrite sample_range_eq in H.
      destruct (existsb is_unsupported hr); [discriminate|].
      destruct (filter _ _); [discriminate|]. injection H as _ <-. reflexivity.
Qed.

(** When blockers leave one live combo, that combo is drawn whatever its
    weight (zero, negative, NaN) and whatever the generator returns. *)
Theorem single_live_combo_drawn (text : str) (hr : list hr_item)
        (dead : list card) (rng : rng_state) (x : Card2 * float) :
  build_live dead hr [] = Ok [x] ->
  sample (HandRange text hr) rng dead = Ok (fst x, snd (rng_random rng)).
Proof.
  intros H. unfold sample. rewrite H. cbn [bind].
  destruct (rng_random rng) as [u rng1]. cbn [snd]. f_equal. f_equal.
  unfold weighted_draw. destruct x as [c w]. cbn [walk map snd fst last].
  destruct (F64.leb _ _); reflexivity.
Qed.

(** Building the sampler of a text never raises the four-character
    error of [parse_two_card_hand]: a text taken as a fixed hand has
    four characters.  The only errors are an unknown card code in a
    fixed hand and a range text the range parser refuses. *)
Theorem text_sampler_errors (s : str) (e : error) :
  sampler_of (SrcText s) = Err e ->
  (e = InvalidCard /\ fixed_hand_text s)
  \/ (e = InvalidRange /\ ~ fixed_hand_text s).
Proof.
  unfold sampler_of, mk_Sampler.
  destruct (detect_is_range s) eqn:Hd.
  - destruct (eval7_HandRange s); [discriminate|]. intros [= <-]. right.
    split; [reflexivity|]. intros Hf. apply detect_is_range_false in Hf. congruence.
  - apply detect_is_range_false in Hd. unfold parse_two_card_hand.
    destruct Hd as [Hl Hdel]. unfold PyStr.len. rewrite Hl. cbn [Z.of_nat].
    cbn [Pos.of_succ_nat Pos.succ Z.eqb Pos.eqb negb].
    destruct (eval7_Card _); [destruct (eval7_Card _)|]; cbn [bind];
      try discriminate; intros [= <-]; left; (split; [reflexivity | split; assumption]).
Qed.

End SamplerMore.

Lemma fewer_dead_still_draws_witness :
  exists combo rng2, sample (R := lcg) two_even 5 [As] = Ok (combo, rng2).
Proof.
  apply (fewer_dead_still_draws (R := lcg) two_even [As] [As; Qh] 5 0
           (lcg_next 0) (Ah, Kh)).
  - intros c [<-|[]]. now left.
  - reflexivity.
Defined.

Lemma sample_returns_entry_witness :
  (exists w, In ((Ah, Kh), w)
               (flat_map entry_of [PairW As Ks F64.one; PairW Ah Kh F64.one]))
  /\ lcg_next 0 = snd (rng_random (RandomGen := lcg) 0).
Proof.
  apply (sample_returns_entry (R := lcg) two_even 0 (lcg_next 0) [As] (Ah, Kh)).
  reflexivity.
Defined.

Lemma single_live_combo_drawn_witness :
  sample (R := lcg) (HandRange (PyStr.of_string "AsKs,AhKh")
                       [PairW As Ks Demo.nan; PairW Ah Kh F64.one]) 9 [Kh]
  = Ok (fst ((As, Ks), Demo.nan), snd (rng_random (RandomGen := lcg) 9)).
Proof.
  apply (single_live_combo_drawn (R := lcg) (PyStr.of_string "AsKs,AhKh")
           [PairW As Ks Demo.nan; PairW Ah Kh F64.one] [Kh] 9 ((As, Ks), Demo.nan)).
  reflexivity.
Defined.

Lemma text_sampler_errors_witness :
  (InvalidCard = InvalidCard /\ fixed_hand_text (PyStr.of_string "AsKx"))
  \/ (InvalidCard = InvalidRange /\ ~ fixed_hand_text (PyStr.of_string "AsKx")).
Proof.
  apply (text_sampler_errors (E := toy) (PyStr.of_string "AsKx") InvalidCard).
  reflexivity.
Defined.

(* ================================================================== *)
(** * More on the deck and the trial loop *)

Lemma filter_split_length {A} (f : A -> bool) (l : list A) :
  (length (filter f l) + length (filter (fun x => negb (f x)) l) = length l)%nat.
Proof.
  induction l as [|x l IH]; [reflexivity|]. simpl.
  destruct (f x); simpl; lia.
Qed.

(** The deck without the dead cards has 52 cards less the number of
    distinct dead cards. *)
Lemma remaining_count (dead : list card) :
  len (remaining dead) = 52 - set_len dead.
Proof.
  unfold remaining, set_len, len.
  pose proof (filter_split_length (fun c => mem c dead) Deck) as Hsplit.
  rewrite Deck_length in Hsplit.
  assert (Hp : Permutation (filter (fun c => mem c dead) Deck)
                           (nodup card_eq_dec dead)).
  { apply NoDup_Permutation.
    - apply NoDup_filter, Deck_NoDup.
    - apply NoDup_nodup.
    - intros c. rewrite filter_In, nodup_In, mem_In.
      split; [tauto | intros H; split; [apply Deck_complete | exact H]]. }
  apply Permutation_length in Hp. lia.
Qed.

Lemma set_len_le (l : list card) : set_len l <= len l.
Proof. unfold set_len, len. pose proof (nodup_length_le l). lia. Qed.

Section LoopMore.

Context {R : RandomGen} {E : Eval7}.

Lemma sample_proper_distinct self rng dead combo rng' :
  proper self -> sample self rng dead = Ok (combo, rng') ->
  fst combo <> snd combo.
Proof.
  intros Hp H. destruct self as [text fixed | text hr].
  - unfold sample in H. destruct (existsb _ _); [discriminate|].
    injection H as <- _. exact Hp.
  - apply sample_range_live in H. destruct H as [w H].
    apply filter_In in H. destruct H as [_ H]. destruct combo as [c1 c2].
    apply entry_live_spec in H. simpl. tauto.
Qed.

Lemma sample_not_dead self rng dead combo rng' :
  sample self rng dead = Ok (combo, rng') ->
  ~ In (fst combo) dead /\ ~ In (snd combo) dead.
Proof.
  intros H. destruct self as [text fixed | text hr].
  - unfold sample in H.
    destruct (existsb (fun c => mem c dead) (cards_of fixed)) eqn:Hm; [discriminate|].
    injection H as <- _. cbn [cards_of existsb] in Hm.
    rewrite !orb_false_iff, !mem_false_In in Hm. tauto.
  - apply sample_range_live in H. destruct H as [w H].
    apply filter_In in H. destruct H as [_ H]. destruct combo as [c1 c2].
    apply entry_live_spec in H. simpl. tauto.
Qed.

(** With a board that repeats no card and samplers that cannot hold a
    card twice, the hands drawn never collide. *)
Lemma draws_do_not_collide hs vs board rng rng1 rng2 hero vill :
  NoDup board -> proper hs -> proper vs ->
  sample hs rng board = Ok (hero, rng1) ->
  sample vs rng1 (board ++ cards_of hero) = Ok (vill, rng2) ->
  collided hero vill board = false.
Proof.
  intros Hb Hph Hpv Hh Hv. apply collided_false_NoDup.
  pose proof (sample_proper_distinct _ _ _ _ _ Hph Hh) as Hhd.
  pose proof (sample_proper_distinct _ _ _ _ _ Hpv Hv) as Hvd.
  apply sample_not_dead in Hh. apply sample_not_dead in Hv.
  destruct hero as [h1 h2], vill as [v1 v2]. cbn [fst snd cards_of] in *.
  destruct Hh as [Hh1 Hh2]. destruct Hv as [Hv1 Hv2].
  unfold cards_of in *. cbn [fst snd app] in *.
  rewrite in_app_iff in Hv1, Hv2. cbn [In] in Hv1, Hv2.
  repeat constructor; cbn [In]; try assumption; intuition congruence.
Qed.

(** A trial that ends without an exception leaves the counters as they
    were or adds one to exactly one of them. *)
Theorem trial_counts_one_outcome hs vs board c rng c' rng' :
  trial hs vs board (c, rng) = Ok (c', rng') ->
  c' = c
  \/ c' = Counters (h_w c + 1) (v_w c) (ties c)
  \/ c' = Counters (h_w c) (v_w c + 1) (ties c)
  \/ c' = Counters (h_w c) (v_w c) (ties c + 1).
Proof.
  unfold trial.
  destruct (sample hs rng board) as [[hero rng1]|]; [|discriminate]. cbn [bind].
  destruct (sample vs rng1 _) as [[vill rng2]|]; [|discriminate]. cbn [bind].
  assert (Hs : forall v r,
             Ok (showdown hero v board c r) = Ok (c', rng') ->
             c' = c
             \/ c' = Counters (h_w c + 1) (v_w c) (ties c)
             \/ c' = Counters (h_w c) (v_w c + 1) (ties c)
             \/ c' = Counters (h_w c) (v_w c) (ties c + 1)).
  { intros v r. unfold showdown. destruct (deal_remaining _ _ r) as [draw r'].
    destruct (_ >? _); [|destruct (_ >? _)]; intros [= <- _]; tauto. }
  destruct (collided hero vill board); [|apply Hs].
  destruct (sample vs rng2 _) as [[vill' rng3]|]; [|discriminate]. cbn [bind].
  destruct (collided hero vill' board); [|apply Hs].
  intros [= <- _]. left. destruct c; reflexivity.
Qed.

Lemma trial_completes hs vs board c rng c' rng' :
  NoDup board -> proper hs -> proper vs ->
  trial hs vs board (c, rng) = Ok (c', rng') ->
  total c' = total c + 1.
Proof.
  intros Hb Hph Hpv. unfold trial.
  destruct (sample hs rng board) as [[hero rng1]|] eqn:Hh; [|discriminate].
  cbn [bind].
  destruct (sample vs rng1 _) as [[vill rng2]|] eqn:Hv; [|discriminate].
  cbn [bind]. rewrite (draws_do_not_collide _ _ _ _ _ _ _ _ Hb Hph Hpv Hh Hv).
  intros [= H]. pose proof (showdown_counters hero vill board c rng2) as Hc.
  rewrite H in Hc. simpl in Hc. lia.
Qed.

Lemma run_trials_all_complete hs vs board n : forall c rng c' rng',
  NoDup board -> proper hs -> proper vs ->
  run_trials hs vs board n (c, rng) = Ok (c', rng') ->
  total c' = total c + Z.of_nat n.
Proof.
  induction n as [|n IH]; intros c rng c' rng' Hb Hph Hpv H.
  - injection H as <- _. lia.
  - cbn [run_trials] in H.
    destruct (trial hs vs board (c, rng)) as [[c1 rng1]|] eqn:Ht; [|discriminate].
    cbn [bind] in H. apply (trial_completes _ _ _ _ _ _ _ Hb Hph Hpv) in Ht.
    apply (IH _ _ _ _ Hb Hph Hpv) in H. lia.
Qed.

Lemma equity_hu_result hero_src vill_src board iters seed entropy res :
  equity_hu hero_src vill_src board iters seed entropy = Ok res ->
  0 <= hero_wins res /\ 0 <= villain_wins res /\ 0 <= res_ties res
  /\ res_iters res = hero_wins res + villain_wins res + res_ties res
  /\ 1 <= res_iters res <= iters
  /\ equity (hero_wins res) (res_ties res) (res_iters res) = Ok (hero_equity res)
  /\ equity (villain_wins res) (res_ties res) (res_iters res)
     = Ok (villain_equity res).
Proof.
  intros H. apply equity_hu_inv in H.
  destruct H as (hs & vs & c & rng' & _ & _ & _ & Hrun & Hfin).
  apply run_trials_counters in Hrun. unfold total in Hrun. simpl in Hrun.
  unfold finalize in Hfin.
  destruct (Z.eqb_spec (h_w c + v_w c + ties c) 0) as [|Hnz]; [discriminate|].
  destruct (equity (h_w c) _ _) eqn:He1; [|discriminate]. cbn [bind] in Hfin.
  destruct (equity (v_w c) _ _) eqn:He2; [|discriminate]. cbn [bind] in Hfin.
  injection Hfin as <-. cbn. repeat split; try assumption; lia.
Qed.

(** A board with a repeated card, or a fixed hand made of twice the same
    card, makes every pair of drawn hands collide. *)
Lemma clash_collides hs vs board rng rng1 rng2 rng3 dead hero vill :
  ~ NoDup board \/ ~ proper hs \/ ~ proper vs ->
  sample hs rng board = Ok (hero, rng1) ->
  sample vs rng2 dead = Ok (vill, rng3) ->
  collided hero vill board = true.
Proof.
  intros Hc Hh Hv.
  destruct (collided hero vill board) eqn:Hcol; [reflexivity|].
  apply collided_false_NoDup in Hcol. exfalso.
  destruct Hc as [Hc|[Hc|Hc]].
  - apply Hc. apply NoDup_app_remove_l in Hcol. apply NoDup_app_remove_l in Hcol.
    exact Hcol.
  - destruct hs as [t f|t hr]; [|apply Hc; exact I].
    unfold sample in Hh. destruct (existsb _ _); [discriminate|].
    injection Hh as <- _. apply NoDup_app_remove_r in Hcol.
    apply Hc. unfold proper. destruct f as [f1 f2]. unfold cards_of in Hcol.
    cbn [fst snd] in *. inversion Hcol as [|? ? Hn _]; subst.
    intros ->. apply Hn. now left.
  - destruct vs as [t f|t hr]; [|apply Hc; exact I].
    unfold sample in Hv. destruct (existsb _ _); [discriminate|].
    injection Hv as <- _. apply NoDup_app_remove_l in Hcol.
    apply NoDup_app_remove_r in Hcol.
    apply Hc. unfold proper. destruct f as [f1 f2]. unfold cards_of in Hcol.
    cbn [fst snd] in *. inversion Hcol as [|? ? Hn _]; subst.
    intros ->. apply Hn. now left.
Qed.

Lemma trial_skips hs vs board c rng c' rng' :
  ~ NoDup board \/ ~ proper hs \/ ~ proper vs ->
  trial hs vs board (c, rng) = Ok (c', rng') ->
  c' = c.
Proof.
  intros Hc. unfold trial.
  destruct (sample hs rng board) as [[hero rng1]|] eqn:Hh; [|discriminate].
  cbn [bind].
  destruct (sample vs rng1 _) as [[vill rng2]|] eqn:Hv; [|discriminate].
  cbn [bind].
  rewrite (clash_collides _ _ _ _ _ _ _ _ _ _ Hc Hh Hv).
  destruct (sample vs rng2 _) as [[vill' rng3]|] eqn:Hv'; [|discriminate].
  cbn [bind].
  rewrite (clash_collides _ _ _ _ _ _ _ _ _ _ Hc Hh Hv').
  intros [= <- _]. reflexivity.
Qed.

Lemma run_trials_all_skip hs vs board n : forall c rng c' rng',
  ~ NoDup board \/ ~ proper hs \/ ~ proper vs ->
  run_trials hs vs board n (c, rng) = Ok (c', rng') ->
  c' = c.
Proof.
  induction n as [|n IH]; intros c rng c' rng' Hc H.
  - injection H as <- _. reflexivity.
  - cbn [run_trials] in H.
    destruct (trial hs vs board (c, rng)) as [[c1 rng1]|] eqn:Ht; [|discriminate].
    cbn [bind] in H. apply (trial_skips _ _ _ _ _ _ _ Hc) in Ht. subst c1.
    apply (IH _ _ _ _ Hc H).
Qed.

Lemma proper_dec (s : Sampler) : {proper s} + {~ proper s}.
Proof.
  destruct s as [t [f1 f2]|t hr]; unfold proper; cbn [fst snd].
  - destruct (card_eq_dec f1 f2) as [->|Hn]; [right; tauto | left; exact Hn].
  - left. exact I.
Qed.

(** A call that returns has skipped no trial. *)
Lemma equity_hu_all_trials hero_src vill_src board iters seed entropy res :
  equity_hu hero_src vill_src board iters seed entropy = Ok res ->
  res_iters res = iters
  /\ NoDup (board_or_empty board)
  /\ (forall hs, sampler_of hero_src = Ok hs -> proper hs)
  /\ (forall vs, sampler_of vill_src = Ok vs -> proper vs).
Proof.
  intros H. pose proof (equity_hu_result _ _ _ _ _ _ _ H)
    as (Hh & Hv & Ht & Hsum & Hit & _).
  apply equity_hu_inv in H.
  destruct H as (hs & vs & c & rng' & Hhs & Hvs & _ & Hrun & Hfin).
  assert (Hres : res_iters res = total c).
  { unfold finalize in Hfin.
    destruct (_ =? 0); [discriminate|].
    destruct (equity (h_w c) _ _); [|discriminate]. cbn [bind] in Hfin.
    destruct (equity (v_w c) _ _); [|discriminate]. cbn [bind] in Hfin.
    injection Hfin as <-. reflexivity. }
  destruct (ListDec.NoDup_dec card_eq_dec (board_or_empty board)) as [Hb|Hb];
    [destruct (proper_dec hs) as [Hph|Hph];
     [destruct (proper_dec vs) as [Hpv|Hpv]|]|].
  - apply (run_trials_all_complete _ _ _ _ _ _ _ _ Hb Hph Hpv) in Hrun.
    unfold total in *. cbn [h_w v_w ties] in Hrun.
    repeat split; try assumption; try lia.
    + intros hs' Hs'. rewrite Hhs in Hs'. injection Hs' as <-. exact Hph.
    + intros vs' Hs'. rewrite Hvs in Hs'. injection Hs' as <-. exact Hpv.
  - apply run_trials_all_skip in Hrun; [|tauto]. subst c.
    unfold total in Hres. cbn [h_w v_w ties] in Hres. lia.
  - apply run_trials_all_skip in Hrun; [|tauto]. subst c.
    unfold total in Hres. cbn [h_w v_w ties] in Hres. lia.
  - apply run_trials_all_skip in Hrun; [|tauto]. subst c.
    unfold total in Hres. cbn [h_w v_w ties] in Hres. lia.
Qed.

(** The skip path is all or nothing.  A call that returns a result has
    completed every trial it was asked for: the counters are not
    negative and add up to [iters], which is what the result reports as
    its number of trials; at least one trial was asked for, the board
    repeats no card and no fixed hand is made of twice the same card. *)
Theorem result_counts_every_trial
        (hero_src vill_src : source) (board : option Board)
        (iters : Z) (seed : option Z) (entropy : rng_state)
        (res : EquityResult) :
  equity_hu hero_src vill_src board iters seed entropy = Ok res ->
  0 <= hero_wins res /\ 0 <= villain_wins res /\ 0 <= res_ties res
  /\ hero_wins res + villain_wins res + res_ties res = iters
  /\ res_iters res = iters
  /\ 1 <= iters
  /\ NoDup (board_or_empty board)
  /\ (forall hs, sampler_of hero_src = Ok hs -> proper hs)
  /\ (forall vs, sampler_of vill_src = Ok vs -> proper vs).
Proof.
  intros H. pose proof (equity_hu_result _ _ _ _ _ _ _ H)
    as (Hh & Hv & Ht & Hsum & Hit & _).
  pose proof (equity_hu_all_trials _ _ _ _ _ _ _ H) as (Hall & Hb & Hph & Hpv).
  repeat split; try assumption; lia.
Qed.

(** With no trial asked for (or a negative count) the loop does not run:
    once the samplers are built and the board accepted, the call raises
    the zero-completed-trials error, even for hands the board blocks. *)
Theorem no_trials_no_result
        (hero_src vill_src : source) (board : option Board)
        (iters : Z) (seed : option Z) (entropy : rng_state)
        (hs vs : Sampler) :
  iters <= 0 ->
  sampler_of hero_src = Ok hs -> sampler_of vill_src = Ok vs ->
  board_len_ok (board_or_empty board) = true ->
  equity_hu hero_src vill_src board iters seed entropy = Err ZeroCompletedTrials.
Proof.
  intros Hi Hhs Hvs Hb. unfold equity_hu. rewrite Hhs, Hvs. cbn [bind]. cbv zeta.
  rewrite Hb. cbn [negb].
  replace (Z.to_nat iters) with 0%nat by lia. reflexivity.
Qed.

(** With at least one trial asked for, a fixed hero hand that shares a
    card with the board, or a fixed villain hand that shares a card with
    the board or with a fixed hero hand, makes the call raise the
    fixed-hand collision error in its first trial. *)
Theorem blocked_fixed_hand_raises
        (hero_src vill_src : source) (board : option Board)
        (iters : Z) (seed : option Z) (entropy : rng_state)
        (th tv : str) (hero vill : Card2) (vs : Sampler) :
  1 <= iters ->
  board_len_ok (board_or_empty board) = true ->
  sampler_of hero_src = Ok (FixedHand th hero) ->
  ((sampler_of vill_src = Ok vs
    /\ exists c, In c (cards_of hero) /\ In c (board_or_empty board))
   \/ (sampler_of vill_src = Ok (FixedHand tv vill)
       /\ exists c, In c (cards_of vill)
                    /\ In c (board_or_empty board ++ cards_of hero))) ->
  equity_hu hero_src vill_src board iters seed entropy = Err FixedHandCollides.
Proof.
  intros Hi Hb Hhs Hcase. unfold equity_hu. rewrite Hhs. cbn [bind].
  assert (Hn : exists n, Z.to_nat iters = S n) by (exists (Z.to_nat (iters - 1)); lia).
  destruct Hn as [n Hn].
  assert (Hblock : forall t f d rng,
             (exists c, In c (cards_of f) /\ In c d) ->
             sample (FixedHand t f) rng d = Err FixedHandCollides).
  { intros t f d rng [c [Hc Hd]]. unfold sample.
    replace (existsb (fun c0 => mem c0 d) (cards_of f)) with true; [reflexivity|].
    symmetry. apply existsb_exists. exists c. split; [exact Hc | apply mem_In, Hd]. }
  destruct Hcase as [[Hvs Hc]|[Hvs Hc]]; rewrite Hvs; cbn [bind]; cbv zeta;
    rewrite Hb; cbn [negb]; rewrite Hn; cbn [run_trials]; unfold trial.
  - rewrite (Hblock _ _ _ _ Hc). reflexivity.
  - destruct (sample (FixedHand th hero) _ _) as [[h rng1]|e] eqn:Hs.
    + unfold sample in Hs. destruct (existsb _ _); [discriminate|].
      injection Hs as <- <-. cbn [bind].
      rewrite (Hblock _ _ _ _ Hc). reflexivity.
    + unfold sample in Hs. destruct (existsb _ _); [|discriminate].
      injection Hs as <-. reflexivity.
Qed.

(** With at least one trial asked for, a hero range all of whose combos
    hold a board card makes the call raise the no-live-combos error. *)
Theorem range_without_live_combo_raises
        (hero_src vill_src : source) (board : option Board)
        (iters : Z) (seed : option Z) (entropy : rng_state)
        (th : str) (hr : list hr_item) (vs : Sampler) :
  1 <= iters ->
  board_len_ok (board_or_empty board) = true ->
  sampler_of hero_src = Ok (HandRange th hr) ->
  sampler_of vill_src = Ok vs ->
  existsb is_unsupported hr = false ->
  (forall c1 c2 w, In ((c1, c2), w) (flat_map entry_of hr) ->
                   In c1 (board_or_empty board) \/ In c2 (board_or_empty board)) ->
  equity_hu hero_src vill_src board iters seed entropy = Err NoLiveCombos.
Proof.
  intros Hi Hb Hhs Hvs Hu Hall. unfold equity_hu. rewrite Hhs, Hvs. cbn [bind].
  cbv zeta. rewrite Hb. cbn [negb].
  assert (Hn : exists n, Z.to_nat iters = S n) by (exists (Z.to_nat (iters - 1)); lia).
  destruct Hn as [n ->]. cbn [run_trials]. unfold trial.
  rewrite sample_range_eq, Hu.
  destruct (filter _ _) as [|x rest] eqn:Hl; [reflexivity|].
  assert (Hin : In x (filter (entry_live (board_or_empty board)) (flat_map entry_of hr)))
    by (rewrite Hl; now left).
  apply filter_In in Hin. destruct Hin as [Hin Hlive].
  destruct x as [[c1 c2] w]. apply entry_live_spec in Hlive.
  destruct (Hall _ _ _ Hin); tauto.
Qed.

End LoopMore.

Section ShowdownMore.

Context {R : RandomGen} {L : RandomGenLaws R} {E : Eval7}.

Lemma board_completed hero vill board rng :
  board_len_ok board = true ->
  len (fst (deal_remaining (cards_of hero ++ cards_of vill ++ board)
                           (5 - len board) rng)) = 5 - len board.
Proof.
  intros Hb. set (dead := cards_of hero ++ cards_of vill ++ board).
  rewrite deal_remaining_fst, slice_to_len, shuffled_length, remaining_count.
  pose proof (set_len_le dead) as Hs.
  assert (Hd : len dead = 4 + len board).
  { unfold dead, len. destruct hero, vill. unfold cards_of.
    cbn [fst snd app length]. lia. }
  unfold board_len_ok in Hb. cbv zeta in Hb.
  rewrite !orb_true_iff, !Z.eqb_eq in Hb.
  destruct (Z.ltb_spec (5 - len board) 0); lia.
Qed.

(** When the hands and the board do not collide and the board has 0, 3,
    4 or 5 cards, the showdown completes the board to five cards and
    hands the evaluator, for each player, seven cards that are pairwise
    distinct; the counter that goes up is the one the comparison of the
    two values chooses. *)
Theorem seven_distinct_cards_evaluated
        (hero vill : Card2) (board : Board) (c : counters) (rng : rng_state) :
  collided hero vill board = false ->
  board_len_ok board = true ->
  let hands := hands_evaluated hero vill board rng in
  let hs := best5_eval (fst hands) in
  let vs := best5_eval (snd hands) in
  len (fst hands) = 7 /\ len (snd hands) = 7
  /\ NoDup (fst hands) /\ NoDup (snd hands)
  /\ fst (showdown hero vill board c rng)
     = (if hs >? vs then Counters (h_w c + 1) (v_w c) (ties c)
        else if vs >? hs then Counters (h_w c) (v_w c + 1) (ties c)
        else Counters (h_w c) (v_w c) (ties c + 1)).
Proof.
  intros Hc Hb. cbv zeta. unfold hands_evaluated, showdown. cbv zeta.
  pose proof (board_completed hero vill board rng Hb) as Hlen.
  pose proof (deal_remaining_NoDup (cards_of hero ++ cards_of vill ++ board)
                                   (5 - len board) rng) as Hnd.
  pose proof (deal_remaining_live (cards_of hero ++ cards_of vill ++ board)
                                  (5 - len board) rng) as Hlive.
  destruct (deal_remaining _ _ rng) as [draw rng'].
  cbn [fst snd] in *.
  apply collided_false_NoDup in Hc.
  assert (Hall : NoDup (cards_of hero ++ cards_of vill ++ board ++ draw)).
  { rewrite !app_assoc. rewrite <- (app_assoc (cards_of hero)).
    apply NoDup_app; [exact Hc | exact Hnd |].
    intros a Ha Hd. exact (Hlive a Hd Ha). }
  assert (Hl2 : forall h : Card2, len (cards_of h) = 2) by (intros []; reflexivity).
  repeat split.
  - unfold len in *. rewrite !length_app, !Nat2Z.inj_add.
    specialize (Hl2 hero). lia.
  - unfold len in *. rewrite !length_app, !Nat2Z.inj_add.
    specialize (Hl2 vill). lia.
  - apply (NoDup_app_remove_l (cards_of vill)).
    eapply Permutation_NoDup; [apply Permutation_app_swap_app | exact Hall].
  - apply (NoDup_app_remove_l (cards_of hero)). exact Hall.
  - destruct (_ >? _); [|destruct (_ >? _)]; reflexivity.
Qed.

End ShowdownMore.

Lemma seven_distinct_cards_evaluated_witness :
  let hands := hands_evaluated (R := lcg) (As, Ks) (Ah, Kh) [Qh; Qd; Kc] 7 in
  let hs := best5_eval (E := toy) (fst hands) in
  let vs := best5_eval (E := toy) (snd hands) in
  len (fst hands) = 7 /\ len (snd hands) = 7
  /\ NoDup (fst hands) /\ NoDup (snd hands)
  /\ fst (showdown (R := lcg) (E := toy) (As, Ks) (Ah, Kh) [Qh; Qd; Kc]
                   (Counters 0 0 0) 7)
     = (if hs >? vs then Counters (0 + 1) 0 0
        else if vs >? hs then Counters 0 (0 + 1) 0
        else Counters 0 0 (0 + 1)).
Proof.
  apply (seven_distinct_cards_evaluated (R := lcg) (E := toy)
           (As, Ks) (Ah, Kh) [Qh; Qd; Kc] (Counters 0 0 0) 7);
    reflexivity.
Defined.

Lemma trial_counts_one_outcome_witness :
  exists c' rng',
    trial (R := lcg) (E := toy)
          (FixedHand (PyStr.of_string "AsKs") (As, Ks)) two_even [Qh; Qd; Kc]
          (Counters 2 1 0, 7) = Ok (c', rng')
    /\ (c' = Counters 2 1 0
        \/ c' = Counters (2 + 1) 1 0
        \/ c' = Counters 2 (1 + 1) 0
        \/ c' = Counters 2 1 (0 + 1)).
Proof.
  eexists. eexists. split; [vm_compute; reflexivity|].
  eapply (trial_counts_one_outcome (R := lcg) (E := toy)
            (FixedHand (PyStr.of_string "AsKs") (As, Ks)) two_even [Qh; Qd; Kc]
            (Counters 2 1 0) 7).
  vm_compute. reflexivity.
Defined.

Lemma result_counts_every_trial_witness :
  exists res,
    equity_hu (R := lcg) (E := toy) (txt "AsKs") (txt "QhQd")
              (Some [Card R2 Clubs; Card R7 Diamonds; Card R9 Hearts]) 40 (Some 7) 0
    = Ok res
    /\ 0 <= hero_wins res /\ 0 <= villain_wins res /\ 0 <= res_ties res
    /\ hero_wins res + villain_wins res + res_ties res = 40
    /\ res_iters res = 40
    /\ 1 <= 40
    /\ NoDup (board_or_empty
                (Some [Card R2 Clubs; Card R7 Diamonds; Card R9 Hearts]))
    /\ (forall hs, sampler_of (E := toy) (txt "AsKs") = Ok hs -> proper hs)
    /\ (forall vs, sampler_of (E := toy) (txt "QhQd") = Ok vs -> proper vs).
Proof.
  eexists. split; [vm_compute; reflexivity|].
  apply (result_counts_every_trial (R := lcg) (E := toy) (txt "AsKs") (txt "QhQd")
           (Some [Card R2 Clubs; Card R7 Diamonds; Card R9 Hearts]) 40 (Some 7) 0).
  vm_compute. reflexivity.
Defined.

Lemma no_trials_no_result_witness :
  equity_hu (R := lcg) (E := toy) (txt "AsKs") (txt "AsKs") (Some [As; Ks; Kc])
            (-3) None 11
  = Err ZeroCompletedTrials.
Proof.
  apply (no_trials_no_result (R := lcg) (E := toy) (txt "AsKs") (txt "AsKs")
           (Some [As; Ks; Kc]) (-3) None 11
           (FixedHand (PyStr.of_string "AsKs") (As, Ks))
           (FixedHand (PyStr.of_string "AsKs") (As, Ks)));
    [lia | reflexivity | reflexivity | reflexivity].
Defined.

Lemma blocked_fixed_hand_raises_witness :
  equity_hu (R := lcg) (E := toy) (txt "AsKs") (txt "AhKs") None 12 (Some 5) 0
  = Err FixedHandCollides.
Proof.
  apply (blocked_fixed_hand_raises (R := lcg) (E := toy) (txt "AsKs") (txt "AhKs")
           None 12 (Some 5) 0
           (PyStr.of_string "AsKs") (PyStr.of_string "AhKs") (As, Ks) (Ah, Ks)
           (FixedHand (PyStr.of_string "AhKs") (Ah, Ks)));
    [lia | reflexivity | reflexivity |].
  right. split; [reflexivity|]. exists Ks. simpl. tauto.
Defined.

Lemma range_without_live_combo_raises_witness :
  equity_hu (R := lcg) (E := toy) (txt "AsKs+") (txt "QhQd")
            (Some [Ks; Qh; Card R2 Clubs]) 9 None 2
  = Err NoLiveCombos.
Proof.
  apply (range_without_live_combo_raises (R := lcg) (E := toy)
           (txt "AsKs+") (txt "QhQd") (Some [Ks; Qh; Card R2 Clubs]) 9 None 2
           (PyStr.of_string "AsKs+") [PairW As Ks F64.one]
           (FixedHand (PyStr.of_string "QhQd") (Qh, Qd)));
    [lia | reflexivity | reflexivity | reflexivity | reflexivity |].
  intros c1 c2 w [[= <- <- <-]|[]]. right. now left.
Defined.

(* ================================================================== *)
(** * More on the two equities *)

(** One equity against the exact fraction. *)
Lemma equity_close (w t T : Z) (q : float) :
  0 <= w -> 0 <= t -> w + t <= T -> 0 < T < 2 ^ 1000 ->
  equity w t T = Ok q ->
  F64.is_finite q = true
  /\ (0 <= F64.to_Q q)%Q
  /\ (Qabs (F64.to_Q q - (inject_Z w + inject_Z t * (1 # 2)) / inject_Z T)
      <= 2 # 1000000000000000)%Q.
Proof.
  intros Hw Ht Hsum HT He.
  destruct (equity_approx w t T ltac:(lia) ltac:(lia) HT)
    as (q' & r & Md & Ed & Hof & He' & Hf & Hr & Hq & Hn).
  rewrite He in He'. injection He' as <-.
  destruct (float_of_int_normal T HT) as (Md' & Ed' & Hof' & _ & _ & _ & Hd).
  rewrite Hof in Hof'. injection Hof' as <- <-.
  assert (HTq : (0 < inject_Z T)%Q) by (apply inject_Z_pos; lia).
  assert (Hwq : (0 <= inject_Z w)%Q) by (change 0%Q with (inject_Z 0); rewrite <- Zle_Qle; lia).
  assert (Htq : (0 <= inject_Z t)%Q) by (change 0%Q with (inject_Z 0); rewrite <- Zle_Qle; lia).
  assert (Hsq : (inject_Z w + inject_Z t <= inject_Z T)%Q).
  { rewrite <- inject_Z_plus, <- Zle_Qle. exact Hsum. }
  set (X := (inject_Z w + inject_Z t * (1 # 2))%Q) in *.
  set (Tq := inject_Z T) in *. set (d := Qv (Zpos Md) Ed) in *.
  set (qv := F64.to_Q q) in *.
  assert (HX : (0 <= X <= Tq)%Q) by (unfold X; split; lra).
  assert (P1 : (0 <= r * (d - (1 - eps) * Tq))%Q) by (apply Qmult_le_0_compat; lra).
  assert (P2 : (0 <= r * ((1 + eps) * Tq - d))%Q) by (apply Qmult_le_0_compat; lra).
  assert (P3 : (0 <= ((1 + eps) * r - qv) * Tq)%Q) by (apply Qmult_le_0_compat; lra).
  assert (P4 : (0 <= (qv - (1 - eps) * r) * Tq)%Q) by (apply Qmult_le_0_compat; lra).
  assert (Hy : (X / Tq * Tq == X)%Q) by (field; lra).
  set (y := (X / Tq)%Q) in *.
  split; [destruct Hf as [->|(? & ? & -> & _)]; reflexivity|].
  split; [unfold eps in Hq; lra|].
  apply Qabs_Qle_condition. unfold eps in *. split.
  - assert (H : (0 <= ((2 # 1000000000000000) + (qv - y)) * Tq)%Q) by lra.
    apply (Qmult_pos_cancel _ Tq HTq) in H. lra.
  - assert (H : (0 <= ((2 # 1000000000000000) - (qv - y)) * Tq)%Q) by lra.
    apply (Qmult_pos_cancel _ Tq HTq) in H. lra.
Qed.

Section EquitiesMore.

Context {R : RandomGen} {E : Eval7}.

(** For a call of fewer than 2^1000 trials that returns a result, each
    equity is a finite float that is not negative and lies within
    2 * 10^-15 of the exact fraction (wins + ties / 2) / iters. *)
Theorem equities_close_to_exact
        (hero_src vill_src : source) (board : option Board)
        (iters : Z) (seed : option Z) (entropy : rng_state) (res : EquityResult) :
  iters < 2 ^ 1000 ->
  equity_hu hero_src vill_src board iters seed entropy = Ok res ->
  let exact wins :=
    ((inject_Z wins + inject_Z (res_ties res) * (1 # 2)) / inject_Z iters)%Q in
  (F64.is_finite (hero_equity res) = true
   /\ (0 <= F64.to_Q (hero_equity res))%Q
   /\ (Qabs (F64.to_Q (hero_equity res) - exact (hero_wins res))
       <= 2 # 1000000000000000)%Q)
  /\ (F64.is_finite (villain_equity res) = true
      /\ (0 <= F64.to_Q (villain_equity res))%Q
      /\ (Qabs (F64.to_Q (villain_equity res) - exact (villain_wins res))
          <= 2 # 1000000000000000)%Q).
Proof.
  intros Hi H. cbv zeta.
  pose proof (equity_hu_result _ _ _ _ _ _ _ H)
    as (Hh & Hv & Ht & Hsum & Hit & He1 & He2).
  pose proof (equity_hu_all_trials _ _ _ _ _ _ _ H) as (Hall & _).
  rewrite Hall in *.
  split; apply equity_close; try assumption; lia.
Qed.

End EquitiesMore.

Lemma equities_close_to_exact_witness :
  exists res,
    equity_hu (R := lcg) (E := toy) (txt "AsKs") (txt "AhKh") None 3 None 4 = Ok res
    /\ let exact wins :=
         ((inject_Z wins + inject_Z (res_ties res) * (1 # 2)) / inject_Z 3)%Q in
       (F64.is_finite (hero_equity res) = true
        /\ (0 <= F64.to_Q (hero_equity res))%Q
        /\ (Qabs (F64.to_Q (hero_equity res) - exact (hero_wins res))
            <= 2 # 1000000000000000)%Q)
       /\ (F64.is_finite (villain_equity res) = true
           /\ (0 <= F64.to_Q (villain_equity res))%Q
           /\ (Qabs (F64.to_Q (villain_equity res) - exact (villain_wins res))
               <= 2 # 1000000000000000)%Q).
Proof.
  eexists. split; [vm_compute; reflexivity|].
  apply (equities_close_to_exact (R := lcg) (E := toy)
           (txt "AsKs") (txt "AhKh") None 3 None 4 _ ltac:(lia)).
  vm_compute. reflexivity.
Defined.

(* ================================================================== *)
(** * Results that are exact *)

(** ** Roundings that lose nothing *)

Lemma shr_1_even m :
  0 <= m ->
  shr_1 {| shr_m := m * 2; shr_r := false; shr_s := false |}
  = {| shr_m := m; shr_r := false; shr_s := false |}.
Proof.
  intros Hm. destruct m as [|p|p]; [reflexivity| |lia].
  replace (Zpos p * 2) with (Zpos p~0) by lia. reflexivity.
Qed.

Lemma iter_shr_1_exact p : forall m,
  0 <= m ->
  iter_pos shr_1 p {| shr_m := m * 2 ^ Zpos p; shr_r := false; shr_s := false |}
  = {| shr_m := m; shr_r := false; shr_s := false |}.
Proof.
  induction p as [p IH|p IH|]; intros m Hm; cbn [iter_pos].
  - assert (Hp : 0 < 2 ^ Zpos p) by pow2.
    replace (m * 2 ^ Zpos p~1) with (m * 2 ^ Zpos p * 2 ^ Zpos p * 2).
    2:{ rewrite (Pos2Z.inj_xI p). rewrite Z.pow_add_r, Z.pow_mul_r, Z.pow_1_r by lia.
        change (2 ^ 2) with 4.
        replace (4 ^ Zpos p) with (2 ^ Zpos p * 2 ^ Zpos p).
        - ring.
        - rewrite <- Z.pow_mul_l. reflexivity. }
    rewrite shr_1_even by nia. rewrite IH by nia. apply IH. exact Hm.
  - assert (Hp : 0 < 2 ^ Zpos p) by pow2.
    replace (m * 2 ^ Zpos p~0) with (m * 2 ^ Zpos p * 2 ^ Zpos p).
    2:{ rewrite (Pos2Z.inj_xO p). rewrite Z.pow_mul_r by lia.
        change (2 ^ 2) with 4.
        replace (4 ^ Zpos p) with (2 ^ Zpos p * 2 ^ Zpos p).
        - ring.
        - rewrite <- Z.pow_mul_l. reflexivity. }
    rewrite IH by nia. apply IH. exact Hm.
  - change (2 ^ 1) with 2. apply shr_1_even. exact Hm.
Qed.

(** A mantissa that is a 53-digit number followed by zeros is rounded to
    that number: nothing is lost. *)
Lemma bra_exact M k e :
  2 ^ 52 <= Zpos M < 2 ^ 53 -> 0 <= k -> -1074 <= e + k <= 971 ->
  binary_round_aux 53 1024 false (Zpos M * 2 ^ k) e loc_Exact
  = S754_finite false M (e + k).
Proof.
  intros HM Hk He. unfold binary_round_aux.
  assert (H1 : shr_fexp 53 1024 (Zpos M * 2 ^ k) e loc_Exact
               = ({| shr_m := Zpos M; shr_r := false; shr_s := false |}, e + k)).
  { unfold shr_fexp, fexp, emin. rewrite Zdigits2_shift by lia.
    rewrite Zdigits2_53 by exact HM.
    replace (Z.max (53 + k + e - 53) (3 - 1024 - 53) - e) with k by lia.
    unfold shr. destruct k as [|p|p]; [| |lia].
    - rewrite Z.pow_0_r, Z.mul_1_r, Z.add_0_r. reflexivity.
    - cbn [shr_record_of_loc]. rewrite iter_shr_1_exact by lia. reflexivity. }
  rewrite H1. cbn [shr_m loc_of_shr_record round_nearest_even].
  assert (H2 : shr_fexp 53 1024 (Zpos M) (e + k) loc_Exact
               = ({| shr_m := Zpos M; shr_r := false; shr_s := false |}, e + k)).
  { unfold shr_fexp, fexp, emin. rewrite Zdigits2_53 by exact HM.
    replace (Z.max (53 + (e + k) - 53) (3 - 1024 - 53) - (e + k)) with 0 by lia.
    reflexivity. }
  rewrite H2. cbn [shr_m].
  replace (e + k <=? 1024 - 53) with true by (symmetry; apply Z.leb_le; lia).
  reflexivity.
Qed.

Lemma mul_half_exact M E :
  2 ^ 52 <= Zpos M < 2 ^ 53 -> -1073 <= E <= 972 ->
  F64.mul F64.half (S754_finite false M E) = S754_finite false M (E - 1).
Proof.
  intros HM HE. unfold F64.mul, F64.half, SFmul, F64.prec, F64.emax.
  cbn [xorb].
  assert (Hm : Zpos (4503599627370496 * M) = Zpos M * 2 ^ 52).
  { rewrite Pos2Z.inj_mul. change (2 ^ 52) with (Zpos 4503599627370496). lia. }
  rewrite Hm. rewrite bra_exact by (try assumption; lia).
  f_equal. lia.
Qed.

Lemma div_same_mantissa M E1 E2 :
  2 ^ 52 <= Zpos M < 2 ^ 53 -> -1021 <= E1 - E2 <= 1023 ->
  F64.div (S754_finite false M E1) (S754_finite false M E2)
  = S754_finite false 4503599627370496 (E1 - E2 - 52).
Proof.
  intros HM HE. unfold F64.div, SFdiv, F64.prec, F64.emax.
  assert (Hc : SFdiv_core_binary 53 1024 (Zpos M) E1 (Zpos M) E2
               = (2 ^ 53, E1 - E2 - 53, loc_Exact)).
  { unfold SFdiv_core_binary. rewrite !Zdigits2_53 by assumption.
    assert (He : Z.min (fexp 53 1024 (53 + E1 - (53 + E2))) (E1 - E2) = E1 - E2 - 53).
    { unfold fexp, emin. lia. }
    rewrite He. replace (E1 - E2 - (E1 - E2 - 53)) with 53 by lia.
    rewrite Z.shiftl_mul_pow2 by lia.
    assert (Hq : Z.div_eucl (Zpos M * 2 ^ 53) (Zpos M) = (2 ^ 53, 0)).
    { pose proof (Z.div_eucl_eq (Zpos M * 2 ^ 53) (Zpos M) ltac:(lia)) as Heq.
      pose proof (Z.mod_pos_bound (Zpos M * 2 ^ 53) (Zpos M) ltac:(lia)) as Hb.
      unfold Z.modulo in Hb.
      destruct (Z.div_eucl (Zpos M * 2 ^ 53) (Zpos M)) as [q r].
      assert (r = 0 /\ q = 2 ^ 53) as [-> ->]; [|reflexivity].
      assert (Hr : Zpos M * (2 ^ 53 - q) = r) by lia.
      assert (2 ^ 53 - q = 0) by nia. split; nia. }
    rewrite Hq. unfold new_location. destruct (Z.even (Zpos M)); reflexivity. }
  rewrite Hc. cbn [xorb].
  change (2 ^ 53) with (Zpos 4503599627370496 * 2 ^ 1).
  rewrite bra_exact by lia. f_equal. lia.
Qed.

(** [binary_round] loses nothing on a mantissa that is a number of at
    most 53 digits followed by zeros. *)
Lemma binary_round_exact p e N j :
  0 < N < 2 ^ 53 -> 0 <= j -> Zpos p = N * 2 ^ j ->
  -1074 <= e + j - (53 - Zdigits2 N) <= 971 ->
  exists M,
    binary_round 53 1024 false p e
    = S754_finite false M (e + j - (53 - Zdigits2 N))
    /\ 2 ^ 52 <= Zpos M < 2 ^ 53
    /\ Zpos M = N * 2 ^ (53 - Zdigits2 N).
Proof.
  intros HN Hj Hp Hr.
  pose proof (Zdigits2_bounds N ltac:(lia)) as [Hlo Hhi].
  pose proof (Zdigits2_pos N ltac:(lia)) as Hd0.
  pose proof (Zdigits2_upper N 53 ltac:(lia) ltac:(lia) ltac:(lia)) as Hd53.
  set (dN := Zdigits2 N) in *. set (s := 53 - dN) in *.
  assert (Hs : 0 <= s) by (unfold s; lia).
  assert (Hps : 0 < 2 ^ s) by pow2.
  assert (HM : 2 ^ 52 <= N * 2 ^ s < 2 ^ 53).
  { split.
    - replace 52 with (dN - 1 + s) by (unfold s; lia).
      rewrite Z.pow_add_r by lia. apply Z.mul_le_mono_nonneg_r; lia.
    - replace 53 with (dN + s) by (unfold s; lia).
      rewrite Z.pow_add_r by lia. apply Z.mul_lt_mono_pos_r; lia. }
  destruct (N * 2 ^ s) as [|M|M] eqn:HMe; try lia.
  exists M. split; [|split; [exact HM | reflexivity]].
  unfold binary_round.
  assert (Hd : Zpos (digits2_pos p) = dN + j).
  { change (Zpos (digits2_pos p)) with (Zdigits2 (Zpos p)). rewrite Hp.
    apply Zdigits2_shift; lia. }
  rewrite Hd.
  assert (Hf : fexp 53 1024 (dN + j + e) = dN + j + e - 53)
    by (unfold fexp, emin, s in *; lia).
  rewrite Hf.
  pose proof (shl_align_spec p e (dN + j + e - 53)) as [Hez Hmz].
  destruct (shl_align p e (dN + j + e - 53)) as [mz ez]. cbn [fst snd] in Hez, Hmz.
  destruct (Z.le_gt_cases s j) as [Hc|Hc].
  - assert (ez = e) by (unfold s in *; lia). subst ez.
    replace (e - Z.min e (dN + j + e - 53)) with 0 in Hmz by (unfold s in *; lia).
    rewrite Z.pow_0_r, Z.mul_1_r, Hp in Hmz.
    assert (Hmz' : Zpos mz = Zpos M * 2 ^ (j - s)).
    { rewrite Hmz, <- HMe, <- Z.mul_assoc, <- Z.pow_add_r by lia.
      do 2 f_equal. lia. }
    rewrite Hmz', bra_exact by (try assumption; lia).
    f_equal. unfold s. lia.
  - assert (Hez' : ez = e + j - s) by (unfold s in *; lia).
    replace (e - Z.min e (dN + j + e - 53)) with (s - j) in Hmz by (unfold s in *; lia).
    assert (Hmz' : Zpos mz = Zpos M * 2 ^ 0).
    { rewrite Hmz, Hp, <- HMe, <- Z.mul_assoc, <- Z.pow_add_r by lia.
      rewrite Z.pow_0_r, Z.mul_1_r. do 2 f_equal. lia. }
    rewrite Hmz', bra_exact by (try assumption; lia).
    f_equal. unfold s in *. lia.
Qed.

(** [float(n)] is exact below 2^53. *)
Lemma of_Z_exact n :
  0 < n < 2 ^ 53 ->
  exists M E,
    F64.of_Z n = S754_finite false M E
    /\ float_of_int n = Ok (S754_finite false M E)
    /\ 2 ^ 52 <= Zpos M < 2 ^ 53
    /\ -52 <= E <= 0
    /\ Zpos M = n * 2 ^ (- E).
Proof.
  intros Hn. pose proof (Zdigits2_pos n ltac:(lia)) as Hd0.
  pose proof (Zdigits2_upper n 53 ltac:(lia) ltac:(lia) ltac:(lia)) as Hd53.
  destruct n as [|p|p]; try lia.
  destruct (binary_round_exact p 0 (Zpos p) 0 Hn ltac:(lia)) as (M & Hbr & HM & HMv).
  - rewrite Z.pow_0_r. lia.
  - lia.
  - exists M, (0 + 0 - (53 - Zdigits2 (Zpos p))).
    assert (Hof : F64.of_Z (Zpos p)
                  = S754_finite false M (0 + 0 - (53 - Zdigits2 (Zpos p))))
      by exact Hbr.
    split; [exact Hof|]. split; [unfold float_of_int; rewrite Hof; reflexivity|].
    split; [exact HM|]. split; [lia|].
    rewrite HMv. do 2 f_equal. lia.
Qed.

Lemma Qv_exact M E n : Zpos M = n * 2 ^ (- E) -> E <= 0 ->
  (Qv (Zpos M) E == inject_Z n)%Q.
Proof.
  intros H HE. rewrite H, Qv_shift by lia.
  replace (E + - E) with 0 by lia. apply Qv_0.
Qed.

(** [wins + 0.5 * ties] is exact while twice its value is below 2^53. *)
Lemma numerator_exact w t :
  0 <= w -> 0 <= t -> 2 * w + t < 2 ^ 53 ->
  exists tf wf,
    float_of_int t = Ok tf /\ float_of_int w = Ok wf
    /\ let num := F64.add wf (F64.mul F64.half tf) in
       (num = S754_zero false /\ w = 0 /\ t = 0)
       \/ exists M E,
           num = S754_finite false M E
           /\ 2 ^ 52 <= Zpos M < 2 ^ 53
           /\ -53 <= E <= 0
           /\ (Qv (Zpos M) E == inject_Z w + inject_Z t * (1 # 2))%Q.
Proof.
  intros Hw Ht Hs.
  assert (Hhalf : forall M E n, Zpos M = n * 2 ^ (- E) -> E <= 0 ->
            (Qv (Zpos M) (E - 1) == inject_Z n * (1 # 2))%Q).
  { intros M E n H HE. rewrite <- (Qv_exact M E n H HE).
    unfold Qv. replace (E - 1) with (E + -1) by lia.
    rewrite Qpower_plus by discriminate.
    change (Qpower 2 (-1)) with (1 # 2)%Q. ring. }
  destruct (Z.eq_dec t 0) as [->|Ht0]; destruct (Z.eq_dec w 0) as [->|Hw0].
  - exists (S754_zero false), (S754_zero false).
    split; [reflexivity|]. split; [reflexivity|]. left. repeat split.
  - destruct (of_Z_exact w ltac:(lia)) as (M & E & _ & Hf & HM & HE & Hv).
    exists (S754_zero false), (S754_finite false M E).
    split; [reflexivity|]. split; [exact Hf|]. right.
    exists M, E. split; [reflexivity|]. split; [exact HM|]. split; [lia|].
    rewrite (Qv_exact M E w Hv) by lia. change (inject_Z 0) with 0%Q. ring.
  - destruct (of_Z_exact t ltac:(lia)) as (M & E & _ & Hf & HM & HE & Hv).
    exists (S754_finite false M E), (S754_zero false).
    split; [exact Hf|]. split; [reflexivity|]. right. cbv zeta.
    rewrite mul_half_exact by (try assumption; lia).
    exists M, (E - 1). split; [reflexivity|]. split; [exact HM|]. split; [lia|].
    rewrite (Hhalf M E t Hv) by lia. change (inject_Z 0) with 0%Q. ring.
  - destruct (of_Z_exact t ltac:(lia)) as (M2 & E2 & _ & Hf2 & HM2 & HE2 & Hv2).
    destruct (of_Z_exact w ltac:(lia)) as (M1 & E1 & _ & Hf1 & HM1 & HE1 & Hv1).
    exists (S754_finite false M2 E2), (S754_finite false M1 E1).
    split; [exact Hf2|]. split; [exact Hf1|]. right. cbv zeta.
    rewrite mul_half_exact by (try assumption; lia).
    unfold F64.add, SFadd, F64.prec, F64.emax. cbn [cond_Zopp].
    set (ez := Z.min E1 (E2 - 1)).
    pose proof (shl_align_spec M1 E1 ez) as [_ Ha].
    pose proof (shl_align_spec M2 (E2 - 1) ez) as [_ Hb].
    replace (Z.min E1 ez) with ez in Ha by (unfold ez; lia).
    replace (Z.min (E2 - 1) ez) with ez in Hb by (unfold ez; lia).
    set (a := fst (shl_align M1 E1 ez)) in *.
    set (b := fst (shl_align M2 (E2 - 1) ez)) in *.
    change (Zpos a + Zpos b) with (Zpos (a + b)). unfold binary_normalize.
    assert (Hez : -53 <= ez <= -1) by (unfold ez; lia).
    assert (Hsum : Zpos (a + b) = (2 * w + t) * 2 ^ (- ez - 1)).
    { change (Zpos (a + b)) with (Zpos a + Zpos b). rewrite Ha, Hb, Hv1, Hv2.
      rewrite <- !Z.mul_assoc, <- !Z.pow_add_r by lia.
      replace (- E1 + (E1 - ez)) with (1 + (- ez - 1)) by lia.
      replace (- E2 + (E2 - 1 - ez)) with (- ez - 1) by lia.
      rewrite Z.pow_add_r by lia. change (2 ^ 1) with 2. ring. }
    pose proof (Zdigits2_pos (2 * w + t) ltac:(lia)) as Hd0.
    pose proof (Zdigits2_upper (2 * w + t) 53 ltac:(lia) ltac:(lia) Hs) as Hd53.
    destruct (binary_round_exact (a + b) ez (2 * w + t) (- ez - 1)
                                 ltac:(lia) ltac:(lia) Hsum ltac:(lia))
      as (M & Hbr & HM & HMv).
    exists M, (ez + (- ez - 1) - (53 - Zdigits2 (2 * w + t))).
    split; [exact Hbr|]. split; [exact HM|]. split; [lia|].
    rewrite HMv, Qv_shift by lia.
    replace (ez + (- ez - 1) - (53 - Zdigits2 (2 * w + t))
             + (53 - Zdigits2 (2 * w + t))) with (-1) by lia.
    unfold Qv. change (Qpower 2 (-1)) with (1 # 2)%Q.
    rewrite inject_Z_plus, inject_Z_mult. change (inject_Z 2) with 2%Q. ring.
Qed.

(** A normal float below 1 + 2^-52 is at most 1. *)
Lemma normal_below_one M E :
  2 ^ 52 <= Zpos M < 2 ^ 53 ->
  (Qv (Zpos M) E < 1 + (1 # 4503599627370496))%Q ->
  (Qv (Zpos M) E <= 1)%Q.
Proof.
  intros HM Hlt. destruct (Z.le_gt_cases (-52) E) as [Hc|Hc].
  - assert (Hx : (Qv (Zpos M * 2 ^ (E + 52)) (-52) == Qv (Zpos M) E)%Q).
    { rewrite Qv_shift by lia. replace (-52 + (E + 52)) with E by lia. reflexivity. }
    rewrite <- Hx in *. set (z := Zpos M * 2 ^ (E + 52)) in *.
    unfold Qv in *. change (Qpower 2 (-52)) with (1 # 4503599627370496)%Q in *.
    assert (Hz : (inject_Z z < inject_Z (4503599627370496 + 1))%Q).
    { change (inject_Z (4503599627370496 + 1)) with (4503599627370497 # 1)%Q. lra. }
    rewrite <- Zlt_Qlt in Hz.
    assert (Hz' : (inject_Z z <= inject_Z 4503599627370496)%Q)
      by (rewrite <- Zle_Qle; lia).
    change (inject_Z 4503599627370496) with (4503599627370496 # 1)%Q in Hz'. lra.
  - assert (Hx : (Qv (Zpos M * 2 ^ (-53 - E)) E == Qv (Zpos M) (-53))%Q).
    { rewrite Qv_shift by lia. replace (E + (-53 - E)) with (-53) by lia. reflexivity. }
    assert (Hp : 0 < 2 ^ (-53 - E)) by pow2.
    assert (Hle : (Qv (Zpos M) E <= Qv (Zpos M * 2 ^ (-53 - E)) E)%Q)
      by (apply Qv_le; nia).
    rewrite Hx in Hle. eapply Qle_trans; [exact Hle|].
    unfold Qv. change (Qpower 2 (-53)) with (1 # 9007199254740992)%Q.
    assert (Hz : (inject_Z (Zpos M) <= inject_Z 9007199254740992)%Q)
      by (rewrite <- Zle_Qle; change 9007199254740992 with (2 ^ 53); lia).
    change (inject_Z 9007199254740992) with (9007199254740992 # 1)%Q in Hz. lra.
Qed.

Lemma Ok_inj {A} (x y : A) : Ok x = Ok y -> x = y.
Proof. intros [= H]. exact H. Qed.

Lemma equity_steps w t T tf wf d :
  float_of_int t = Ok tf -> float_of_int w = Ok wf -> float_of_int T = Ok d ->
  equity w t T = Ok (F64.div (F64.add wf (F64.mul F64.half tf)) d).
Proof. intros Ht Hw Hd. unfold equity. rewrite Ht, Hw, Hd. reflexivity. Qed.

(** The three results with a single kind of outcome are exact. *)
Lemma equity_decided T :
  0 < T < 2 ^ 1000 ->
  equity T 0 T = Ok F64.one
  /\ equity 0 0 T = Ok F64.zero
  /\ equity 0 T T = Ok F64.half.
Proof.
  intros HT.
  destruct (float_of_int_normal T HT) as (M & E & _ & Hf & HM & HE & _).
  rewrite (equity_steps _ _ _ _ _ _ float_of_int_zero Hf Hf).
  rewrite (equity_steps _ _ _ _ _ _ float_of_int_zero float_of_int_zero Hf).
  rewrite (equity_steps _ _ _ _ _ _ Hf float_of_int_zero Hf).
  split; [|split].
  - change (F64.mul F64.half (S754_zero false)) with (S754_zero false).
    change (F64.add (S754_finite false M E) (S754_zero false))
      with (S754_finite false M E).
    rewrite div_same_mantissa by (try assumption; lia).
    replace (E - E - 52) with (-52) by lia. reflexivity.
  - reflexivity.
  - rewrite mul_half_exact by (try assumption; lia).
    change (F64.add (S754_zero false) (S754_finite false M (E - 1)))
      with (S754_finite false M (E - 1)).
    rewrite div_same_mantissa by (try assumption; lia).
    replace (E - 1 - E - 52) with (-53) by lia. reflexivity.
Qed.

Lemma Qmult_pos_cancel_strict (c T : Q) : (0 < T -> 0 < c * T -> 0 < c)%Q.
Proof.
  intros HT H. destruct (Qlt_le_dec 0 c) as [Hc|Hc]; [exact Hc|].
  assert (0 <= (- c) * T)%Q by (apply Qmult_le_0_compat; lra). lra.
Qed.

(** Below 2^52 trials an equity never exceeds 1. *)
Lemma equity_at_most_one (w t T : Z) (q : float) :
  0 <= w -> 0 <= t -> w + t <= T -> 0 < T < 2 ^ 52 ->
  equity w t T = Ok q ->
  (F64.to_Q q <= 1)%Q.
Proof.
  intros Hw Ht Hsum HT He.
  destruct (Z.eq_dec (2 * w + t) (2 * T)) as [Heq|Hne].
  - assert (t = 0) by lia. assert (w = T) by lia. subst t w.
    destruct (equity_decided T ltac:(lia)) as [H1 _].
    rewrite He in H1. injection H1 as ->. vm_compute. discriminate.
  - destruct (numerator_exact w t Hw Ht ltac:(lia))
      as (tf & wf & Hft & Hfw & Hnum).
    destruct (of_Z_exact T ltac:(lia)) as (Md & Ed & _ & Hfd & HMd & HEd & Hvd).
    rewrite (equity_steps _ _ _ _ _ _ Hft Hfw Hfd) in He.
    apply Ok_inj in He. subst q. cbv zeta in Hnum.
    destruct Hnum as [[-> _]|(M & E & -> & HM & HE & Hv)].
    + vm_compute. discriminate.
    + destruct (div_approx M E Md Ed HM HMd ltac:(lia))
        as (Mq & Eq & Hdiv & HMq & _ & _ & Hq).
      rewrite Hdiv. change (F64.to_Q (S754_finite false Mq Eq)) with (Qv (Zpos Mq) Eq).
      apply normal_below_one; [exact HMq|].
      eapply Qle_lt_trans; [exact Hq|].
      rewrite Hv, (Qv_exact Md Ed T Hvd) by lia.
      assert (HTq : (0 < inject_Z T)%Q) by (apply inject_Z_pos; lia).
      assert (Hlt : (inject_Z (2 * w + t) < inject_Z (2 * T))%Q)
        by (rewrite <- Zlt_Qlt; lia).
      rewrite !inject_Z_plus, !inject_Z_mult in Hlt.
      change (inject_Z 2) with 2%Q in Hlt.
      set (X := (inject_Z w + inject_Z t * (1 # 2))%Q) in *.
      set (Tq := inject_Z T) in *.
      assert (HX : (X < Tq)%Q) by (unfold X; lra).
      assert (Hy : (X / Tq * Tq == X)%Q) by (field; lra).
      set (y := (X / Tq)%Q) in *.
      assert (H : (0 < (1 - y) * Tq)%Q) by lra.
      apply (Qmult_pos_cancel_strict _ Tq HTq) in H.
      unfold eps. lra.
Qed.

Section ExactMore.

Context {R : RandomGen} {E : Eval7}.

(** For a call of fewer than 2^1000 trials that returns a result: when
    only the hero won trials the hero's equity is exactly 1.0 and the
    villain's exactly 0.0, when only the villain won it is the other way
    round, and when every trial was a tie both equities are exactly
    0.5. *)
Theorem decided_runs_are_exact
        (hero_src vill_src : source) (board : option Board)
        (iters : Z) (seed : option Z) (entropy : rng_state) (res : EquityResult) :
  iters < 2 ^ 1000 ->
  equity_hu hero_src vill_src board iters seed entropy = Ok res ->
  (villain_wins res = 0 -> res_ties res = 0 ->
   hero_equity res = F64.one /\ villain_equity res = F64.zero)
  /\ (hero_wins res = 0 -> res_ties res = 0 ->
      hero_equity res = F64.zero /\ villain_equity res = F64.one)
  /\ (hero_wins res = 0 -> villain_wins res = 0 ->
      hero_equity res = F64.half /\ villain_equity res = F64.half).
Proof.
  intros Hi H.
  pose proof (equity_hu_result _ _ _ _ _ _ _ H)
    as (Hh & Hv & Ht & Hsum & Hit & He1 & He2).
  destruct (equity_decided (res_iters res) ltac:(lia)) as (D1 & D0 & Dh).
  split; [|split]; intros Ha Hb; rewrite Ha, Hb in *.
  - replace (hero_wins res) with (res_iters res) in He1 by lia.
    rewrite D1 in He1. rewrite D0 in He2.
    split; apply Ok_inj; symmetry; assumption.
  - replace (villain_wins res) with (res_iters res) in He2 by lia.
    rewrite D0 in He1. rewrite D1 in He2.
    split; apply Ok_inj; symmetry; assumption.
  - replace (res_ties res) with (res_iters res) in He1, He2 by lia.
    rewrite Dh in He1, He2.
    split; apply Ok_inj; symmetry; assumption.
Qed.

(** For a call of fewer than 2^52 trials that returns a result, both
    equities are finite floats between 0 and 1, bounds included. *)
Theorem equities_within_unit_interval
        (hero_src vill_src : source) (board : option Board)
        (iters : Z) (seed : option Z) (entropy : rng_state) (res : EquityResult) :
  iters < 2 ^ 52 ->
  equity_hu hero_src vill_src board iters seed entropy = Ok res ->
  F64.is_finite (hero_equity res) = true
  /\ F64.is_finite (villain_equity res) = true
  /\ (0 <= F64.to_Q (hero_equity res) <= 1)%Q
  /\ (0 <= F64.to_Q (villain_equity res) <= 1)%Q.
Proof.
  intros Hi H.
  pose proof (equity_hu_result _ _ _ _ _ _ _ H)
    as (Hh & Hv & Ht & Hsum & Hit & He1 & He2).
  assert (Hbig : res_iters res < 2 ^ 1000).
  { assert (2 ^ 52 < 2 ^ 1000) by (apply Z.pow_lt_mono_r; lia). lia. }
  assert (Hs1 : hero_wins res + res_ties res <= res_iters res) by lia.
  assert (Hs2 : villain_wins res + res_ties res <= res_iters res) by lia.
  assert (Hr1 : 0 < res_iters res < 2 ^ 1000) by lia.
  assert (Hr2 : 0 < res_iters res < 2 ^ 52) by lia.
  destruct (equity_close _ _ _ _ Hh Ht Hs1 Hr1 He1) as (F1 & P1 & _).
  destruct (equity_close _ _ _ _ Hv Ht Hs2 Hr1 He2) as (F2 & P2 & _).
  pose proof (equity_at_most_one _ _ _ _ Hh Ht Hs1 Hr2 He1) as U1.
  pose proof (equity_at_most_one _ _ _ _ Hv Ht Hs2 Hr2 He2) as U2.
  repeat split; assumption.
Qed.

End ExactMore.

Lemma decided_runs_are_exact_witness :
  let clubs := [Card R2 Clubs; Card R7 Diamonds; Card R9 Clubs; Ac; Kc] in
  (exists res,
      equity_hu (R := lcg) (E := toy) (txt "AsKs") (txt "QhQd") (Some clubs)
                4 None 3 = Ok res
      /\ villain_wins res = 0 /\ res_ties res = 0
      /\ hero_equity res = F64.one /\ villain_equity res = F64.zero)
  /\ (exists res,
         equity_hu (R := lcg) (E := toy) (txt "QhQd") (txt "AsKs") (Some clubs)
                   4 None 3 = Ok res
         /\ hero_wins res = 0 /\ res_ties res = 0
         /\ hero_equity res = F64.zero /\ villain_equity res = F64.one)
  /\ (exists res,
         equity_hu (R := lcg) (E := toy) (txt "AsKs") (txt "AhKh") (Some clubs)
                   4 None 3 = Ok res
         /\ hero_wins res = 0 /\ villain_wins res = 0
         /\ hero_equity res = F64.half /\ villain_equity res = F64.half).
Proof.
  intros clubs. split; [|split].
  - eexists. split; [vm_compute; reflexivity|].
    split; [reflexivity|]. split; [reflexivity|].
    refine (proj1 (decided_runs_are_exact (R := lcg) (E := toy)
                     (txt "AsKs") (txt "QhQd") (Some clubs) 4 None 3 _ _ _) _ _);
      [lia | vm_compute; reflexivity | reflexivity | reflexivity].
  - eexists. split; [vm_compute; reflexivity|].
    split; [reflexivity|]. split; [reflexivity|].
    refine (proj1 (proj2 (decided_runs_are_exact (R := lcg) (E := toy)
                            (txt "QhQd") (txt "AsKs") (Some clubs) 4 None 3 _ _ _))
                  _ _);
      [lia | vm_compute; reflexivity | reflexivity | reflexivity].
  - eexists. split; [vm_compute; reflexivity|].
    split; [reflexivity|]. split; [reflexivity|].
    refine (proj2 (proj2 (decided_runs_are_exact (R := lcg) (E := toy)
                            (txt "AsKs") (txt "AhKh") (Some clubs) 4 None 3 _ _ _))
                  _ _);
      [lia | vm_compute; reflexivity | reflexivity | reflexivity].
Defined.

Lemma equities_within_unit_interval_witness :
  exists res,
    equity_hu (R := lcg) (E := toy) (txt "AsKs") (txt "AhKh") None 3 None 4 = Ok res
    /\ F64.is_finite (hero_equity res) = true
    /\ F64.is_finite (villain_equity res) = true
    /\ (0 <= F64.to_Q (hero_equity res) <= 1)%Q
    /\ (0 <= F64.to_Q (villain_equity res) <= 1)%Q.
Proof.
  eexists. split; [vm_compute; reflexivity|].
  apply (equities_within_unit_interval (R := lcg) (E := toy)
           (txt "AsKs") (txt "AhKh") None 3 None 4 _ ltac:(lia)).
  vm_compute. reflexivity.
Defined.

(* ================================================================== *)
(** * What a call raises, and when *)

Section ErrorsMore.

Context {R : RandomGen} {E : Eval7}.

Lemma sampler_of_err src e :
  sampler_of src = Err e -> e = InvalidCard \/ e = InvalidRange.
Proof.
  destruct src as [s|s]; [|discriminate]. unfold sampler_of, mk_Sampler.
  destruct (detect_is_range s) eqn:Hd.
  - destruct (eval7_HandRange s); [discriminate|]. intros [= <-]. now right.
  - apply detect_is_range_false in Hd. unfold parse_two_card_hand.
    destruct Hd as [Hl _]. unfold PyStr.len. rewrite Hl. cbn [Z.of_nat].
    cbn [Pos.of_succ_nat Pos.succ Z.eqb Pos.eqb negb].
    destruct (eval7_Card _); [destruct (eval7_Card _)|]; cbn [bind];
      try discriminate; intros [= <-]; now left.
Qed.

Lemma sample_err self rng dead e :
  sample self rng dead = Err e ->
  e = FixedHandCollides \/ e = UnsupportedRangeElement \/ e = NoLiveCombos.
Proof.
  destruct self as [t f|t hr].
  - unfold sample. destruct (existsb _ _); [|discriminate]. intros [= <-]. tauto.
  - rewrite sample_range_eq. destruct (existsb _ _); [intros [= <-]; tauto|].
    destruct (filter _ _); [intros [= <-]; tauto | discriminate].
Qed.

Lemma trial_err hs vs board st e :
  trial hs vs board st = Err e ->
  e = FixedHandCollides \/ e = UnsupportedRangeElement \/ e = NoLiveCombos.
Proof.
  destruct st as [c rng]. unfold trial.
  destruct (sample hs rng board) as [[hero rng1]|e1] eqn:Hh; cbn [bind];
    [|intros [= <-]; exact (sample_err _ _ _ _ Hh)].
  destruct (sample vs rng1 _) as [[vill rng2]|e1] eqn:Hv; cbn [bind];
    [|intros [= <-]; exact (sample_err _ _ _ _ Hv)].
  destruct (collided hero vill board); [|discriminate].
  destruct (sample vs rng2 _) as [[vill' rng3]|e1] eqn:Hv'; cbn [bind];
    [|intros [= <-]; exact (sample_err _ _ _ _ Hv')].
  destruct (collided hero vill' board); discriminate.
Qed.

Lemma run_trials_err hs vs board n : forall st e,
  run_trials hs vs board n st = Err e ->
  (e = FixedHandCollides \/ e = UnsupportedRangeElement \/ e = NoLiveCombos)
  /\ n <> 0%nat.
Proof.
  induction n as [|n IH]; intros st e H; [discriminate|].
  split; [|discriminate]. cbn [run_trials] in H.
  destruct (trial hs vs board st) as [st1|e1] eqn:Ht; cbn [bind] in H.
  - apply (IH _ _ H).
  - injection H as <-. exact (trial_err _ _ _ _ _ Ht).
Qed.

Lemma equity_err w t T e : equity w t T = Err e -> e = IntTooLarge.
Proof.
  unfold equity, float_of_int.
  destruct (F64.is_finite (F64.of_Z t)); cbn [bind]; [|intros [= <-]; reflexivity].
  destruct (F64.is_finite (F64.of_Z w)); cbn [bind]; [|intros [= <-]; reflexivity].
  destruct (F64.is_finite (F64.of_Z T)); cbn [bind]; [discriminate|].
  intros [= <-]; reflexivity.
Qed.

Lemma finalize_err c e :
  finalize c = Err e ->
  (e = ZeroCompletedTrials /\ total c = 0) \/ (e = IntTooLarge /\ total c <> 0).
Proof.
  unfold finalize. fold (total c).
  destruct (Z.eqb_spec (total c) 0) as [H0|H0]; [intros [= <-]; now left|].
  destruct (equity (h_w c) _ _) as [q1|e1] eqn:He1; cbn [bind];
    [|intros [= <-]; right; split; [exact (equity_err _ _ _ _ He1) | exact H0]].
  destruct (equity (v_w c) _ _) as [q2|e2] eqn:He2; cbn [bind]; [discriminate|].
  intros [= <-]; right; split; [exact (equity_err _ _ _ _ He2) | exact H0].
Qed.

(** What each exception of a call tells about its arguments. *)
Lemma equity_hu_err hero_src vill_src board iters seed entropy e :
  equity_hu hero_src vill_src board iters seed entropy = Err e ->
  match e with
  | TwoCardHandLength => False
  | InvalidCard | InvalidRange =>
      sampler_of hero_src = Err e
      \/ ((exists hs, sampler_of hero_src = Ok hs) /\ sampler_of vill_src = Err e)
  | BoardLength => board_len_ok (board_or_empty board) = false
  | FixedHandCollides | UnsupportedRangeElement | NoLiveCombos =>
      1 <= iters /\ board_len_ok (board_or_empty board) = true
  | ZeroCompletedTrials =>
      board_len_ok (board_or_empty board) = true
      /\ (iters <= 0
          \/ ~ NoDup (board_or_empty board)
          \/ (exists hs, sampler_of hero_src = Ok hs /\ ~ proper hs)
          \/ (exists vs, sampler_of vill_src = Ok vs /\ ~ proper vs))
  | IntTooLarge => 2 ^ 1000 <= iters
  end.
Proof.
  unfold equity_hu.
  destruct (sampler_of hero_src) as [hs|e1] eqn:Hhs; cbn [bind].
  2:{ intros [= <-]. destruct (sampler_of_err _ _ Hhs) as [->| ->]; now left. }
  destruct (sampler_of vill_src) as [vs|e1] eqn:Hvs; cbn [bind].
  2:{ intros [= <-].
      destruct (sampler_of_err _ _ Hvs) as [->| ->]; right; split;
        try reflexivity; exists hs; reflexivity. }
  cbv zeta.
  destruct (board_len_ok (board_or_empty board)) eqn:Hb; cbn [negb];
    [|intros [= <-]; reflexivity].
  destruct (run_trials hs vs _ _ _) as [[c rng']|e1] eqn:Hrun; cbn [bind].
  2:{ intros [= <-]. apply run_trials_err in Hrun. destruct Hrun as [He Hn].
      assert (1 <= iters) by lia.
      destruct He as [->|[->| ->]]; split; (assumption || reflexivity). }
  intros Hfin. pose proof (run_trials_counters _ _ _ _ _ _ _ _ Hrun) as Hc.
  unfold total in Hc. cbn [h_w v_w ties] in Hc.
  destruct (finalize_err _ _ Hfin) as [[-> H0]|[-> H0]].
  - split; [reflexivity|].
    destruct (ListDec.NoDup_dec card_eq_dec (board_or_empty board)) as [Hnd|Hnd];
      [|tauto].
    destruct (proper_dec hs) as [Hph|Hph];
      [|right; right; left; exists hs; split; [reflexivity | exact Hph]].
    destruct (proper_dec vs) as [Hpv|Hpv];
      [|right; right; right; exists vs; split; [reflexivity | exact Hpv]].
    apply (run_trials_all_complete _ _ _ _ _ _ _ _ Hnd Hph Hpv) in Hrun.
    unfold total in *. cbn [h_w v_w ties] in Hrun. left. lia.
  - destruct (Z.lt_ge_cases iters (2 ^ 1000)) as [Hlt|Hge]; [exfalso|exact Hge].
    destruct (finalize_success c) as (q1 & q2 & _ & _ & Hok & _);
      try lia; [unfold total in *; lia|].
    rewrite Hok in Hfin. discriminate.
Qed.

(** What each exception of a call tells about its arguments.  The
    two-card length error never comes out: a text that is not four
    characters long is read as a range.  An invalid card or range comes
    from building the hero's sampler, or the villain's once the hero's is
    built.  The board length error means a board of 1, 2 or more than 5
    cards.  The three exceptions of the sampler need at least one trial
    and a board of valid length.  Zero completed trials means no trial
    was asked for, or a board that repeats a card, or a fixed hand made
    of twice the same card.  The integer overflow needs 2^1000 trials or
    more. *)
Theorem raised_errors
        (hero_src vill_src : source) (board : option Board)
        (iters : Z) (seed : option Z) (entropy : rng_state) (e : error) :
  equity_hu hero_src vill_src board iters seed entropy = Err e ->
  match e with
  | TwoCardHandLength => False
  | InvalidCard | InvalidRange =>
      sampler_of hero_src = Err e
      \/ ((exists hs, sampler_of hero_src = Ok hs) /\ sampler_of vill_src = Err e)
  | BoardLength => board_len_ok (board_or_empty board) = false
  | FixedHandCollides | UnsupportedRangeElement | NoLiveCombos =>
      1 <= iters /\ board_len_ok (board_or_empty board) = true
  | ZeroCompletedTrials =>
      board_len_ok (board_or_empty board) = true
      /\ (iters <= 0
          \/ ~ NoDup (board_or_empty board)
          \/ (exists hs, sampler_of hero_src = Ok hs /\ ~ proper hs)
          \/ (exists vs, sampler_of vill_src = Ok vs /\ ~ proper vs))
  | IntTooLarge => 2 ^ 1000 <= iters
  end.
Proof. apply equity_hu_err. Qed.

(** The board the street endpoint hands to the engine is the one
    [parse_board] returned, and such a board always passes the engine's
    own length check: whatever the hands, the run length and the seed,
    the call does not raise the board length error. *)
Theorem parsed_board_passes_length_check
        (board_str : str) (board : Board)
        (hero_src vill_src : source) (iters : Z) (seed : option Z)
        (entropy : rng_state) :
  parse_board board_str = inr board ->
  board_len_ok board = true
  /\ equity_hu hero_src vill_src (Some board) iters seed entropy
     <> Err BoardLength.
Proof.
  intros Hp.
  assert (Hok : board_len_ok board = true).
  { unfold parse_board in Hp. destruct (PyStr.strip board_str) as [|ch rest].
    - injection Hp as <-. reflexivity.
    - destruct (negb _); [discriminate|].
      destruct (parse_codes _) as [cards|]; [|discriminate].
      destruct (board_len_ok cards) eqn:Hb; cbn [negb] in Hp; [|discriminate].
      injection Hp as <-. exact Hb. }
  split; [exact Hok|]. intros He.
  apply equity_hu_err in He. cbn in He. congruence.
Qed.

End ErrorsMore.

Lemma raised_errors_witness :
  board_len_ok (board_or_empty (Some [Ah; Kh])) = false.
Proof.
  exact (raised_errors (R := lcg) (E := toy) (txt "AsKs") (txt "QhQd")
           (Some [Ah; Kh]) 1000 (Some 1) 0 BoardLength eq_refl).
Defined.

Lemma parsed_board_passes_length_check_witness :
  board_len_ok [Qh; Qd; Kc] = true
  /\ equity_hu (R := lcg) (E := toy) (txt "AsKs") (txt "QhQd") (Some [Qh; Qd; Kc])
               10 None 0
     <> Err BoardLength.
Proof.
  apply (parsed_board_passes_length_check (R := lcg) (E := toy)
           (PyStr.of_string " QhQdKc ") [Qh; Qd; Kc]
           (txt "AsKs") (txt "QhQd") 10 None 0).
  reflexivity.
Defined.

(* ================================================================== *)
(** * Two fixed hands *)

Lemma mem_app c l1 l2 : mem c (l1 ++ l2) = mem c l1 || mem c l2.
Proof. unfold mem. apply existsb_app. Qed.

Lemma slice_to_0 {A} (l : list A) : slice_to 0 l = [].
Proof. reflexivity. Qed.

Section FixedHands.

Context {R : RandomGen} {E : Eval7}.

(** A trial with two fixed hands. *)
Lemma trial_fixed th tv h v b c rng :
  trial (FixedHand th h) (FixedHand tv v) b (c, rng)
  = if existsb (fun x => mem x b) (cards_of h) then Err FixedHandCollides
    else if existsb (fun x => mem x (b ++ cards_of h)) (cards_of v)
         then Err FixedHandCollides
         else if collided h v b then Ok (c, rng)
              else Ok (showdown h v b c rng).
Proof.
  unfold trial, sample.
  destruct (existsb _ (cards_of h)); cbn [bind]; [reflexivity|].
  destruct (existsb _ (cards_of v)); cbn [bind]; [reflexivity|].
  destruct (collided h v b); reflexivity.
Qed.

(** On a full board the showdown draws nothing: the two values compared
    are those of the hands with the board. *)
Lemma showdown_river h v b c rng :
  len b = 5 ->
  fst (showdown h v b c rng)
  = (if best5_eval (cards_of h ++ b) >? best5_eval (cards_of v ++ b)
     then Counters (h_w c + 1) (v_w c) (ties c)
     else if best5_eval (cards_of v ++ b) >? best5_eval (cards_of h ++ b)
          then Counters (h_w c) (v_w c + 1) (ties c)
          else Counters (h_w c) (v_w c) (ties c + 1)).
Proof.
  intros Hb. unfold showdown. cbv zeta. rewrite Hb.
  pose proof (deal_remaining_fst (cards_of h ++ cards_of v ++ b) (5 - 5) rng) as Hd.
  destruct (deal_remaining _ (5 - 5) rng) as [draw rng'].
  cbn [fst] in Hd. change (5 - 5) with 0 in Hd. rewrite slice_to_0 in Hd.
  subst draw. rewrite app_nil_r.
  destruct (_ >? _); [|destruct (_ >? _)]; reflexivity.
Qed.

Lemma river_trials th tv h v b n : forall c rng c' rng',
  len b = 5 ->
  run_trials (FixedHand th h) (FixedHand tv v) b n (c, rng) = Ok (c', rng') ->
  if best5_eval (cards_of h ++ b) >? best5_eval (cards_of v ++ b)
  then v_w c' = v_w c /\ ties c' = ties c
  else if best5_eval (cards_of v ++ b) >? best5_eval (cards_of h ++ b)
       then h_w c' = h_w c /\ ties c' = ties c
       else h_w c' = h_w c /\ v_w c' = v_w c.
Proof.
  induction n as [|n IH]; intros c rng c' rng' Hb H.
  - injection H as <- _.
    destruct (_ >? _); [|destruct (_ >? _)]; split; reflexivity.
  - cbn [run_trials] in H.
    destruct (trial _ _ b (c, rng)) as [[c1 rng1]|] eqn:Ht; [|discriminate].
    cbn [bind] in H. specialize (IH _ _ _ _ Hb H).
    assert (Hc1 : c1 = c \/ c1 = fst (showdown h v b c rng)).
    { rewrite trial_fixed in Ht.
      destruct (existsb _ (cards_of h)); [discriminate|].
      destruct (existsb _ (cards_of v)); [discriminate|].
      destruct (collided h v b).
      - injection Ht as <- _. now left.
      - apply Ok_inj in Ht. rewrite Ht. now right. }
    destruct Hc1 as [-> | ->]; [exact IH|].
    rewrite (showdown_river h v b c rng Hb) in IH.
    destruct (_ >? _); [|destruct (_ >? _)]; cbn [h_w v_w ties] in IH; exact IH.
Qed.

(** Two fixed hands on a full board: nothing is drawn, so every trial
    has the same outcome.  A call of fewer than 2^1000 trials that
    returns gives the whole count to the hand with the higher value,
    with equities exactly 1.0 and 0.0, or to the ties when the values
    are equal, with both equities exactly 0.5, whatever the seed. *)
Theorem river_fixed_hands_decided
        (hero_src vill_src : source) (b : Board)
        (iters : Z) (seed : option Z) (entropy : rng_state)
        (th tv : str) (h v : Card2) (res : EquityResult) :
  sampler_of hero_src = Ok (FixedHand th h) ->
  sampler_of vill_src = Ok (FixedHand tv v) ->
  len b = 5 ->
  iters < 2 ^ 1000 ->
  equity_hu hero_src vill_src (Some b) iters seed entropy = Ok res ->
  if best5_eval (cards_of h ++ b) >? best5_eval (cards_of v ++ b)
  then hero_wins res = iters
       /\ hero_equity res = F64.one /\ villain_equity res = F64.zero
  else if best5_eval (cards_of v ++ b) >? best5_eval (cards_of h ++ b)
       then villain_wins res = iters
            /\ hero_equity res = F64.zero /\ villain_equity res = F64.one
       else res_ties res = iters
            /\ hero_equity res = F64.half /\ villain_equity res = F64.half.
Proof.
  intros Hhs Hvs Hb Hi H.
  pose proof (equity_hu_result _ _ _ _ _ _ _ H)
    as (Hh & Hv & Ht & Hsum & Hit & He1 & He2).
  pose proof (equity_hu_all_trials _ _ _ _ _ _ _ H) as (Hall & _).
  destruct (equity_decided (res_iters res) ltac:(lia)) as (D1 & D0 & Dh).
  apply equity_hu_inv in H.
  destruct H as (hs & vs & c & rng' & Hhs' & Hvs' & _ & Hrun & Hfin).
  rewrite Hhs in Hhs'. rewrite Hvs in Hvs'.
  injection Hhs' as <-. injection Hvs' as <-.
  apply (river_trials _ _ _ _ _ _ _ _ _ _ Hb) in Hrun. cbn [h_w v_w ties] in Hrun.
  assert (Hres : hero_wins res = h_w c /\ villain_wins res = v_w c
                 /\ res_ties res = ties c).
  { unfold finalize in Hfin.
    destruct (_ =? 0); [discriminate|].
    destruct (equity (h_w c) _ _); [|discriminate]. cbn [bind] in Hfin.
    destruct (equity (v_w c) _ _); [|discriminate]. cbn [bind] in Hfin.
    injection Hfin as <-. repeat split. }
  destruct Hres as (Rh & Rv & Rt). rewrite <- Rh, <- Rv, <- Rt in Hrun.
  destruct (_ >? _); [|destruct (_ >? _)]; destruct Hrun as [Ha Hc];
    rewrite Ha, Hc in *.
  - replace (hero_wins res) with (res_iters res) in He1 by lia.
    rewrite D1 in He1. rewrite D0 in He2.
    split; [lia|]. split; apply Ok_inj; symmetry; assumption.
  - replace (villain_wins res) with (res_iters res) in He2 by lia.
    rewrite D0 in He1. rewrite D1 in He2.
    split; [lia|]. split; apply Ok_inj; symmetry; assumption.
  - replace (res_ties res) with (res_iters res) in He1, He2 by lia.
    rewrite Dh in He1, He2.
    split; [lia|]. split; apply Ok_inj; symmetry; assumption.
Qed.

Lemma collided_swap h v b : collided v h b = collided h v b.
Proof.
  destruct (collided h v b) eqn:H1; destruct (collided v h b) eqn:H2;
    try reflexivity; exfalso.
  - apply collided_false_NoDup in H2.
    assert (H : collided h v b = false).
    { apply collided_false_NoDup.
      eapply Permutation_NoDup; [apply Permutation_app_swap_app | exact H2]. }
    congruence.
  - apply collided_false_NoDup in H1.
    assert (H : collided v h b = false).
    { apply collided_false_NoDup.
      eapply Permutation_NoDup; [apply Permutation_app_swap_app | exact H1]. }
    congruence.
Qed.

Lemma deal_remaining_swap (l1 l2 l3 : list card) n rng :
  deal_remaining (l2 ++ l1 ++ l3) n rng = deal_remaining (l1 ++ l2 ++ l3) n rng.
Proof.
  unfold deal_remaining.
  replace (filter (fun c => negb (mem c (l2 ++ l1 ++ l3))) Deck)
    with (filter (fun c => negb (mem c (l1 ++ l2 ++ l3))) Deck); [reflexivity|].
  apply filter_ext. intros c. rewrite !mem_app.
  destruct (mem c l1), (mem c l2); reflexivity.
Qed.

Lemma showdown_swap h v b c rng :
  showdown v h b (mirror c) rng
  = (mirror (fst (showdown h v b c rng)), snd (showdown h v b c rng)).
Proof.
  unfold showdown. cbv zeta. rewrite deal_remaining_swap.
  destruct (deal_remaining _ _ rng) as [draw rng'].
  set (hs := best5_eval (cards_of h ++ b ++ draw)).
  set (vs := best5_eval (cards_of v ++ b ++ draw)).
  destruct (Z.gtb_spec hs vs) as [H1|H1]; destruct (Z.gtb_spec vs hs) as [H2|H2];
    try reflexivity; lia.
Qed.

Lemma blocked_swap (h v : Card2) (b : list card) :
  existsb (fun c => mem c b) (cards_of v)
  || existsb (fun c => mem c (b ++ cards_of v)) (cards_of h)
  = existsb (fun c => mem c b) (cards_of h)
    || existsb (fun c => mem c (b ++ cards_of h)) (cards_of v).
Proof.
  apply Bool.eq_iff_eq_true. rewrite !orb_true_iff, !existsb_exists.
  split.
  - intros [(x & Hx & Hm)|(x & Hx & Hm)].
    + right. exists x. split; [exact Hx|]. rewrite mem_app, Hm. reflexivity.
    + rewrite mem_app in Hm. apply orb_true_iff in Hm. destruct Hm as [Hm|Hm].
      * left. exists x. split; assumption.
      * right. exists x. apply mem_In in Hm. split; [exact Hm|].
        rewrite mem_app. apply orb_true_iff. right. apply mem_In. exact Hx.
  - intros [(x & Hx & Hm)|(x & Hx & Hm)].
    + right. exists x. split; [exact Hx|]. rewrite mem_app, Hm. reflexivity.
    + rewrite mem_app in Hm. apply orb_true_iff in Hm. destruct Hm as [Hm|Hm].
      * left. exists x. split; assumption.
      * right. exists x. apply mem_In in Hm. split; [exact Hm|].
        rewrite mem_app. apply orb_true_iff. right. apply mem_In. exact Hx.
Qed.

Lemma trial_swap th tv h v b c rng :
  match trial (FixedHand th h) (FixedHand tv v) b (c, rng),
        trial (FixedHand tv v) (FixedHand th h) b (mirror c, rng) with
  | Ok (c1, r1), Ok (c2, r2) => c2 = mirror c1 /\ r2 = r1
  | Err e1, Err e2 => e1 = e2
  | _, _ => False
  end.
Proof.
  rewrite !trial_fixed.
  pose proof (blocked_swap h v b) as Hbl.
  destruct (existsb (fun x => mem x b) (cards_of h));
    destruct (existsb (fun x => mem x b) (cards_of v));
    destruct (existsb (fun x => mem x (b ++ cards_of h)) (cards_of v));
    destruct (existsb (fun x => mem x (b ++ cards_of v)) (cards_of h));
    cbn [orb] in Hbl; try discriminate; try reflexivity.
  rewrite (collided_swap h v b).
  destruct (collided h v b); [split; reflexivity|].
  rewrite showdown_swap. destruct (showdown h v b c rng). split; reflexivity.
Qed.

Lemma run_trials_swap th tv h v b n : forall c rng,
  match run_trials (FixedHand th h) (FixedHand tv v) b n (c, rng),
        run_trials (FixedHand tv v) (FixedHand th h) b n (mirror c, rng) with
  | Ok (c1, r1), Ok (c2, r2) => c2 = mirror c1 /\ r2 = r1
  | Err e1, Err e2 => e1 = e2
  | _, _ => False
  end.
Proof.
  induction n as [|n IH]; intros c rng; [split; reflexivity|].
  cbn [run_trials]. pose proof (trial_swap th tv h v b c rng) as Ht.
  destruct (trial (FixedHand th h) _ b (c, rng)) as [[c1 r1]|e1];
    destruct (trial (FixedHand tv v) _ b (mirror c, rng)) as [[c2 r2]|e2];
    cbn [bind]; try contradiction; [|exact Ht].
  destruct Ht as [-> ->]. apply IH.
Qed.

Lemma finalize_swap c :
  match finalize c, finalize (mirror c) with
  | Ok r1, Ok r2 =>
      hero_equity r2 = villain_equity r1 /\ villain_equity r2 = hero_equity r1
      /\ hero_wins r2 = villain_wins r1 /\ villain_wins r2 = hero_wins r1
      /\ res_ties r2 = res_ties r1 /\ res_iters r2 = res_iters r1
  | Err e1, Err e2 => True
  | _, _ => False
  end.
Proof.
  unfold finalize, mirror. cbn [h_w v_w ties].
  rewrite (Z.add_comm (v_w c) (h_w c)).
  destruct (_ =? 0); [exact I|].
  destruct (equity (h_w c) _ _) as [q1|e1]; destruct (equity (v_w c) _ _) as [q2|e2];
    cbn [bind]; try exact I. cbn. repeat split.
Qed.

(** Exchanging two fixed hands exchanges the results: with the same
    board, run length and seed, the call with the players exchanged
    returns the exchanged wins and equities over the same ties and
    trials, and it raises exactly when the first call raises. *)
Theorem fixed_hands_exchanged
        (hero_src vill_src : source) (board : option Board)
        (iters : Z) (seed : option Z) (entropy : rng_state)
        (th tv : str) (h v : Card2) :
  sampler_of hero_src = Ok (FixedHand th h) ->
  sampler_of vill_src = Ok (FixedHand tv v) ->
  match equity_hu hero_src vill_src board iters seed entropy,
        equity_hu vill_src hero_src board iters seed entropy with
  | Ok r1, Ok r2 =>
      hero_equity r2 = villain_equity r1 /\ villain_equity r2 = hero_equity r1
      /\ hero_wins r2 = villain_wins r1 /\ villain_wins r2 = hero_wins r1
      /\ res_ties r2 = res_ties r1 /\ res_iters r2 = res_iters r1
  | Err e1, Err e2 => True
  | _, _ => False
  end.
Proof.
  intros Hhs Hvs. unfold equity_hu. rewrite Hhs, Hvs. cbn [bind]. cbv zeta.
  destruct (board_len_ok _); cbn [negb]; [|exact I].
  pose proof (run_trials_swap th tv h v (board_or_empty board) (Z.to_nat iters)
                              (Counters 0 0 0) (Random seed entropy)) as Hr.
  change (mirror (Counters 0 0 0)) with (Counters 0 0 0) in Hr.
  destruct (run_trials (FixedHand th h) _ _ _ _) as [[c1 r1]|e1];
    destruct (run_trials (FixedHand tv v) _ _ _ _) as [[c2 r2]|e2];
    cbn [bind]; try contradiction; [|exact I].
  destruct Hr as [-> _]. apply finalize_swap.
Qed.

End FixedHands.

Lemma river_fixed_hands_decided_witness :
  exists res,
    equity_hu (R := lcg) (E := toy) (txt "AsKs") (txt "AhKh")
              (Some [Qh; Qd; Kc; Ac; Card R2 Clubs]) 6 None 3 = Ok res
    /\ if best5_eval (E := toy) (cards_of (As, Ks) ++ [Qh; Qd; Kc; Ac; Card R2 Clubs])
          >? best5_eval (E := toy) (cards_of (Ah, Kh) ++ [Qh; Qd; Kc; Ac; Card R2 Clubs])
       then hero_wins res = 6
            /\ hero_equity res = F64.one /\ villain_equity res = F64.zero
       else if best5_eval (E := toy)
                 (cards_of (Ah, Kh) ++ [Qh; Qd; Kc; Ac; Card R2 Clubs])
               >? best5_eval (E := toy)
                    (cards_of (As, Ks) ++ [Qh; Qd; Kc; Ac; Card R2 Clubs])
            then villain_wins res = 6
                 /\ hero_equity res = F64.zero /\ villain_equity res = F64.one
            else res_ties res = 6
                 /\ hero_equity res = F64.half /\ villain_equity res = F64.half.
Proof.
  eexists. split; [vm_compute; reflexivity|].
  apply (river_fixed_hands_decided (R := lcg) (E := toy) (txt "AsKs") (txt "AhKh")
           [Qh; Qd; Kc; Ac; Card R2 Clubs] 6 None 3
           (PyStr.of_string "AsKs") (PyStr.of_string "AhKh") (As, Ks) (Ah, Kh));
    [reflexivity | reflexivity | reflexivity | lia | vm_compute; reflexivity].
Defined.

Lemma fixed_hands_exchanged_witness :
  match equity_hu (R := lcg) (E := toy) (txt "AsKs") (txt "AhKh") None 3 None 4,
        equity_hu (R := lcg) (E := toy) (txt "AhKh") (txt "AsKs") None 3 None 4 with
  | Ok r1, Ok r2 =>
      hero_equity r2 = villain_equity r1 /\ villain_equity r2 = hero_equity r1
      /\ hero_wins r2 = villain_wins r1 /\ villain_wins r2 = hero_wins r1
      /\ res_ties r2 = res_ties r1 /\ res_iters r2 = res_iters r1
  | Err e1, Err e2 => True
  | _, _ => False
  end.
Proof.
  apply (fixed_hands_exchanged (R := lcg) (E := toy) (txt "AsKs") (txt "AhKh")
           None 3 None 4
           (PyStr.of_string "AsKs") (PyStr.of_string "AhKh") (As, Ks) (Ah, Kh));
    reflexivity.
Defined.

(* ================================================================== *)
(** * Whitespace around the texts *)

Lemma lstrip_spaces ws s :
  forallb PyStr.isspace ws = true -> PyStr.lstrip (ws ++ s) = PyStr.lstrip s.
Proof.
  induction ws as [|c ws IH]; intros H; [reflexivity|].
  cbn [forallb] in H. apply andb_true_iff in H. destruct H as [Hc Hws].
  cbn [app PyStr.lstrip]. rewrite Hc. apply IH, Hws.
Qed.

Lemma lstrip_only_spaces ws :
  forallb PyStr.isspace ws = true -> PyStr.lstrip ws = [].
Proof.
  intros H. rewrite <- (app_nil_r ws). rewrite lstrip_spaces by exact H. reflexivity.
Qed.

Lemma rstrip_spaces ws s :
  forallb PyStr.isspace ws = true -> PyStr.rstrip (s ++ ws) = PyStr.rstrip s.
Proof.
  intros H. unfold PyStr.rstrip. rewrite rev_app_distr, lstrip_spaces; [reflexivity|].
  rewrite forallb_forall in *. intros x Hx. apply H, in_rev, Hx.
Qed.

Lemma strip_spaces ws1 ws2 s :
  forallb PyStr.isspace ws1 = true -> forallb PyStr.isspace ws2 = true ->
  PyStr.strip (ws1 ++ s ++ ws2) = PyStr.strip s.
Proof.
  intros H1 H2. unfold PyStr.strip. rewrite lstrip_spaces by exact H1.
  induction s as [|c s IH].
  - cbn [app]. rewrite lstrip_only_spaces by exact H2. reflexivity.
  - cbn [app PyStr.lstrip]. destruct (PyStr.isspace c); [exact IH|].
    apply (rstrip_spaces ws2 (c :: s) H2).
Qed.

Section Whitespace.

Context {E : Eval7}.

(** Whitespace before and after a text changes nothing: the hand parser,
    the board parser and the range detection give what they give on the
    text alone. *)
Theorem surrounding_whitespace_ignored (ws1 ws2 s : str) :
  forallb PyStr.isspace ws1 = true -> forallb PyStr.isspace ws2 = true ->
  parse_two_card_hand (ws1 ++ s ++ ws2) = parse_two_card_hand s
  /\ parse_board (ws1 ++ s ++ ws2) = parse_board s
  /\ detect_is_range (ws1 ++ s ++ ws2) = detect_is_range s.
Proof.
  intros H1 H2. pose proof (strip_spaces ws1 ws2 s H1 H2) as Hs.
  unfold parse_two_card_hand, parse_board, detect_is_range. cbv zeta.
  rewrite Hs. repeat split.
Qed.

End Whitespace.

Lemma surrounding_whitespace_ignored_witness :
  parse_two_card_hand (E := toy) ([32; 9]%N ++ PyStr.of_string "AsKs" ++ [10]%N)
  = parse_two_card_hand (E := toy) (PyStr.of_string "AsKs")
  /\ parse_board (E := toy) ([32; 9]%N ++ PyStr.of_string "AsKs" ++ [10]%N)
     = parse_board (E := toy) (PyStr.of_string "AsKs")
  /\ detect_is_range ([32; 9]%N ++ PyStr.of_string "AsKs" ++ [10]%N)
     = detect_is_range (PyStr.of_string "AsKs").
Proof.
  apply (surrounding_whitespace_ignored (E := toy) [32; 9]%N [10]%N
           (PyStr.of_string "AsKs")); reflexivity.
Defined.
